(** * PurpleAir dashboard: the EPA AQI conversion and assessment engine

    A shallow embedding of the classifiers of [purple_air.py]
    ([epa_aqi_pm25], [assess_aqi], [assess_pm25], [assess_temp],
    [assess_humidity], [assess_pressure]) and the properties the
    specification states about them.

    Python floats are IEEE 754 binary64 values.  They are modelled by the
    Standard Library's executable specification [spec_float] at precision
    53 and maximal exponent 1024, so every arithmetic operation rounds
    exactly as the interpreter's does.  Python integers are [Z]. *)

From Stdlib Require Import ZArith Bool List Sorted String Ascii Lia.
From Stdlib Require Import DecimalString DecimalN.
From Stdlib Require Import Floats.SpecFloat.
Import ListNotations.

Local Open Scope string_scope.
Local Open Scope Z_scope.

(* ===================================================================== *)
(** ** Python values: exceptions, floats, builtins                        *)
(* ===================================================================== *)

(** The exceptions the float operations used by the engine can raise. *)
Inductive py_exn : Type :=
| ZeroDivisionError
| ValueError
| OverflowError.

(** A computation either returns or raises. *)
Inductive result (A : Type) : Type :=
| Ok (a : A)
| Raise (e : py_exn).

Arguments Ok {A} a.
Arguments Raise {A} e.

Definition bind {A B : Type} (c : result A) (k : A -> result B) : result B :=
  match c with
  | Ok a => k a
  | Raise e => Raise e
  end.

Notation "x <- c ;; k" := (bind c (fun x => k))
  (at level 61, c at next level, right associativity).

Definition returns {A : Type} (c : result A) : Prop := exists a, c = Ok a.

(** binary64 *)
Definition prec : Z := 53.
Definition emax : Z := 1024.

Definition float : Type := spec_float.

Definition valid (x : float) : bool := valid_binary prec emax x.

Definition fadd (a b : float) : float := SFadd prec emax a b.
Definition fsub (a b : float) : float := SFsub prec emax a b.
Definition fmul (a b : float) : float := SFmul prec emax a b.
Definition fdiv (a b : float) : float := SFdiv prec emax a b.

(** [a <= b], [a < b] on floats; [a >= b] and [a > b] are the same tests
    with the operands exchanged.  Every test on NaN is false. *)
Definition fle (a b : float) : bool := SFleb a b.
Definition flt (a b : float) : bool := SFltb a b.

(** [math.isnan] *)
Definition isnan (x : float) : bool :=
  match x with
  | S754_nan => true
  | _ => false
  end.

Definition is_zero (x : float) : bool :=
  match x with
  | S754_zero _ => true
  | _ => false
  end.

(** An integer operand of a mixed int/float operation is converted to the
    nearest float (exactly, for the small constants of this program). *)
Definition of_int (z : Z) : float := binary_normalize prec emax z 0 false.

(** The decimal literal [n / 10^d], e.g. [dec 121 1] for [12.1]: the
    nearest float to the decimal value, obtained as the correctly rounded
    quotient of two exactly representable integers. *)
Definition dec (n : Z) (d : nat) : float :=
  fdiv (of_int n) (of_int (10 ^ Z.of_nat d)).

(** True division [a / b] of floats. *)
Definition py_truediv (a b : float) : result float :=
  if is_zero b then Raise ZeroDivisionError else Ok (fdiv a b).

(** [max(a, b)] and [min(a, b)] of two arguments: the first argument is
    kept unless the second compares strictly greater (resp. smaller). *)
Definition py_max (a b : float) : float := if flt a b then b else a.
Definition py_min (a b : float) : float := if flt b a then b else a.

(** Quotient of a non-negative integer by [2^k], rounded to the nearest
    integer, ties to even. *)
Definition rne_shift (m : Z) (k : Z) : Z :=
  let q := Z.shiftr m k in
  let r := m - Z.shiftl q k in
  match Z.compare (2 * r) (Z.shiftl 1 k) with
  | Lt => q
  | Gt => q + 1
  | Eq => if Z.even q then q else q + 1
  end.

(** The integer nearest to the magnitude [m * 2^e], ties to even. *)
Definition nearest_int (m : Z) (e : Z) : Z :=
  if 0 <=? e then Z.shiftl m e else rne_shift m (- e).

(** [round(x)] with one argument: nearest integer, ties to even, as an
    [int]; NaN and infinities raise. *)
Definition py_round (x : float) : result Z :=
  match x with
  | S754_nan => Raise ValueError
  | S754_infinity _ => Raise OverflowError
  | S754_zero _ => Ok 0
  | S754_finite s m e =>
      let n := nearest_int (Zpos m) e in
      Ok (if s then - n else n)
  end.

(** [int(n)] of an [int]. *)
Definition py_int (n : Z) : Z := n.

(** Decimal digits of a non-negative integer. *)
Definition digits_of (n : Z) : string :=
  NilZero.string_of_uint (N.to_uint (Z.to_N n)).

Fixpoint zeros (n : nat) : string :=
  match n with
  | O => EmptyString
  | S k => String "0"%char (zeros k)
  end.

(** The fixed-point rendering of a non-negative scaled integer
    [n = value * 10^nd] with [nd] decimals. *)
Definition fixed_digits (nd : nat) (n : Z) : string :=
  let p := 10 ^ Z.of_nat nd in
  let ip := digits_of (n / p) in
  match nd with
  | O => ip
  | _ =>
      let fp := digits_of (n mod p) in
      (ip ++ "." ++ zeros (nd - String.length fp) ++ fp)
  end.

(** [format(x, ".<nd>f")]: the exact binary value rounded to [nd]
    decimals, ties to even. *)
Definition format_f (nd : nat) (x : float) : string :=
  let sign (s : bool) : string := if s then "-" else "" in
  match x with
  | S754_nan => "nan"
  | S754_infinity s => (sign s ++ "inf")
  | S754_zero s => (sign s ++ fixed_digits nd 0)
  | S754_finite s m e =>
      (sign s ++ fixed_digits nd (nearest_int (Zpos m * 10 ^ Z.of_nat nd) e))
  end.

(* ===================================================================== *)
(** ** The engine                                                         *)
(* ===================================================================== *)

(** EPA PM2.5 breakpoints mirrored to AQI bands:
    [(c_lo, c_hi, i_lo, i_hi)]. *)
Definition bps : list (float * float * Z * Z) :=
  [ (dec 0 1,    dec 120 1,  0,   50);
    (dec 121 1,  dec 354 1,  51,  100);
    (dec 355 1,  dec 554 1,  101, 150);
    (dec 555 1,  dec 1504 1, 151, 200);
    (dec 1505 1, dec 2504 1, 201, 300);
    (dec 2505 1, dec 3504 1, 301, 400);
    (dec 3505 1, dec 5004 1, 401, 500) ].

(** The interpolation of one band:
    [(i_hi - i_lo) / (c_hi - c_lo) * (x - c_lo) + i_lo]. *)
Definition interpolate (bp : float * float * Z * Z) (x : float) : result float :=
  let '(c_lo, c_hi, i_lo, i_hi) := bp in
  k <- py_truediv (of_int (i_hi - i_lo)) (fsub c_hi c_lo) ;;
  Ok (fadd (fmul k (fsub x c_lo)) (of_int i_lo)).

Definition in_band (bp : float * float * Z * Z) (x : float) : bool :=
  let '(c_lo, c_hi, _, _) := bp in
  fle c_lo x && fle x c_hi.

(** The [for] loop over the breakpoints, with its fall-through. *)
Fixpoint epa_lookup (l : list (float * float * Z * Z)) (x : float)
  : result (option Z) :=
  match l with
  | [] => Ok None
  | bp :: rest =>
      if in_band bp x then
        aqi <- interpolate bp x ;;
        r <- py_round aqi ;;
        Ok (Some (py_int r))
      else epa_lookup rest x
  end.

Definition clamp (pm25 : float) : float :=
  py_min (py_max pm25 (dec 0 1)) (dec 5004 1).

Definition epa_aqi_pm25 (pm25 : option float) : result (option Z) :=
  match pm25 with
  | None => Ok None
  | Some p =>
      if isnan p then Ok None
      else epa_lookup bps (clamp p)
  end.

(** (label, emoji, guidance, css_class) *)
Definition assess_aqi (aqi : option Z) : string * string * string * string :=
  match aqi with
  | None => ("Unknown", "⚪", "No AQI available.", "")
  | Some a =>
      if (0 <=? a) && (a <=? 50) then
        ("Good", "🟢", "Air quality is satisfactory. Outdoor activities are safe.", "good")
      else if (51 <=? a) && (a <=? 100) then
        ("Moderate", "🟡", "Acceptable; unusually sensitive people should reduce prolonged exertion.", "moderate")
      else if (101 <=? a) && (a <=? 150) then
        ("Unhealthy for Sensitive Groups", "🟠", "Sensitive groups should reduce prolonged or heavy exertion.", "usg")
      else if (151 <=? a) && (a <=? 200) then
        ("Unhealthy", "🔴", "Everyone may experience health effects; limit prolonged outdoor exertion.", "unhealthy")
      else if (201 <=? a) && (a <=? 300) then
        ("Very Unhealthy", "🟣", "Health alert: avoid prolonged or heavy exertion outdoors.", "veryunhealthy")
      else
        ("Hazardous", "🟤", "Health warnings of emergency conditions: avoid all outdoor exertion.", "hazardous")
  end.

Definition pm25_hazardous : string * string * string :=
  ("Hazardous", "Serious risk—stay indoors with clean air if available.", "hazardous").

(** (label, note, css_class) *)
Definition assess_pm25 (pm : option float) : string * string * string :=
  match pm with
  | None => ("—", "No PM2.5 data.", "")
  | Some x =>
      if isnan x then ("—", "No PM2.5 data.", "")
      else if fle (of_int 0) x && fle x (dec 120 1) then
        ("Good", "Within EPA 24h guideline (0–12 µg/m³).", "good")
      else if fle (dec 121 1) x && fle x (dec 354 1) then
        ("Moderate", "Consider caution for unusually sensitive people.", "moderate")
      else if fle (dec 355 1) x && fle x (dec 554 1) then
        ("USG", "Sensitive groups should reduce prolonged outdoor exertion.", "usg")
      else if fle (dec 555 1) x && fle x (dec 1504 1) then
        ("Unhealthy", "Everyone may experience health effects—limit outdoor exertion.", "unhealthy")
      else if fle (dec 1505 1) x && fle x (dec 2504 1) then
        ("Very Unhealthy", "Avoid outdoor activities; use masks/air purifiers if possible.", "veryunhealthy")
      else pm25_hazardous
  end.

Definition comfort_guidance : string := "Comfort range for many indoors conditions.".
Definition heat_guidance : string := "High heat: watch for heat stress; hydrate and rest.".
Definition cool_guidance : string := "Cool: consider layering for warmth.".
Definition dash : string := "—".

(** The Fahrenheit reading of the value: kept when it lies in [40, 120],
    otherwise [value * 9/5 + 32]. *)
Definition to_fahrenheit (value : float) : result float :=
  if fle (of_int 40) value && fle value (of_int 120) then Ok value
  else
    q <- py_truediv (fmul value (of_int 9)) (of_int 5) ;;
    Ok (fadd q (of_int 32)).

(** The Celsius reading of the value: kept when it lies in [-20, 50],
    otherwise [(value - 32) * 5/9]. *)
Definition to_celsius (value : float) : result float :=
  if fle (of_int (-20)) value && fle value (of_int 50) then Ok value
  else py_truediv (fmul (fsub value (of_int 32)) (of_int 5)) (of_int 9).

(** (display_value, guidance) *)
Definition assess_temp (value : option float) (to_unit : string)
  : result (string * string) :=
  match value with
  | None => Ok (dash, "No temperature data.")
  | Some value =>
      if isnan value then Ok (dash, "No temperature data.")
      else if String.eqb to_unit "Fahrenheit" then
        v <- to_fahrenheit value ;;
        if fle (of_int 68) v && fle v (of_int 77) then
          Ok (format_f 1 v ++ " °F", comfort_guidance)
        else if flt (of_int 86) v then
          Ok (format_f 1 v ++ " °F", heat_guidance)
        else if flt v (of_int 50) then
          Ok (format_f 1 v ++ " °F", cool_guidance)
        else Ok (format_f 1 v ++ " °F", dash)
      else
        v <- to_celsius value ;;
        if fle (of_int 20) v && fle v (of_int 25) then
          Ok (format_f 1 v ++ " °C", comfort_guidance)
        else if flt (of_int 30) v then
          Ok (format_f 1 v ++ " °C", heat_guidance)
        else if flt v (of_int 10) then
          Ok (format_f 1 v ++ " °C", cool_guidance)
        else Ok (format_f 1 v ++ " °C", dash)
  end.

Definition assess_humidity (h : option float) : string * string :=
  match h with
  | None => (dash, "No humidity data.")
  | Some h =>
      if isnan h then (dash, "No humidity data.")
      else if fle (of_int 40) h && fle h (of_int 60) then
        (format_f 0 h ++ "%", "Comfort range (40–60%).")
      else if fle (of_int 30) h && flt h (of_int 40) then
        (format_f 0 h ++ "%", "Slightly dry: consider humidifier (target ≥40%).")
      else if flt (of_int 60) h && fle h (of_int 70) then
        (format_f 0 h ++ "%", "Slightly humid: increase ventilation; target ≤60%.")
      else if flt h (of_int 30) then
        (format_f 0 h ++ "%", "Low humidity: dryness and irritation possible.")
      else if flt (of_int 70) h then
        (format_f 0 h ++ "%", "High humidity: mold and discomfort possible.")
      else (format_f 0 h ++ "%", dash)
  end.

Definition assess_pressure (p : option float) : string * string :=
  match p with
  | None => (dash, "No pressure data.")
  | Some p =>
      if isnan p then (dash, "No pressure data.")
      else if flt p (of_int 1000) then
        (format_f 1 p ++ " hPa", "Low pressure: unsettled weather likely.")
      else if flt (of_int 1025) p then
        (format_f 1 p ++ " hPa", "High pressure: settled/fair weather.")
      else (format_f 1 p ++ " hPa", "Near average (~1013 hPa).")
  end.

(* ===================================================================== *)
(** ** The reading layer: payload access and casting                      *)
(* ===================================================================== *)

(** The values of a decoded JSON payload ([Any] in the signatures).  A
    [dict] lists each of its keys once. *)
#[local] Set Warnings "-register-all".
Inductive value : Type :=
| VNone
| VBool (b : bool)
| VInt (n : Z)
| VFloat (x : float)
| VStr (s : string)
| VList (l : list value)
| VDict (d : list (string * value)).
#[local] Set Warnings "register-all".

(** [d.get(k)]: the value bound to [k], or [None]. *)
Fixpoint dict_get (d : list (string * value)) (k : string) : value :=
  match d with
  | [] => VNone
  | (k', v) :: rest => if String.eqb k k' then v else dict_get rest k
  end.

(** Truth value of an object, as [if], [or] and [not] test it. *)
Definition truthy (v : value) : bool :=
  match v with
  | VNone => false
  | VBool b => b
  | VInt n => negb (n =? 0)
  | VFloat x => negb (is_zero x)
  | VStr s => negb (String.eqb s "")
  | VList l => match l with [] => false | _ => true end
  | VDict d => match d with [] => false | _ => true end
  end.

(** [a or b] *)
Definition py_or (a b : value) : value := if truthy a then a else b.

(** [get_field(d, *keys)]: follows the keys; a [None] on the way, or a
    value without [get] (the [AttributeError] is caught), gives [None]. *)
Fixpoint get_field (cur : value) (keys : list string) : value :=
  match keys with
  | [] => cur
  | k :: rest =>
      match cur with
      | VNone => VNone
      | VDict d => get_field (dict_get d k) rest
      | _ => VNone
      end
  end.

(** A field that is missing or holds a binary64 number. *)
Definition float_or_none (v : value) : Prop :=
  match v with
  | VNone => True
  | VFloat x => valid x = true
  | _ => False
  end.

(** [get_field(payload, "sensor") or {}] *)
Definition payload_sensor (payload : value) : value :=
  py_or (get_field payload ["sensor"]) (VDict []).

(** The least magnitude of an integer that rounds beyond the largest
    float: the largest float plus half a unit in its last place. *)
Definition int_overflow : Z := 2 ^ 1024 - 2 ^ 970.

Definition is_inf (x : float) : bool :=
  match x with
  | S754_infinity _ => true
  | _ => false
  end.

Section Reading.
(** [float(s)] of a string: the parsed value, or [None] when it raises
    [ValueError]. *)
Variable float_of_str : string -> option float.

(** [safe_float(val)]: [float(val)], with [TypeError] and [ValueError]
    turned into [None]; the [OverflowError] of an integer too large for
    a float is not caught. *)
Definition safe_float (val : value) : result (option float) :=
  match val with
  | VNone => Ok None
  | VBool b => Ok (Some (of_int (if b then 1 else 0)))
  | VInt n => if is_inf (of_int n) then Raise OverflowError else Ok (Some (of_int n))
  | VFloat x => Ok (Some x)
  | VStr s => Ok (float_of_str s)
  | VList _ => Ok None
  | VDict _ => Ok None
  end.

(** [sensor.get("pm2.5_atm") or sensor.get("pm2.5") or sensor.get("pm2.5_a")] *)
Definition select_pm25 (sensor : list (string * value)) : value :=
  py_or (dict_get sensor "pm2.5_atm")
        (py_or (dict_get sensor "pm2.5") (dict_get sensor "pm2.5_a")).

(** The PM2.5 reading and the AQI computed from it. *)
Definition sensor_pm25 (sensor : list (string * value)) : result (option float) :=
  safe_float (select_pm25 sensor).

Definition sensor_aqi (sensor : list (string * value)) : result (option Z) :=
  pm25 <- sensor_pm25 sensor ;; epa_aqi_pm25 pm25.
End Reading.

(* ===================================================================== *)
(** ** The display layer                                                  *)
(* ===================================================================== *)

(** [str(n)] of an [int]. *)
Definition str_int (n : Z) : string :=
  if n <? 0 then "-" ++ digits_of (- n) else digits_of n.

(** The AQI metric: [str(aqi) if aqi is not None else "—"]. *)
Definition aqi_metric (aqi : option Z) : string :=
  match aqi with
  | Some a => str_int a
  | None => dash
  end.

(** The badges: shown when badges are on and the class is not empty. *)
Definition aqi_badge (show_badges : bool) (aqi : option Z) : option string :=
  let '(label, emoji, guide, css_class) := assess_aqi aqi in
  if show_badges && negb (String.eqb css_class "") then
    Some ("<span class='pill " ++ css_class ++ "'>AQI: " ++ label ++ "</span>")
  else None.

Definition pm25_badge (show_badges : bool) (pm25 : option float) : option string :=
  let '(p_label, p_note, p_class) := assess_pm25 pm25 in
  if show_badges && negb (String.eqb p_class "") then
    Some ("<span class='pill " ++ p_class ++ "'>PM2.5: " ++ p_label ++ "</span>")
  else None.

(** [format(x, "+.<nd>f")]: as [format_f], with the sign always shown. *)
Definition format_plus_f (nd : nat) (x : float) : string :=
  let sign (s : bool) : string := if s then "-" else "+" in
  match x with
  | S754_nan => "+nan"
  | S754_infinity s => (sign s ++ "inf")
  | S754_zero s => (sign s ++ fixed_digits nd 0)
  | S754_finite s m e =>
      (sign s ++ fixed_digits nd (nearest_int (Zpos m * 10 ^ Z.of_nat nd) e))
  end.

(** [abs(x)] *)
Definition fabs (x : float) : float := SFabs x.

(** The PM2.5 metric and its trend against the 10-minute average. *)
Definition pm_text (pm25 : option float) : string :=
  match pm25 with
  | Some x => format_f 1 x
  | None => dash
  end.

Definition delta_text (pm25 pm25_10m : option float) : option string :=
  match pm25, pm25_10m with
  | Some a, Some b =>
      let d := fsub a b in
      if fle (dec 1 1) (fabs d) then Some (format_plus_f 1 d ++ " vs 10m")
      else None
  | _, _ => None
  end.

(** The timestamps a [datetime] can hold, the years 1 to 9999:
    0001-01-01T00:00:00Z and 9999-12-31T23:59:59Z as seconds since the
    epoch. *)
Definition min_timestamp : Z := -62135596800.
Definition max_timestamp : Z := 253402300799.

(** What [fmt_ts] does: it returns a text, or
    [datetime.fromtimestamp] raises for a timestamp no [datetime] can
    hold ([ValueError], [OverflowError] or [OSError], by its size). *)
Inductive age : Type :=
| Text (s : string)
| TimestampOutOfRange.

Section Clock.
(** The whole minutes elapsed since a timestamp, as the clock gives them
    ([int((now - dt).total_seconds() // 60)]). *)
Variable minutes_since : Z -> Z.

(** [fmt_ts(ts)] *)
Definition fmt_ts (ts : option Z) : age :=
  match ts with
  | None => Text dash
  | Some t =>
      if t =? 0 then Text dash
      else if negb ((min_timestamp <=? t) && (t <=? max_timestamp)) then
        TimestampOutOfRange
      else
        let mins := minutes_since t in
        if mins <? 1 then Text "just now"
        else if mins <? 60 then Text (str_int mins ++ " min ago")
        else
          let hours := mins / 60 in
          if hours <? 24 then Text (str_int hours ++ " hr ago")
          else
            let days := hours / 24 in
            Text (str_int days ++ " d ago")
  end.
End Clock.

(* ===================================================================== *)
(** ** The fetch layer: one GET with a tiny retry                         *)
(* ===================================================================== *)

(** The exceptions an attempt can leave behind, and the final one.
    [MissingApiKey] is the end of a call without an API key:
    [get_api_key] stops the script ([st.stop()]) and, where that does not
    take effect, raises its [RuntimeError]. *)
Inductive fetch_exn : Type :=
| RequestException (id : nat)
| HTTPError (status_code : Z)
| JSONDecodeError
| RuntimeError
| MissingApiKey.

(** What one [GET] does: it raises, or answers with a status and a body
    that decodes to a payload or does not. *)
Inductive outcome : Type :=
| Failed (e : fetch_exn)
| Responded (status_code : Z) (json : option value).

Inductive fetched : Type :=
| Payload (p : value)
| Raised (e : fetch_exn).

(** [resp.raise_for_status()] raises for the 4xx and 5xx classes. *)
Definition raises_for_status (status_code : Z) : bool :=
  (400 <=? status_code) && (status_code <? 600).

(** [status_code in (429, 500, 502, 503, 504)] *)
Definition retry_status (status_code : Z) : bool :=
  existsb (Z.eqb status_code) [429; 500; 502; 503; 504].

Definition backoffs : list float := [of_int 0; dec 6 1; dec 12 1].

(** The state the loop threads: the number of requests sent, the pauses
    slept and the last exception caught. *)
Record fetch_state : Type := {
  calls : nat;
  slept : list float;
  last_exc : option fetch_exn
}.

(** The [for pause in backoffs] loop and what follows it.  [http n] is
    the outcome of the request number [n]. *)
Fixpoint fetch_loop (http : nat -> outcome) (pauses : list float)
  (st : fetch_state) : fetched * fetch_state :=
  match pauses with
  | [] =>
      match last_exc st with
      | Some e => (Raised e, st)
      | None => (Raised RuntimeError, st)
      end
  | pause :: rest =>
      let slept' := if is_zero pause then slept st else (slept st ++ [pause])%list in
      let next (exc : option fetch_exn) :=
        {| calls := S (calls st); slept := slept'; last_exc := exc |} in
      match http (calls st) with
      | Failed e => fetch_loop http rest (next (Some e))
      | Responded status_code json =>
          if status_code =? 200 then
            match json with
            | Some p => (Payload p, next (last_exc st))
            | None => fetch_loop http rest (next (Some JSONDecodeError))
            end
          else if negb (retry_status status_code) then
            if raises_for_status status_code then
              fetch_loop http rest (next (Some (HTTPError status_code)))
            else fetch_loop http rest (next (last_exc st))
          else fetch_loop http rest (next (last_exc st))
      end
  end.

(** The state after one more attempt: a request sent, the pause slept
    if it is not zero, the exception recorded if there is one. *)
Definition after_attempt (pause : float) (o : option outcome) (st : fetch_state)
  : fetch_state :=
  {| calls := S (calls st);
     slept := if is_zero pause then slept st else (slept st ++ [pause])%list;
     last_exc :=
       match o with
       | Some (Failed e) => Some e
       | Some (Responded status_code json) =>
           if status_code =? 200 then
             match json with Some _ => last_exc st | None => Some JSONDecodeError end
           else if negb (retry_status status_code) && raises_for_status status_code
           then Some (HTTPError status_code)
           else last_exc st
       | None => last_exc st
       end |}.

(** [not key]: no key, or an empty one. *)
Definition not_key (key : option string) : bool :=
  match key with
  | None => true
  | Some k => String.eqb k ""
  end.

(** [get_api_key()]: the entry of [st.secrets], if there is one and it is
    not empty, else the environment variable; [None] when neither gives
    a key and the call does not return. *)
Definition get_api_key (secret env : option string) : option string :=
  let key := secret in
  let key := if not_key key then env else key in
  if not_key key then None else key.

(** [fetch_sensor], with its [st.cache_data] wrapper: [cached] is the
    live cache entry for the arguments, if there is one, and it is
    returned with no request sent; on a miss the body reads the API key
    first and then runs the loop.  (The entry the wrapper stores after a
    payload is returned is not part of the result.) *)
Definition fetch_sensor (cached : option value) (secret env : option string)
  (http : nat -> outcome) : fetched * fetch_state :=
  let st0 := {| calls := 0; slept := []; last_exc := None |} in
  match cached with
  | Some p => (Payload p, st0)
  | None =>
      match get_api_key secret env with
      | None => (Raised MissingApiKey, st0)
      | Some _ => fetch_loop http backoffs st0
      end
  end.

(** The exception an attempt records, if any. *)
Definition attempt_exn (o : outcome) : option fetch_exn :=
  match o with
  | Failed e => Some e
  | Responded status_code json =>
      if status_code =? 200 then
        match json with Some _ => None | None => Some JSONDecodeError end
      else if negb (retry_status status_code) && raises_for_status status_code
      then Some (HTTPError status_code)
      else None
  end.

(** An attempt that ends the call with a payload. *)
Definition succeeds (o : outcome) : option value :=
  match o with
  | Responded status_code (Some p) => if status_code =? 200 then Some p else None
  | _ => None
  end.

(* ===================================================================== *)
(** ** Well-formedness of the breakpoint table                            *)
(* ===================================================================== *)

Definition c_lo (bp : float * float * Z * Z) : float := fst (fst (fst bp)).
Definition c_hi (bp : float * float * Z * Z) : float := snd (fst (fst bp)).
Definition i_lo (bp : float * float * Z * Z) : Z := snd (fst bp).
Definition i_hi (bp : float * float * Z * Z) : Z := snd bp.

(** The gaps the table leaves between consecutive bands:
    [(c_hi of a band, c_lo of the next)]. *)
Definition gaps_of (l : list (float * float * Z * Z)) : list (float * float) :=
  combine (map c_hi l) (tl (map c_lo l)).

Definition gaps : list (float * float) := gaps_of bps.

Definition in_gap (g : float * float) (x : float) : bool :=
  flt (fst g) x && flt x (snd g).

(** Zeros and valid positive finite floats. *)
Definition nnfb (x : float) : bool :=
  match x with
  | S754_zero _ => true
  | S754_finite false m e => bounded prec emax m e
  | _ => false
  end.

Definition rounds_to (x : float) (n : Z) : bool :=
  match py_round x with
  | Ok r => r =? n
  | Raise _ => false
  end.

(** An argument of a classifier: absent, or a binary64 value. *)
Definition wf (v : option float) : Prop :=
  match v with
  | Some x => valid x = true
  | None => True
  end.

(** The bands [assess_pm25] tests, with the labels it gives them. *)
Definition pm25_bands : list ((float * float * Z * Z) * string) :=
  combine (firstn 5 bps) ["Good"; "Moderate"; "USG"; "Unhealthy"; "Very Unhealthy"].

Definition humidity_guidance : list string :=
  [ "Comfort range (40–60%).";
    "Slightly dry: consider humidifier (target ≥40%).";
    "Slightly humid: increase ventilation; target ≤60%.";
    "Low humidity: dryness and irritation possible.";
    "High humidity: mold and discomfort possible." ].

Definition aqi_good : string * string * string * string :=
  ("Good", "🟢", "Air quality is satisfactory. Outdoor activities are safe.", "good").
Definition aqi_moderate : string * string * string * string :=
  ("Moderate", "🟡", "Acceptable; unusually sensitive people should reduce prolonged exertion.", "moderate").
Definition aqi_usg : string * string * string * string :=
  ("Unhealthy for Sensitive Groups", "🟠", "Sensitive groups should reduce prolonged or heavy exertion.", "usg").
Definition aqi_unhealthy : string * string * string * string :=
  ("Unhealthy", "🔴", "Everyone may experience health effects; limit prolonged outdoor exertion.", "unhealthy").
Definition aqi_very_unhealthy : string * string * string * string :=
  ("Very Unhealthy", "🟣", "Health alert: avoid prolonged or heavy exertion outdoors.", "veryunhealthy").
Definition aqi_hazardous : string * string * string * string :=
  ("Hazardous", "🟤", "Health warnings of emergency conditions: avoid all outdoor exertion.", "hazardous").
Definition aqi_unknown : string * string * string * string :=
  ("Unknown", "⚪", "No AQI available.", "").

(** The order on conversion results the monotonicity property compares
    with: both results are integers, and they are ordered. *)
Definition aqi_le (r1 r2 : result (option Z)) : Prop :=
  exists a b, r1 = Ok (Some a) /\ r2 = Ok (Some b) /\ a <= b.

(* ===================================================================== *)
(** ** Order and magnitude of floats                                      *)
(* ===================================================================== *)

(** Auxiliary measures of a float of precision [pr] and maximal exponent
    [em], used to reason about comparisons and rounding.  [val] is the
    magnitude counted in units of the smallest subnormal, [key] an
    integer that orders the valid floats as their values are ordered, and
    [round_key n] the key of the float nearest to [n * 2^base_exp]. *)
(** Quotient of a non-negative integer by a positive one, rounded to the
    nearest integer, ties to even. *)
Definition rne_div (n d : Z) : Z :=
  match Z.compare (2 * (n mod d)) d with
  | Lt => n / d
  | Gt => n / d + 1
  | Eq => if Z.even (n / d) then n / d else n / d + 1
  end.

(** A location as the two bits below the unit: 0 for exact, 1 below the
    half, 2 the half, 3 above. *)
Definition loc_code (l : location) : Z :=
  match l with
  | loc_Exact => 0
  | loc_Inexact Lt => 1
  | loc_Inexact Eq => 2
  | loc_Inexact Gt => 3
  end.

Section Format.
Variables pr em : Z.

Definition base_exp : Z := 2 * emin pr em.

Definition ord (m : positive) (e : Z) : Z :=
  (e - emin pr em) * 2 ^ (pr - 1) + Zpos m.

Definition key_inf : Z := (em - pr + 2 - emin pr em) * 2 ^ (pr - 1).

Definition key (x : spec_float) : Z :=
  match x with
  | S754_zero _ => 0
  | S754_nan => 0
  | S754_infinity s => if s then - key_inf else key_inf
  | S754_finite s m e => if s then - ord m e else ord m e
  end.

Definition val (x : spec_float) : Z :=
  match x with
  | S754_finite _ m e => Zpos m * 2 ^ (e - emin pr em)
  | _ => 0
  end.

Definition round_key (n : Z) : Z :=
  let E := fexp pr em (Zdigits2 n + base_exp) in
  (E - emin pr em) * 2 ^ (pr - 1) + rne_shift n (E - base_exp).

(** [round_key_q n d]: the key of the float nearest to
    [n / d * 2^base_exp]. *)
Definition round_key_q (n d : Z) : Z :=
  let E := fexp pr em (Zdigits2 (n / d) + base_exp) in
  (E - emin pr em) * 2 ^ (pr - 1) + rne_div n (d * 2 ^ (E - base_exp)).

(** Non-negative floats: zeros of either sign, valid positive finite
    numbers and, when [inf] is set, plus infinity. *)
Definition nonneg (inf : bool) (x : spec_float) : Prop :=
  match x with
  | S754_zero _ => True
  | S754_finite false m e => bounded pr em m e = true
  | S754_infinity false => inf = true
  | _ => False
  end.
End Format.

Definition fkey (x : float) : Z := key prec emax x.
Definition fval (x : float) : Z := val prec emax x.
Definition nnf (x : float) : Prop := nonneg prec emax false x.

(** What evaluation checks of one band: its bounds are ordered
    non-negative floats, the slope is defined, the interpolation stays
    finite up to the upper bound and maps the bounds of the band to the
    bounds of its index range. *)
Definition good_band (bp : float * float * Z * Z) : bool :=
  nnfb (c_lo bp) && nnfb (c_hi bp) && (fkey (c_lo bp) <=? fkey (c_hi bp)) &&
  nnfb (of_int (i_lo bp)) &&
  match py_truediv (of_int (i_hi bp - i_lo bp)) (fsub (c_hi bp) (c_lo bp)) with
  | Ok k =>
      nnfb k && nnfb (fsub (c_hi bp) (c_lo bp)) &&
      nnfb (fmul k (fsub (c_hi bp) (c_lo bp))) &&
      nnfb (fadd (fmul k (fsub (c_hi bp) (c_lo bp))) (of_int (i_lo bp))) &&
      rounds_to (fadd (fmul k (fsub (c_lo bp) (c_lo bp))) (of_int (i_lo bp))) (i_lo bp) &&
      rounds_to (fadd (fmul k (fsub (c_hi bp) (c_lo bp))) (of_int (i_lo bp))) (i_hi bp)
  | Raise _ => false
  end.

(** A table all of whose bands are well formed. *)
Definition good_table (l : list (float * float * Z * Z)) : Prop :=
  Forall (fun bp => good_band bp = true) l.

(** A band lies entirely below another. *)
Definition band_lt (b1 b2 : float * float * Z * Z) : Prop :=
  fkey (c_hi b1) < fkey (c_lo b2) /\ i_hi b1 < i_lo b2.

(** The state of the right-shift loop of the rounding procedure after [k]
    steps on the mantissa [m]: the quotient, and the round and sticky bits
    that locate the remainder with respect to the half. *)
Definition shr_inv (m k : Z) (rec : shr_record) : Prop :=
  shr_m rec = m / 2 ^ k /\
  match shr_r rec, shr_s rec with
  | false, false => m mod 2 ^ k = 0
  | false, true => 0 < 2 * (m mod 2 ^ k) < 2 ^ k
  | true, false => 2 * (m mod 2 ^ k) = 2 ^ k
  | true, true => 2 ^ k < 2 * (m mod 2 ^ k)
  end.

(* ===================================================================== *)
(** ** Rounding a quotient by a power of two                              *)
(* ===================================================================== *)

Lemma rne_shift_eq (m k : Z) :
  0 <= k ->
  rne_shift m k =
    match Z.compare (2 * (m mod 2 ^ k)) (2 ^ k) with
    | Lt => m / 2 ^ k
    | Gt => m / 2 ^ k + 1
    | Eq => if Z.even (m / 2 ^ k) then m / 2 ^ k else m / 2 ^ k + 1
    end.
Proof.
  intros Hk. unfold rne_shift.
  rewrite Z.shiftr_div_pow2, Z.shiftl_mul_pow2, Z.shiftl_1_l by assumption.
  replace (m - m / 2 ^ k * 2 ^ k) with (m mod 2 ^ k); [reflexivity|].
  assert (0 < 2 ^ k) by (apply Z.pow_pos_nonneg; lia).
  rewrite Z.mod_eq by lia. ring.
Qed.

Lemma rne_shift_mono (m1 m2 k : Z) :
  0 <= k -> m1 <= m2 -> rne_shift m1 k <= rne_shift m2 k.
Proof.
  intros Hk Hm. rewrite !rne_shift_eq by assumption.
  assert (HP : 0 < 2 ^ k) by (apply Z.pow_pos_nonneg; lia).
  set (P := 2 ^ k) in *.
  pose proof (Z.div_mod m1 P ltac:(lia)) as E1.
  pose proof (Z.div_mod m2 P ltac:(lia)) as E2.
  pose proof (Z.mod_pos_bound m1 P HP) as B1.
  pose proof (Z.mod_pos_bound m2 P HP) as B2.
  pose proof (Z.div_le_mono m1 m2 P HP Hm) as Hq.
  set (q1 := m1 / P) in *. set (q2 := m2 / P) in *.
  set (r1 := m1 mod P) in *. set (r2 := m2 mod P) in *.
  destruct (Z.eq_dec q1 q2) as [Heq|Hne].
  - rewrite <- Heq in *. clearbody q1 r1 r2.
    assert (r1 <= r2) by lia.
    destruct (Z.compare_spec (2 * r1) P), (Z.compare_spec (2 * r2) P);
      destruct (Z.even q1); lia.
  - assert (q1 + 1 <= q2) by lia.
    destruct (Z.compare_spec (2 * r1) P), (Z.compare_spec (2 * r2) P);
      destruct (Z.even q1), (Z.even q2); lia.
Qed.

Lemma rne_shift_scale (m k j : Z) :
  0 <= k -> 0 <= j -> rne_shift (m * 2 ^ j) (k + j) = rne_shift m k.
Proof.
  intros Hk Hj. rewrite !rne_shift_eq by lia.
  assert (0 < 2 ^ k) by (apply Z.pow_pos_nonneg; lia).
  assert (0 < 2 ^ j) by (apply Z.pow_pos_nonneg; lia).
  rewrite Z.pow_add_r by assumption.
  rewrite Z.div_mul_cancel_r by lia.
  rewrite Z.mul_mod_distr_r by lia.
  rewrite Z.mul_assoc.
  rewrite <- (Zmult_compare_compat_r (2 * (m mod 2 ^ k)) (2 ^ k) (2 ^ j)) by lia.
  reflexivity.
Qed.

Lemma rne_shift_exact (m k : Z) : 0 <= k -> rne_shift (m * 2 ^ k) k = m.
Proof.
  intros Hk. rewrite rne_shift_eq by assumption.
  assert (0 < 2 ^ k) by (apply Z.pow_pos_nonneg; lia).
  rewrite Z.mod_mul, Z.div_mul by lia.
  destruct (Z.compare_spec (2 * 0) (2 ^ k)); lia.
Qed.

Lemma rne_shift_lower (a m k : Z) :
  0 <= k -> a * 2 ^ k <= m -> a <= rne_shift m k.
Proof.
  intros Hk H. rewrite <- (rne_shift_exact a k Hk).
  now apply rne_shift_mono.
Qed.

Lemma rne_shift_upper (a m k : Z) :
  0 <= k -> m <= a * 2 ^ k -> rne_shift m k <= a.
Proof.
  intros Hk H. pose proof (rne_shift_mono _ _ k Hk H) as M.
  now rewrite rne_shift_exact in M.
Qed.

(* ===================================================================== *)
(** ** The format: digits, canonical mantissas, comparison                *)
(* ===================================================================== *)

Section FormatFacts.
Variables pr em : Z.
Hypothesis Hpr : 1 < pr.
Hypothesis Hem : pr < em.

Local Abbreviation emn := (emin pr em).
Local Abbreviation E0 := (base_exp pr em).
Local Abbreviation P := (2 ^ (pr - 1)).

Lemma emin_neg : emn < 0.
Proof. unfold emin. lia. Qed.

Lemma half_pos : 0 < P.
Proof. apply Z.pow_pos_nonneg; lia. Qed.

Lemma pow_pr : 2 ^ pr = 2 * P.
Proof.
  replace pr with (1 + (pr - 1)) at 1 by lia.
  rewrite Z.pow_add_r by lia. reflexivity.
Qed.

Lemma digits_log2 (p : positive) :
  Zpos (digits2_pos p) = Z.log2 (Zpos p) + 1.
Proof.
  assert (H : forall q, digits2_pos q = Pos.size q)
    by (induction q; simpl; congruence).
  rewrite H. destruct p; simpl; lia.
Qed.

Lemma Zdigits2_log2 (n : Z) : 0 < n -> Zdigits2 n = Z.log2 n + 1.
Proof. destruct n; try lia. intros _. apply digits_log2. Qed.

Lemma Zdigits2_bounds (n : Z) :
  0 < n -> 2 ^ (Zdigits2 n - 1) <= n < 2 ^ Zdigits2 n.
Proof.
  intros Hn. rewrite Zdigits2_log2 by assumption.
  pose proof (Z.log2_spec n Hn).
  replace (Z.log2 n + 1 - 1) with (Z.log2 n) by lia.
  replace (Z.log2 n + 1) with (Z.succ (Z.log2 n)) by lia. assumption.
Qed.

Lemma Zdigits2_nonneg (n : Z) : 0 <= n -> 0 <= Zdigits2 n.
Proof. destruct n; simpl; lia. Qed.

Lemma Zdigits2_pos (n : Z) : 0 < n -> 0 < Zdigits2 n.
Proof. destruct n; simpl; lia. Qed.

Lemma Zdigits2_mono (n1 n2 : Z) :
  0 <= n1 <= n2 -> Zdigits2 n1 <= Zdigits2 n2.
Proof.
  intros [H0 H]. destruct (Z.eq_dec n1 0) as [->|Hn].
  - apply Zdigits2_nonneg. lia.
  - rewrite !Zdigits2_log2 by lia.
    pose proof (Z.log2_le_mono n1 n2 H). lia.
Qed.

Lemma Zdigits2_shift (n k : Z) :
  0 < n -> 0 <= k -> Zdigits2 (n * 2 ^ k) = Zdigits2 n + k.
Proof.
  intros Hn Hk.
  assert (0 < 2 ^ k) by (apply Z.pow_pos_nonneg; lia).
  rewrite !Zdigits2_log2 by nia.
  rewrite Z.log2_mul_pow2 by lia. lia.
Qed.

Lemma Zdigits2_unique (n d : Z) :
  0 < d -> 2 ^ (d - 1) <= n < 2 ^ d -> Zdigits2 n = d.
Proof.
  intros Hd H.
  assert (0 < 2 ^ (d - 1)) by (apply Z.pow_pos_nonneg; lia).
  rewrite Zdigits2_log2 by lia.
  rewrite (Z.log2_unique n (d - 1)); try lia.
  replace (Z.succ (d - 1)) with d by lia. assumption.
Qed.

(** What [bounded] says about a mantissa and its exponent. *)
Lemma bounded_facts (m : positive) (e : Z) :
  bounded pr em m e = true ->
  emn <= e <= em - pr /\ Zpos m < 2 * P /\ (emn < e -> P <= Zpos m).
Proof.
  unfold bounded, canonical_mantissa, fexp.
  rewrite andb_true_iff, Z.eqb_eq, Z.leb_le. intros [Hc He].
  pose proof (Zdigits2_bounds (Zpos m) ltac:(lia)) as [Hlo Hhi].
  simpl Zdigits2 in *.
  set (d := Zpos (digits2_pos m)) in *.
  assert (Hd : d <= pr) by lia.
  repeat split; try lia.
  - rewrite <- pow_pr.
    pose proof (Z.pow_le_mono_r 2 d pr ltac:(lia) Hd). lia.
  - intros Hlt. assert (Hd' : d = pr) by lia. now rewrite Hd' in Hlo.
Qed.

Lemma bounded_intro (m : positive) (e : Z) :
  emn <= e <= em - pr -> Zpos m < 2 * P -> (emn < e -> P <= Zpos m) ->
  bounded pr em m e = true.
Proof.
  intros He Hhi Hlo. unfold bounded, canonical_mantissa, fexp.
  rewrite andb_true_iff, Z.eqb_eq, Z.leb_le. split; [|lia].
  pose proof (Zdigits2_bounds (Zpos m) ltac:(lia)) as [Dlo Dhi].
  pose proof (Zdigits2_pos (Zpos m) ltac:(lia)) as Dpos.
  simpl Zdigits2 in *.
  set (d := Zpos (digits2_pos m)) in *.
  assert (Hd : d <= pr).
  { destruct (Z_le_gt_dec d pr) as [|Hgt]; [assumption|exfalso].
    pose proof (Z.pow_le_mono_r 2 pr (d - 1) ltac:(lia) ltac:(lia)).
    rewrite pow_pr in *. lia. }
  destruct (Z.eq_dec e emn) as [->|Hne]; [lia|].
  assert (d = pr); [|lia].
  destruct (Z.eq_dec d pr) as [|Hd']; [assumption|exfalso].
  pose proof (Z.pow_le_mono_r 2 d (pr - 1) ltac:(lia) ltac:(lia)).
  specialize (Hlo ltac:(lia)). lia.
Qed.

Lemma ord_bounds (m : positive) (e : Z) :
  bounded pr em m e = true -> 0 < ord pr em m e < key_inf pr em.
Proof.
  intros Hb. destruct (bounded_facts _ _ Hb) as (He & Hhi & _).
  pose proof half_pos. unfold ord, key_inf. nia.
Qed.

Lemma ord_lt (m1 m2 : positive) (e1 e2 : Z) :
  bounded pr em m1 e1 = true -> bounded pr em m2 e2 = true ->
  e1 < e2 -> ord pr em m1 e1 < ord pr em m2 e2.
Proof.
  intros H1 H2 Hlt.
  destruct (bounded_facts _ _ H1) as (He1 & Hhi1 & _).
  destruct (bounded_facts _ _ H2) as (He2 & _ & Hlo2).
  specialize (Hlo2 ltac:(lia)).
  pose proof half_pos. unfold ord. nia.
Qed.

Lemma ord_compare (m1 m2 : positive) (e1 e2 : Z) :
  bounded pr em m1 e1 = true -> bounded pr em m2 e2 = true ->
  match Z.compare e1 e2 with
  | Lt => Lt
  | Gt => Gt
  | Eq => Pos.compare_cont Eq m1 m2
  end = (ord pr em m1 e1 ?= ord pr em m2 e2).
Proof.
  intros H1 H2. destruct (Z.compare_spec e1 e2) as [->|Hlt|Hgt].
  - unfold ord. rewrite Z.add_compare_mono_l. reflexivity.
  - symmetry. apply Z.compare_lt_iff. now apply ord_lt.
  - symmetry. apply Z.compare_gt_iff. now apply ord_lt.
Qed.

(** On valid floats other than NaN, comparison is comparison of keys. *)
Lemma compare_key (x y : spec_float) :
  valid_binary pr em x = true -> valid_binary pr em y = true ->
  isnan x = false -> isnan y = false ->
  SFcompare x y = Some (key pr em x ?= key pr em y).
Proof.
  assert (HK : 0 < key_inf pr em).
  { pose proof half_pos. unfold key_inf, emin. nia. }
  destruct x as [sx|sx| |sx mx ex], y as [sy|sy| |sy my ey];
    unfold SFcompare, key, valid_binary, isnan;
    intros Vx Vy Nx Ny; try discriminate; f_equal;
    try (pose proof (ord_bounds _ _ Vx) as Bx);
    try (pose proof (ord_bounds _ _ Vy) as By);
    try (pose proof (ord_compare _ _ _ _ Vx Vy) as C);
    destruct sx; try destruct sy; symmetry;
    try reflexivity;
    try (apply Z.compare_lt_iff; lia);
    try (apply Z.compare_gt_iff; lia);
    try (apply Z.compare_eq_iff; lia).
  - rewrite Z.compare_opp, Z.compare_antisym, <- C.
    destruct (ex ?= ey); reflexivity.
  - now rewrite <- C.
Qed.

(** *** The rounded key as a function of the exact value *)

Lemma fexp_ge_emin (z : Z) : emn <= fexp pr em z.
Proof. unfold fexp. lia. Qed.

Lemma round_key_0 : round_key pr em 0 = 0.
Proof.
  pose proof emin_neg. unfold round_key, base_exp, fexp. simpl Zdigits2.
  replace (Z.max (0 + 2 * emn - pr) emn) with emn by lia.
  rewrite (rne_shift_eq 0) by lia.
  assert (0 < 2 ^ (emn - 2 * emn)) by (apply Z.pow_pos_nonneg; lia).
  rewrite Z.mod_0_l, Z.div_0_l by lia.
  destruct (Z.compare_spec (2 * 0) (2 ^ (emn - 2 * emn))); simpl; lia.
Qed.

(** The rounded mantissa fits the precision, and fills it above the
    subnormal range. *)
Lemma round_mant_bounds (n : Z) :
  0 <= n ->
  let E := fexp pr em (Zdigits2 n + E0) in
  0 <= rne_shift n (E - E0) <= 2 * P /\
  (emn < E -> P <= rne_shift n (E - E0)).
Proof.
  intros Hn E. pose proof emin_neg as Hneg. pose proof half_pos as HP.
  pose proof (fexp_ge_emin (Zdigits2 n + E0)) as HE. fold E in HE.
  assert (Hk : 0 <= E - E0) by (unfold base_exp; lia).
  assert (H2k : 0 < 2 ^ (E - E0)) by (apply Z.pow_pos_nonneg; lia).
  destruct (Z.eq_dec n 0) as [->|Hn0].
  - assert (Hz : rne_shift 0 (E - E0) = 0).
    { pose proof (rne_shift_exact 0 (E - E0) Hk) as X. now rewrite Z.mul_0_l in X. }
    rewrite Hz. split; [lia|]. intros Hlt. exfalso.
    subst E. unfold fexp, base_exp in Hlt. simpl Zdigits2 in Hlt. lia.
  - pose proof (Zdigits2_bounds n ltac:(lia)) as [Dlo Dhi].
    pose proof (Zdigits2_pos n ltac:(lia)) as Dpos.
    set (d := Zdigits2 n) in *.
    assert (HEd : d + E0 - pr <= E) by (subst E; unfold fexp; lia).
    split; [split|].
    + apply rne_shift_lower; [assumption|lia].
    + apply rne_shift_upper; [assumption|].
      rewrite <- pow_pr, <- Z.pow_add_r by lia.
      pose proof (Z.pow_le_mono_r 2 d (pr + (E - E0)) ltac:(lia) ltac:(lia)).
      lia.
    + intros Hlt. assert (HEq : E = d + E0 - pr) by (subst E; unfold fexp in *; lia).
      apply rne_shift_lower; [assumption|].
      rewrite <- Z.pow_add_r by lia.
      replace (pr - 1 + (E - E0)) with (d - 1) by lia. assumption.
Qed.

Lemma round_key_nonneg (n : Z) : 0 <= n -> 0 <= round_key pr em n.
Proof.
  intros Hn. pose proof (round_mant_bounds n Hn) as [[H _] _].
  pose proof (fexp_ge_emin (Zdigits2 n + E0)). pose proof half_pos.
  unfold round_key. nia.
Qed.

(** Rounding is monotone. *)
Lemma round_key_mono (n1 n2 : Z) :
  0 <= n1 <= n2 -> round_key pr em n1 <= round_key pr em n2.
Proof.
  intros [H0 Hle].
  pose proof (round_mant_bounds n1 H0) as [[_ U1] _].
  pose proof (round_mant_bounds n2 ltac:(lia)) as [_ L2].
  pose proof (Zdigits2_mono n1 n2 (conj H0 Hle)) as Hd.
  pose proof (fexp_ge_emin (Zdigits2 n1 + E0)) as G1.
  pose proof half_pos as HP.
  unfold round_key. cbv zeta in *.
  set (E1 := fexp pr em (Zdigits2 n1 + E0)) in *.
  set (E2 := fexp pr em (Zdigits2 n2 + E0)) in *.
  assert (HE : E1 <= E2) by (subst E1 E2; unfold fexp; lia).
  destruct (Z.eq_dec E1 E2) as [Heq|Hne].
  - rewrite <- Heq.
    assert (Hk : 0 <= E1 - E0) by (pose proof emin_neg; unfold base_exp; lia).
    pose proof (rne_shift_mono n1 n2 (E1 - E0) Hk Hle). lia.
  - specialize (L2 ltac:(lia)). nia.
Qed.

(** *** The right-shift loop computes the rounded quotient *)

Lemma iter_pos_nat {A : Type} (f : A -> A) (p : positive) (x : A) :
  iter_pos f p x = Nat.iter (Pos.to_nat p) f x.
Proof.
  revert x. induction p as [p IH|p IH|]; intros x; simpl iter_pos.
  - rewrite !IH, Pos2Nat.inj_xI.
    replace (S (2 * Pos.to_nat p)) with (Pos.to_nat p + Pos.to_nat p + 1)%nat by lia.
    rewrite !Nat.iter_add. reflexivity.
  - rewrite !IH, Pos2Nat.inj_xO.
    replace (2 * Pos.to_nat p)%nat with (Pos.to_nat p + Pos.to_nat p)%nat by lia.
    rewrite Nat.iter_add. reflexivity.
  - reflexivity.
Qed.

Lemma shr_1_nonneg (m : Z) (r s : bool) :
  0 <= m ->
  shr_1 (Build_shr_record m r s) = Build_shr_record (m / 2) (Z.odd m) (r || s).
Proof.
  intros Hm. rewrite <- Z.div2_div.
  destruct m as [|[p|p|]|]; try lia; reflexivity.
Qed.

Lemma shr_inv_step (m k : Z) (rec : shr_record) :
  0 <= m -> 0 <= k -> shr_inv m k rec -> shr_inv m (k + 1) (shr_1 rec).
Proof.
  intros Hm Hk [Hq Hl]. destruct rec as [q r s]. cbn [shr_m shr_r shr_s] in Hq, Hl.
  assert (HP : 0 < 2 ^ k) by (apply Z.pow_pos_nonneg; lia).
  assert (Hq0 : 0 <= q) by (subst q; apply Z.div_pos; lia).
  rewrite shr_1_nonneg by assumption.
  pose proof (Z.rem_mul_r m (2 ^ k) 2 ltac:(lia) ltac:(lia)) as HR.
  pose proof (Z.mod_pos_bound m (2 ^ k) HP) as HB.
  rewrite <- Hq in HR. rewrite Zmod_odd in HR.
  unfold shr_inv. simpl shr_m. simpl shr_r. simpl shr_s.
  rewrite Z.pow_add_r, Z.pow_1_r by lia. split.
  - rewrite Hq, Z.div_div by lia. reflexivity.
  - rewrite HR. destruct (Z.odd q), r, s; cbv beta iota delta [orb]; lia.
Qed.

Lemma shr_inv_iter (m : Z) (k : nat) :
  0 <= m ->
  shr_inv m (Z.of_nat k) (Nat.iter k shr_1 (Build_shr_record m false false)).
Proof.
  intros Hm. apply Nat.iter_ind.
  - unfold shr_inv. cbn [shr_m shr_r shr_s Nat.iter Z.of_nat].
    rewrite Z.pow_0_r, Z.div_1_r, Z.mod_1_r. split; reflexivity.
  - intros n rec IH. rewrite Nat2Z.inj_succ, <- Z.add_1_r.
    apply shr_inv_step; [assumption|lia|assumption].
Qed.

Lemma shr_inv_round (m k : Z) (rec : shr_record) :
  0 <= k -> shr_inv m k rec ->
  round_nearest_even (shr_m rec) (loc_of_shr_record rec) = rne_shift m k.
Proof.
  intros Hk [Hq Hl]. rewrite rne_shift_eq by assumption.
  assert (HP : 0 < 2 ^ k) by (apply Z.pow_pos_nonneg; lia).
  destruct rec as [q r s]. cbn [shr_m shr_r shr_s] in Hq, Hl. simpl shr_m. subst q.
  destruct r, s; simpl loc_of_shr_record; unfold round_nearest_even;
    destruct (Z.compare_spec (2 * (m mod 2 ^ k)) (2 ^ k)); try lia; reflexivity.
Qed.

(** Shifting an exact mantissa right by [n >= 0] places and rounding the
    outcome to nearest even. *)
Lemma shr_round (m e n : Z) :
  0 <= m -> 0 <= n ->
  let '(rec, e') := shr (Build_shr_record m false false) e n in
  e' = e + n /\
  round_nearest_even (shr_m rec) (loc_of_shr_record rec) = rne_shift m n.
Proof.
  intros Hm Hn. destruct n as [|p|p]; try lia; unfold shr.
  - split; [lia|]. simpl.
    pose proof (rne_shift_exact m 0 ltac:(lia)) as X.
    now rewrite Z.pow_0_r, Z.mul_1_r in X.
  - split; [reflexivity|]. rewrite iter_pos_nat.
    apply shr_inv_round; [lia|].
    rewrite <- (positive_nat_Z p). now apply shr_inv_iter.
Qed.

(** *** Rounding an exact positive value *)

Lemma key_inf_pos : 0 < key_inf pr em.
Proof. pose proof half_pos. unfold key_inf, emin. nia. Qed.

Lemma Zdigits2_le_pr (q : Z) : 0 <= q < 2 * P -> Zdigits2 q <= pr.
Proof.
  intros [H0 Hlt]. destruct (Z.eq_dec q 0) as [->|Hq]; [simpl; lia|].
  pose proof (Zdigits2_bounds q ltac:(lia)) as [Dlo _].
  rewrite <- pow_pr in Hlt.
  assert (Hpow : 2 ^ (Zdigits2 q - 1) < 2 ^ pr) by lia.
  apply Z.pow_lt_mono_r_iff in Hpow; lia.
Qed.

Lemma round_aux_key (M : positive) (e : Z) :
  E0 <= e -> e <= fexp pr em (Zdigits2 (Zpos M) + e) ->
  nonneg pr em true (binary_round_aux pr em false (Zpos M) e loc_Exact) /\
  key pr em (binary_round_aux pr em false (Zpos M) e loc_Exact) =
    Z.min (round_key pr em (Zpos M * 2 ^ (e - E0))) (key_inf pr em).
Proof.
  intros He0 He.
  pose proof emin_neg as Hneg. pose proof half_pos as HP.
  pose proof key_inf_pos as HK.
  set (N := Zpos M * 2 ^ (e - E0)).
  assert (HN : 0 < N).
  { subst N. apply Z.mul_pos_pos; [lia|apply Z.pow_pos_nonneg; lia]. }
  assert (HdN : Zdigits2 N + E0 = Zdigits2 (Zpos M) + e).
  { subst N. rewrite Zdigits2_shift by lia. lia. }
  pose proof (round_mant_bounds N ltac:(lia)) as HB. cbv zeta in HB.
  unfold round_key. rewrite HdN in *.
  set (E := fexp pr em (Zdigits2 (Zpos M) + e)) in *.
  pose proof (fexp_ge_emin (Zdigits2 (Zpos M) + e)) as HE. fold E in HE.
  assert (Hq : rne_shift N (E - E0) = rne_shift (Zpos M) (E - e)).
  { subst N. replace (E - E0) with ((E - e) + (e - E0)) by lia.
    apply rne_shift_scale; lia. }
  rewrite Hq in *. clearbody N. clear HdN Hq HN N.
  unfold binary_round_aux, shr_fexp. fold E.
  change (shr_record_of_loc (Zpos M) loc_Exact)
    with (Build_shr_record (Zpos M) false false).
  pose proof (shr_round (Zpos M) e (E - e) ltac:(lia) ltac:(lia)) as HS.
  destruct (shr (Build_shr_record (Zpos M) false false) e (E - e)) as [rec e'].
  destruct HS as [-> Hr]. rewrite Hr.
  replace (e + (E - e)) with E by lia.
  set (q := rne_shift (Zpos M) (E - e)) in *. clearbody q.
  change (shr_record_of_loc q loc_Exact) with (Build_shr_record q false false).
  destruct HB as [[Hq0 Hq2] HqP].
  assert (HPp : exists p, 2 ^ (pr - 1) = Zpos p).
  { destruct (2 ^ (pr - 1)) as [|p|p]; try lia. now exists p. }
  destruct HPp as [p Hp].
  unfold key_inf in *.
  destruct (Z.eq_dec q (2 * P)) as [Hcarry|Hnc].
  - (* the rounded mantissa reaches the next binade *)
    assert (Hd : Zdigits2 q = pr + 1).
    { apply Zdigits2_unique; [lia|]. rewrite Hcarry.
      replace (pr + 1 - 1) with pr by lia.
      replace (pr + 1) with (Z.succ pr) by lia.
      rewrite Z.pow_succ_r, pow_pr by lia. lia. }
    rewrite Hd.
    replace (fexp pr em (pr + 1 + E) - E) with 1 by (unfold fexp; lia).
    unfold shr. cbn [iter_pos]. rewrite shr_1_nonneg by assumption.
    cbn [shr_m]. rewrite Hcarry.
    replace (2 * P / 2) with P by (rewrite Z.mul_comm, Z.div_mul; lia).
    rewrite Hp in *.
    destruct (Z.leb_spec (E + 1) (em - pr)) as [Hfin|Hovf].
    + assert (Hbd : bounded pr em p (E + 1) = true).
      { apply bounded_intro; rewrite ?Hp; lia. }
      split; [exact Hbd|].
      pose proof (ord_bounds _ _ Hbd) as Ho.
      unfold key, ord, key_inf in *. rewrite Hp in *.
      replace ((E - emn) * Z.pos p + 2 * Z.pos p)
        with ((E + 1 - emn) * Z.pos p + Z.pos p) by ring.
      lia.
    + split; [reflexivity|]. unfold key, key_inf. rewrite ?Hp.
      rewrite Z.min_r; [reflexivity|]. nia.
  - (* no carry *)
    pose proof (Zdigits2_le_pr q ltac:(lia)) as Hd.
    assert (Hn : fexp pr em (Zdigits2 q + E) - E <= 0) by (unfold fexp; lia).
    assert (Hshr : shr (Build_shr_record q false false) E
                     (fexp pr em (Zdigits2 q + E) - E)
                   = (Build_shr_record q false false, E)).
    { destruct (fexp pr em (Zdigits2 q + E) - E); try lia; reflexivity. }
    rewrite Hshr. cbn [shr_m].
    destruct q as [|m'|m']; try lia.
    + split; [exact I|]. unfold key.
      assert (HEe : E = emn) by lia. rewrite HEe, Hp.
      rewrite Z.min_l; lia.
    + destruct (Z.leb_spec E (em - pr)) as [Hfin|Hovf].
      * assert (Hbd : bounded pr em m' E = true).
        { apply bounded_intro; rewrite ?Hp; try lia. }
        split; [exact Hbd|].
        pose proof (ord_bounds _ _ Hbd) as Ho.
        unfold key, ord, key_inf in *. rewrite Hp in *. lia.
      * split; [reflexivity|]. unfold key.
        assert (emn < E) by (unfold emin in *; lia).
        specialize (HqP ltac:(lia)). unfold key_inf. rewrite ?Hp in *.
        rewrite Z.min_r; [reflexivity|]. nia.
Qed.

Lemma pos_iter_xO (m d : positive) :
  Zpos (Pos.iter xO m d) = Zpos m * 2 ^ Zpos d.
Proof.
  induction d as [|d IH] using Pos.peano_ind.
  - simpl Pos.iter. rewrite Z.pow_1_r. lia.
  - rewrite Pos.iter_succ, Pos2Z.inj_xO, IH, Pos2Z.inj_succ.
    rewrite Z.pow_succ_r by lia. ring.
Qed.

Lemma shl_align_spec (m : positive) (e e' : Z) :
  snd (shl_align m e e') = Z.min e e' /\
  Zpos (fst (shl_align m e e')) = Zpos m * 2 ^ (e - Z.min e e').
Proof.
  unfold shl_align. destruct (e' - e) as [|d|d] eqn:Hd; cbn [fst snd].
  - replace (Z.min e e') with e by lia. rewrite Z.sub_diag, Z.pow_0_r. lia.
  - replace (Z.min e e') with e by lia. rewrite Z.sub_diag, Z.pow_0_r. lia.
  - replace (Z.min e e') with e' by lia. split; [reflexivity|].
    rewrite pos_iter_xO. f_equal. f_equal. lia.
Qed.

Lemma binary_round_key (M : positive) (e : Z) :
  E0 <= e ->
  nonneg pr em true (binary_round pr em false M e) /\
  key pr em (binary_round pr em false M e) =
    Z.min (round_key pr em (Zpos M * 2 ^ (e - E0))) (key_inf pr em).
Proof.
  intros He0. pose proof emin_neg as Hneg. unfold binary_round.
  change (Zpos (digits2_pos M)) with (Zdigits2 (Zpos M)).
  set (E := fexp pr em (Zdigits2 (Zpos M) + e)).
  pose proof (fexp_ge_emin (Zdigits2 (Zpos M) + e)) as HE. fold E in HE.
  pose proof (shl_align_spec M e E) as [Hs Hf].
  destruct (shl_align M e E) as [mz ez]. cbn [fst snd] in Hs, Hf. subst ez.
  assert (Hpow : 0 < 2 ^ (e - Z.min e E)) by (apply Z.pow_pos_nonneg; lia).
  assert (Hdig : Zdigits2 (Zpos mz) + Z.min e E = Zdigits2 (Zpos M) + e).
  { rewrite Hf, Zdigits2_shift by lia. lia. }
  assert (HN : Zpos mz * 2 ^ (Z.min e E - E0) = Zpos M * 2 ^ (e - E0)).
  { rewrite Hf, <- Z.mul_assoc, <- Z.pow_add_r by (unfold base_exp in *; lia).
    f_equal. f_equal. lia. }
  rewrite <- HN. apply round_aux_key.
  - unfold base_exp in *. lia.
  - rewrite Hdig. fold E. lia.
Qed.

Lemma binary_normalize_key (n e : Z) :
  0 <= n -> E0 <= e ->
  nonneg pr em true (binary_normalize pr em n e false) /\
  key pr em (binary_normalize pr em n e false) =
    Z.min (round_key pr em (n * 2 ^ (e - E0))) (key_inf pr em).
Proof.
  intros Hn He. destruct n as [|M|M]; try lia; unfold binary_normalize.
  - split; [exact I|]. rewrite Z.mul_0_l, round_key_0.
    pose proof key_inf_pos. unfold key. lia.
  - now apply binary_round_key.
Qed.

(** *** Keys and magnitudes of non-negative floats *)

Lemma nonneg_weaken (x : spec_float) :
  nonneg pr em false x -> nonneg pr em true x.
Proof. destruct x as [s|[|]| |[|] m e]; simpl; auto; discriminate. Qed.

Lemma nonneg_finite (x : spec_float) :
  nonneg pr em true x -> key pr em x < key_inf pr em -> nonneg pr em false x.
Proof.
  destruct x as [s|[|]| |[|] m e]; unfold nonneg, key; auto. lia.
Qed.

Lemma nonneg_valid (b : bool) (x : spec_float) :
  nonneg pr em b x -> valid_binary pr em x = true /\ isnan x = false.
Proof.
  destruct x as [s|[|]| |[|] m e]; unfold nonneg, valid_binary, isnan;
    intuition.
Qed.

Lemma key_nonneg_bounds (x : spec_float) :
  nonneg pr em false x -> 0 <= key pr em x < key_inf pr em.
Proof.
  pose proof key_inf_pos.
  destruct x as [s|[|]| |[|] m e]; unfold nonneg, key; try easy; try lia.
  intros Hb. pose proof (ord_bounds _ _ Hb). lia.
Qed.

Lemma val_nonneg (x : spec_float) : 0 <= val pr em x.
Proof.
  destruct x as [s|s| |s m e]; unfold val; lia.
Qed.

(** A valid float is the rounding of its own value. *)
Lemma key_val (x : spec_float) :
  nonneg pr em false x ->
  key pr em x = round_key pr em (val pr em x * 2 ^ (- emn)).
Proof.
  pose proof emin_neg as Hneg.
  destruct x as [s|[|]| |[|] m e]; unfold nonneg; try easy; intros Hb.
  - unfold key, val. now rewrite Z.mul_0_l, round_key_0.
  - destruct (bounded_facts _ _ Hb) as (He & _ & _).
    unfold key, val, ord, round_key.
    rewrite <- Z.mul_assoc, <- Z.pow_add_r by lia.
    replace (e - emn + - emn) with (e - E0) by (unfold base_exp; lia).
    rewrite Zdigits2_shift by (unfold base_exp; lia).
    replace (Zdigits2 (Zpos m) + (e - E0) + E0) with (Zpos (digits2_pos m) + e)
      by (simpl Zdigits2; lia).
    unfold bounded, canonical_mantissa in Hb.
    apply andb_true_iff in Hb. destruct Hb as [Hc _].
    apply Z.eqb_eq in Hc. rewrite Hc.
    rewrite rne_shift_exact by (unfold base_exp; lia). reflexivity.
Qed.

Lemma val_lt_exp (mx my : positive) (ex ey : Z) :
  bounded pr em mx ex = true -> bounded pr em my ey = true -> ex < ey ->
  Zpos mx * 2 ^ (ex - emn) < Zpos my * 2 ^ (ey - emn).
Proof.
  intros Hx Hy Hl. pose proof half_pos as HP.
  destruct (bounded_facts _ _ Hx) as (Hex & Hxhi & _).
  destruct (bounded_facts _ _ Hy) as (Hey & _ & Hylo).
  specialize (Hylo ltac:(lia)).
  assert (Hpx : 0 < 2 ^ (ex - emn)) by (apply Z.pow_pos_nonneg; lia).
  replace (ey - emn) with ((ey - ex - 1) + 1 + (ex - emn)) by lia.
  rewrite !Z.pow_add_r, Z.pow_1_r by lia.
  assert (HB : 0 < 2 ^ (ey - ex - 1)) by (apply Z.pow_pos_nonneg; lia).
  set (A := 2 ^ (ex - emn)) in *. set (B := 2 ^ (ey - ex - 1)) in *.
  assert (H1 : Zpos mx * A < 2 * P * A) by nia.
  assert (H2 : 2 * P * A <= 2 * Zpos my * A) by nia.
  assert (H3 : Zpos my * A * 1 <= Zpos my * A * B) by (apply Z.mul_le_mono_nonneg_l; nia).
  replace (Zpos my * (B * 2 * A)) with (2 * (Zpos my * A * B)) by ring.
  lia.
Qed.

(** Keys order the non-negative floats as their values do. *)
Lemma key_val_compare (x y : spec_float) :
  nonneg pr em false x -> nonneg pr em false y ->
  (key pr em x ?= key pr em y) = (val pr em x ?= val pr em y).
Proof.
  pose proof half_pos as HP.
  destruct x as [sx|[|]| |[|] mx ex]; unfold nonneg; try easy;
    destruct y as [sy|[|]| |[|] my ey]; try easy; intros Hx Hy;
    unfold key, val; try reflexivity.
  - destruct (bounded_facts _ _ Hy) as (He & _).
    pose proof (ord_bounds _ _ Hy).
    assert (0 < 2 ^ (ey - emn)) by (apply Z.pow_pos_nonneg; lia).
    transitivity Lt; [|symmetry]; apply Z.compare_lt_iff; nia.
  - destruct (bounded_facts _ _ Hx) as (He & _).
    pose proof (ord_bounds _ _ Hx).
    assert (0 < 2 ^ (ex - emn)) by (apply Z.pow_pos_nonneg; lia).
    transitivity Gt; [|symmetry]; apply Z.compare_gt_iff; nia.
  - destruct (Z.lt_trichotomy ex ey) as [Hl|[->|Hg]].
    + pose proof (ord_lt _ _ _ _ Hx Hy Hl).
      pose proof (val_lt_exp _ _ _ _ Hx Hy Hl).
      transitivity Lt; [|symmetry]; apply Z.compare_lt_iff; lia.
    + destruct (bounded_facts _ _ Hy) as (He & _).
      assert (Hp : 0 < 2 ^ (ey - emn)) by (apply Z.pow_pos_nonneg; lia).
      unfold ord. rewrite Z.add_compare_mono_l.
      apply Zmult_compare_compat_r. lia.
    + pose proof (ord_lt _ _ _ _ Hy Hx Hg).
      pose proof (val_lt_exp _ _ _ _ Hy Hx Hg).
      transitivity Gt; [|symmetry]; apply Z.compare_gt_iff; lia.
Qed.

Lemma key_le_val_le (x y : spec_float) :
  nonneg pr em false x -> nonneg pr em false y ->
  key pr em x <= key pr em y <-> val pr em x <= val pr em y.
Proof.
  intros Hx Hy. unfold Z.le. now rewrite key_val_compare.
Qed.

(** *** Addition, subtraction and multiplication of non-negative floats *)

Lemma align_val (m : positive) (e ez : Z) :
  emn <= ez <= e ->
  Zpos m * 2 ^ (e - ez) * 2 ^ (ez - emn) = Zpos m * 2 ^ (e - emn).
Proof.
  intros H. rewrite <- Z.mul_assoc, <- Z.pow_add_r by lia.
  f_equal. f_equal. lia.
Qed.

Lemma scale_base (n ez : Z) :
  emn <= ez ->
  n * 2 ^ (ez - E0) = n * 2 ^ (ez - emn) * 2 ^ (- emn).
Proof.
  intros H. pose proof emin_neg.
  rewrite <- Z.mul_assoc, <- Z.pow_add_r by lia.
  f_equal. f_equal. unfold base_exp. lia.
Qed.

Lemma fadd_key (a b : spec_float) :
  nonneg pr em false a -> nonneg pr em false b ->
  nonneg pr em true (SFadd pr em a b) /\
  key pr em (SFadd pr em a b) =
    Z.min (round_key pr em ((val pr em a + val pr em b) * 2 ^ (- emn)))
          (key_inf pr em).
Proof.
  intros Ha Hb. pose proof emin_neg as Hneg. pose proof key_inf_pos as HK.
  pose proof (key_val a Ha) as Ka. pose proof (key_val b Hb) as Kb.
  pose proof (key_nonneg_bounds a Ha) as Ba.
  pose proof (key_nonneg_bounds b Hb) as Bb.
  destruct a as [sa|[|]| |[|] ma ea]; try easy;
    destruct b as [sb|[|]| |[|] mb eb]; try easy.
  - split.
    + destruct sa, sb; exact I.
    + replace (key pr em (SFadd pr em (S754_zero sa) (S754_zero sb))) with 0
        by (destruct sa, sb; reflexivity).
      unfold val. rewrite Z.mul_0_l, round_key_0. lia.
  - cbn [SFadd]. split; [exact Hb|]. rewrite Kb.
    replace (val pr em (S754_zero sa)) with 0 by reflexivity.
    rewrite Z.add_0_l. rewrite <- Kb. lia.
  - cbn [SFadd]. split; [exact Ha|]. rewrite Ka.
    replace (val pr em (S754_zero sb)) with 0 by reflexivity.
    rewrite Z.add_0_r. rewrite <- Ka. lia.
  - unfold nonneg in Ha, Hb.
    destruct (bounded_facts _ _ Ha) as (Hea & _).
    destruct (bounded_facts _ _ Hb) as (Heb & _).
    unfold SFadd, cond_Zopp.
    set (ez := Z.min ea eb).
    pose proof (shl_align_spec ma ea ez) as [_ Fa].
    pose proof (shl_align_spec mb eb ez) as [_ Fb].
    replace (Z.min ea ez) with ez in Fa by lia.
    replace (Z.min eb ez) with ez in Fb by lia.
    rewrite Fa, Fb.
    assert (Hpa : 0 < 2 ^ (ea - ez)) by (apply Z.pow_pos_nonneg; lia).
    assert (Hpb : 0 < 2 ^ (eb - ez)) by (apply Z.pow_pos_nonneg; lia).
    replace ((val pr em (S754_finite false ma ea) +
              val pr em (S754_finite false mb eb)) * 2 ^ (- emn))
      with ((Zpos ma * 2 ^ (ea - ez) + Zpos mb * 2 ^ (eb - ez)) * 2 ^ (ez - E0)).
    + apply binary_normalize_key; [nia|unfold base_exp; lia].
    + rewrite scale_base by lia. f_equal. unfold val.
      rewrite Z.mul_add_distr_r, !align_val by lia. reflexivity.
Qed.

Lemma fsub_key (a b : spec_float) :
  nonneg pr em false a -> nonneg pr em false b ->
  val pr em b <= val pr em a ->
  nonneg pr em true (SFsub pr em a b) /\
  key pr em (SFsub pr em a b) =
    Z.min (round_key pr em ((val pr em a - val pr em b) * 2 ^ (- emn)))
          (key_inf pr em).
Proof.
  intros Ha Hb Hle. pose proof emin_neg as Hneg. pose proof key_inf_pos as HK.
  pose proof (key_val a Ha) as Ka.
  pose proof (key_nonneg_bounds a Ha) as Ba.
  destruct a as [sa|[|]| |[|] ma ea]; try easy;
    destruct b as [sb|[|]| |[|] mb eb]; try easy.
  - split.
    + destruct sa, sb; exact I.
    + replace (key pr em (SFsub pr em (S754_zero sa) (S754_zero sb))) with 0
        by (destruct sa, sb; reflexivity).
      unfold val. rewrite Z.mul_0_l, round_key_0. lia.
  - exfalso. unfold nonneg in Hb.
    destruct (bounded_facts _ _ Hb) as (Heb & _).
    assert (0 < 2 ^ (eb - emn)) by (apply Z.pow_pos_nonneg; lia).
    unfold val in Hle. nia.
  - cbn [SFsub]. split; [exact Ha|]. rewrite Ka.
    replace (val pr em (S754_zero sb)) with 0 by reflexivity.
    rewrite Z.sub_0_r. rewrite <- Ka. lia.
  - unfold nonneg in Ha, Hb.
    destruct (bounded_facts _ _ Ha) as (Hea & _).
    destruct (bounded_facts _ _ Hb) as (Heb & _).
    unfold SFsub, cond_Zopp.
    set (ez := Z.min ea eb).
    pose proof (shl_align_spec ma ea ez) as [_ Fa].
    pose proof (shl_align_spec mb eb ez) as [_ Fb].
    replace (Z.min ea ez) with ez in Fa by lia.
    replace (Z.min eb ez) with ez in Fb by lia.
    rewrite Fa, Fb.
    assert (Hpz : 0 < 2 ^ (ez - emn)) by (apply Z.pow_pos_nonneg; lia).
    assert (Hval : (Zpos ma * 2 ^ (ea - ez) - Zpos mb * 2 ^ (eb - ez)) * 2 ^ (ez - emn)
                   = val pr em (S754_finite false ma ea) -
                     val pr em (S754_finite false mb eb)).
    { unfold val. rewrite Z.mul_sub_distr_r, !align_val by lia. reflexivity. }
    replace ((val pr em (S754_finite false ma ea) -
              val pr em (S754_finite false mb eb)) * 2 ^ (- emn))
      with ((Zpos ma * 2 ^ (ea - ez) - Zpos mb * 2 ^ (eb - ez)) * 2 ^ (ez - E0)).
    + apply binary_normalize_key; [nia|unfold base_exp; lia].
    + rewrite scale_base by lia. now rewrite Hval.
Qed.

Lemma fmul_key (a b : spec_float) :
  nonneg pr em false a -> nonneg pr em false b ->
  nonneg pr em true (SFmul pr em a b) /\
  key pr em (SFmul pr em a b) =
    Z.min (round_key pr em (val pr em a * val pr em b)) (key_inf pr em).
Proof.
  intros Ha Hb. pose proof emin_neg as Hneg. pose proof key_inf_pos as HK.
  pose proof half_pos as HP.
  destruct a as [sa|[|]| |[|] ma ea]; try easy;
    destruct b as [sb|[|]| |[|] mb eb]; try easy;
    try (split; [exact I|];
         unfold SFmul, key, val; rewrite ?Z.mul_0_l, ?Z.mul_0_r, round_key_0; lia).
  unfold nonneg in Ha, Hb.
  destruct (bounded_facts _ _ Ha) as (Hea & Hahi & Halo).
  destruct (bounded_facts _ _ Hb) as (Heb & Hbhi & Hblo).
  unfold SFmul. cbn [xorb].
  replace (val pr em (S754_finite false ma ea) * val pr em (S754_finite false mb eb))
    with (Zpos (ma * mb) * 2 ^ (ea + eb - E0)).
  - apply round_aux_key; [unfold base_exp; lia|].
    unfold fexp.
    destruct (Z_le_gt_dec (ea + eb) emn) as [|Hgt]; [lia|].
    assert (Hprod : P <= Zpos (ma * mb)).
    { rewrite Pos2Z.inj_mul.
      destruct (Z.eq_dec ea emn) as [Ea|Ea], (Z.eq_dec eb emn) as [Eb|Eb].
      - lia.
      - specialize (Hblo ltac:(lia)). nia.
      - specialize (Halo ltac:(lia)). nia.
      - specialize (Halo ltac:(lia)). specialize (Hblo ltac:(lia)). nia. }
    assert (Hd : pr <= Zdigits2 (Zpos (ma * mb))).
    { rewrite <- (Zdigits2_unique P pr) at 1.
      - apply Zdigits2_mono. lia.
      - lia.
      - split; [lia|]. rewrite pow_pr. lia. }
    lia.
  - unfold val. rewrite Pos2Z.inj_mul.
    replace (ea + eb - E0) with ((ea - emn) + (eb - emn)) by (unfold base_exp; lia).
    rewrite Z.pow_add_r by lia. ring.
Qed.

(** [round] of a non-negative float, from its value. *)
Lemma py_round_val (x : spec_float) :
  nonneg pr em false x ->
  py_round x = Ok (rne_shift (val pr em x) (- emn)).
Proof.
  pose proof emin_neg as Hneg.
  destruct x as [s|[|]| |[|] m e]; unfold nonneg; try easy; intros Hb.
  - unfold py_round, val.
    pose proof (rne_shift_exact 0 (- emn) ltac:(lia)) as X.
    rewrite Z.mul_0_l in X. now rewrite X.
  - destruct (bounded_facts _ _ Hb) as (He & _).
    unfold py_round, val, nearest_int. f_equal.
    destruct (Z.leb_spec 0 e) as [H0|H0].
    + rewrite Z.shiftl_mul_pow2 by assumption.
      replace (e - emn) with (e + - emn) by lia.
      rewrite Z.pow_add_r, Z.mul_assoc by lia.
      now rewrite rne_shift_exact by lia.
    + replace (- emn) with (- e + (e - emn)) by lia.
      now rewrite rne_shift_scale by lia.
Qed.

(** *** Comparison tests through keys *)

Lemma SFleb_key (a b : spec_float) :
  valid_binary pr em a = true -> valid_binary pr em b = true ->
  isnan a = false -> isnan b = false ->
  SFleb a b = (key pr em a <=? key pr em b).
Proof.
  intros Va Vb Na Nb. unfold SFleb, Z.leb.
  rewrite (compare_key a b Va Vb Na Nb).
  destruct (key pr em a ?= key pr em b); reflexivity.
Qed.

Lemma SFltb_key (a b : spec_float) :
  valid_binary pr em a = true -> valid_binary pr em b = true ->
  isnan a = false -> isnan b = false ->
  SFltb a b = (key pr em a <? key pr em b).
Proof.
  intros Va Vb Na Nb. unfold SFltb, Z.ltb.
  rewrite (compare_key a b Va Vb Na Nb).
  destruct (key pr em a ?= key pr em b); reflexivity.
Qed.

(** A valid float whose key lies in the finite non-negative range is a
    non-negative finite float. *)
Lemma nonneg_of_key (x : spec_float) :
  valid_binary pr em x = true -> isnan x = false ->
  0 <= key pr em x < key_inf pr em -> nonneg pr em false x.
Proof.
  pose proof key_inf_pos.
  destruct x as [s|[|]| |[|] m e]; unfold valid_binary, isnan, key, nonneg;
    intros V N K; try easy; try lia.
  pose proof (ord_bounds _ _ V). lia.
Qed.

(** *** Monotonicity of the operations *)

Lemma stage_mono (r r' : spec_float) (n n' : Z) :
  nonneg pr em true r ->
  key pr em r = Z.min (round_key pr em n) (key_inf pr em) ->
  key pr em r' = Z.min (round_key pr em n') (key_inf pr em) ->
  nonneg pr em false r' ->
  0 <= n <= n' ->
  nonneg pr em false r /\ val pr em r <= val pr em r'.
Proof.
  intros Hr Kr Kr' Hr' Hn.
  pose proof (key_nonneg_bounds r' Hr') as B'.
  pose proof (round_key_mono n n' Hn) as M.
  assert (Hk : key pr em r <= key pr em r') by lia.
  assert (Hf : nonneg pr em false r) by (apply nonneg_finite; [assumption|lia]).
  split; [assumption|]. now apply key_le_val_le.
Qed.

Lemma fsub_mono (a a' b : spec_float) :
  nonneg pr em false a -> nonneg pr em false a' -> nonneg pr em false b ->
  val pr em b <= val pr em a <= val pr em a' ->
  nonneg pr em false (SFsub pr em a' b) ->
  nonneg pr em false (SFsub pr em a b) /\
  val pr em (SFsub pr em a b) <= val pr em (SFsub pr em a' b).
Proof.
  intros Ha Ha' Hb Hv Hf. pose proof emin_neg.
  destruct (fsub_key a b Ha Hb ltac:(lia)) as [N K].
  destruct (fsub_key a' b Ha' Hb ltac:(lia)) as [_ K'].
  apply (stage_mono _ _ _ _ N K K' Hf).
  assert (0 < 2 ^ (- emn)) by (apply Z.pow_pos_nonneg; lia). nia.
Qed.

Lemma fmul_mono (k a a' : spec_float) :
  nonneg pr em false k -> nonneg pr em false a -> nonneg pr em false a' ->
  val pr em a <= val pr em a' ->
  nonneg pr em false (SFmul pr em k a') ->
  nonneg pr em false (SFmul pr em k a) /\
  val pr em (SFmul pr em k a) <= val pr em (SFmul pr em k a').
Proof.
  intros Hk Ha Ha' Hv Hf.
  destruct (fmul_key k a Hk Ha) as [N K].
  destruct (fmul_key k a' Hk Ha') as [_ K'].
  apply (stage_mono _ _ _ _ N K K' Hf).
  pose proof (val_nonneg k). pose proof (val_nonneg a). nia.
Qed.

Lemma fadd_mono (a a' c : spec_float) :
  nonneg pr em false a -> nonneg pr em false a' -> nonneg pr em false c ->
  val pr em a <= val pr em a' ->
  nonneg pr em false (SFadd pr em a' c) ->
  nonneg pr em false (SFadd pr em a c) /\
  val pr em (SFadd pr em a c) <= val pr em (SFadd pr em a' c).
Proof.
  intros Ha Ha' Hc Hv Hf. pose proof emin_neg.
  destruct (fadd_key a c Ha Hc) as [N K].
  destruct (fadd_key a' c Ha' Hc) as [_ K'].
  apply (stage_mono _ _ _ _ N K K' Hf).
  pose proof (val_nonneg a). pose proof (val_nonneg c).
  assert (0 < 2 ^ (- emn)) by (apply Z.pow_pos_nonneg; lia). nia.
Qed.
End FormatFacts.

(* ===================================================================== *)
(** ** binary64                                                           *)
(* ===================================================================== *)

Lemma prec_gt_1 : 1 < prec.
Proof. reflexivity. Qed.

Lemma prec_lt_emax : prec < emax.
Proof. reflexivity. Qed.

Lemma nnfb_nnf (x : float) : nnfb x = true -> nnf x.
Proof.
  destruct x as [s|[|]| |[|] m e]; unfold nnfb, nnf, nonneg; intros H;
    try discriminate; auto.
Qed.

Lemma nnf_valid (x : float) : nnf x -> valid x = true /\ isnan x = false.
Proof. apply nonneg_valid. Qed.

Lemma fle_nan_r (a : float) : fle a S754_nan = false.
Proof. destruct a; reflexivity. Qed.

Lemma fle_nan_l (a : float) : fle S754_nan a = false.
Proof. destruct a; reflexivity. Qed.

Lemma flt_nan_r (a : float) : flt a S754_nan = false.
Proof. destruct a; reflexivity. Qed.

Lemma flt_nan_l (a : float) : flt S754_nan a = false.
Proof. destruct a; reflexivity. Qed.

Lemma fle_key (a b : float) :
  valid a = true -> valid b = true -> isnan a = false -> isnan b = false ->
  fle a b = (fkey a <=? fkey b).
Proof. apply (SFleb_key prec emax prec_gt_1 prec_lt_emax). Qed.

Lemma flt_key (a b : float) :
  valid a = true -> valid b = true -> isnan a = false -> isnan b = false ->
  flt a b = (fkey a <? fkey b).
Proof. apply (SFltb_key prec emax prec_gt_1 prec_lt_emax). Qed.

Lemma fle_true_not_nan (a b : float) :
  fle a b = true -> isnan a = false /\ isnan b = false.
Proof.
  destruct a, b; try (intros; split; reflexivity); intros H;
    rewrite ?fle_nan_r, ?fle_nan_l in H; discriminate.
Qed.

Lemma nnf_of_key (x : float) :
  valid x = true -> isnan x = false ->
  0 <= fkey x < key_inf prec emax -> nnf x.
Proof. apply (nonneg_of_key prec emax prec_gt_1 prec_lt_emax). Qed.

Lemma fkey_bounds (x : float) : nnf x -> 0 <= fkey x < key_inf prec emax.
Proof. apply (key_nonneg_bounds prec emax prec_gt_1 prec_lt_emax). Qed.

Lemma fkey_fval_le (x y : float) :
  nnf x -> nnf y -> (fkey x <= fkey y <-> fval x <= fval y).
Proof. apply (key_le_val_le prec emax prec_gt_1). Qed.

(** The interpolation is monotone as long as it stays finite at the
    larger argument. *)
Lemma interp_mono (lo k i x y : float) :
  nnf lo -> nnf k -> nnf i -> nnf x -> nnf y ->
  fkey lo <= fkey x -> fkey x <= fkey y ->
  nnf (fsub y lo) -> nnf (fmul k (fsub y lo)) ->
  nnf (fadd (fmul k (fsub y lo)) i) ->
  nnf (fsub x lo) /\ nnf (fmul k (fsub x lo)) /\
  nnf (fadd (fmul k (fsub x lo)) i) /\
  fval (fadd (fmul k (fsub x lo)) i) <= fval (fadd (fmul k (fsub y lo)) i).
Proof.
  intros Hlo Hk Hi Hx Hy Hlx Hxy Fd Fp Fs.
  apply fkey_fval_le in Hlx; try assumption.
  apply fkey_fval_le in Hxy; try assumption.
  destruct (fsub_mono prec emax prec_gt_1 prec_lt_emax x y lo Hx Hy Hlo
              (conj Hlx Hxy) Fd) as [Nd Vd].
  destruct (fmul_mono prec emax prec_gt_1 prec_lt_emax k _ _ Hk Nd Fd Vd Fp)
    as [Np Vp].
  destruct (fadd_mono prec emax prec_gt_1 prec_lt_emax _ _ i Np Fp Hi Vp Fs)
    as [Ns Vs].
  auto.
Qed.

Lemma py_round_mono (a b : float) :
  nnf a -> nnf b -> fval a <= fval b ->
  exists ra rb, py_round a = Ok ra /\ py_round b = Ok rb /\ ra <= rb.
Proof.
  intros Ha Hb Hv.
  rewrite (py_round_val prec emax prec_gt_1 prec_lt_emax a Ha).
  rewrite (py_round_val prec emax prec_gt_1 prec_lt_emax b Hb).
  eexists _, _. repeat split.
  apply rne_shift_mono; [|assumption].
  pose proof (emin_neg prec emax prec_gt_1 prec_lt_emax). lia.
Qed.

(** *** One band *)

Lemma interpolate_eq (bp : float * float * Z * Z) (x : float) :
  interpolate bp x =
    (k <- py_truediv (of_int (i_hi bp - i_lo bp)) (fsub (c_hi bp) (c_lo bp)) ;;
     Ok (fadd (fmul k (fsub x (c_lo bp))) (of_int (i_lo bp)))).
Proof. destruct bp as [[[a b] c] d]. reflexivity. Qed.

Lemma in_band_eq (bp : float * float * Z * Z) (x : float) :
  in_band bp x = fle (c_lo bp) x && fle x (c_hi bp).
Proof. destruct bp as [[[a b] c] d]. reflexivity. Qed.

Lemma rounds_to_eq (x : float) (n : Z) : rounds_to x n = true -> py_round x = Ok n.
Proof.
  unfold rounds_to. destruct (py_round x); [|discriminate].
  intros H. apply Z.eqb_eq in H. now subst.
Qed.

Lemma good_band_facts (bp : float * float * Z * Z) :
  good_band bp = true ->
  nnf (c_lo bp) /\ nnf (c_hi bp) /\ fkey (c_lo bp) <= fkey (c_hi bp) /\
  nnf (of_int (i_lo bp)) /\
  exists k,
    py_truediv (of_int (i_hi bp - i_lo bp)) (fsub (c_hi bp) (c_lo bp)) = Ok k /\
    nnf k /\ nnf (fsub (c_hi bp) (c_lo bp)) /\
    nnf (fmul k (fsub (c_hi bp) (c_lo bp))) /\
    nnf (fadd (fmul k (fsub (c_hi bp) (c_lo bp))) (of_int (i_lo bp))) /\
    py_round (fadd (fmul k (fsub (c_lo bp) (c_lo bp))) (of_int (i_lo bp))) = Ok (i_lo bp) /\
    py_round (fadd (fmul k (fsub (c_hi bp) (c_lo bp))) (of_int (i_lo bp))) = Ok (i_hi bp).
Proof.
  unfold good_band.
  destruct (py_truediv (of_int (i_hi bp - i_lo bp)) (fsub (c_hi bp) (c_lo bp)))
    as [k|]; rewrite ?andb_true_iff; [|intros [_ ?]; discriminate].
  intros [[[[H1 H2] H3] H4] [[[[[H5 H6] H7] H8] H9] H10]].
  apply Z.leb_le in H3.
  repeat split; auto using nnfb_nnf.
  exists k. repeat split; auto using nnfb_nnf, rounds_to_eq.
Qed.

(** Inside a well-formed band the conversion returns, its result lies in
    the index range of the band, and it is monotone. *)
Lemma band_eval (bp : float * float * Z * Z) (x y : float) :
  good_band bp = true -> nnf x -> nnf y ->
  fkey (c_lo bp) <= fkey x -> fkey x <= fkey y -> fkey y <= fkey (c_hi bp) ->
  exists ax ay rx ry,
    interpolate bp x = Ok ax /\ py_round ax = Ok rx /\
    interpolate bp y = Ok ay /\ py_round ay = Ok ry /\
    i_lo bp <= rx /\ rx <= ry /\ ry <= i_hi bp.
Proof.
  intros Hg Hx Hy Hlx Hxy Hyh.
  destruct (good_band_facts bp Hg)
    as (Nlo & Nhi & Hlh & Ni & k & Hk & Nk & Fd & Fp & Fs & Rlo & Rhi).
  rewrite !interpolate_eq, Hk. cbn [bind].
  destruct (interp_mono _ k _ y (c_hi bp) Nlo Nk Ni Hy Nhi ltac:(lia) Hyh Fd Fp Fs)
    as (Fdy & Fpy & Fsy & Vy).
  destruct (interp_mono _ k _ x y Nlo Nk Ni Hx Hy Hlx Hxy Fdy Fpy Fsy)
    as (Fdx & Fpx & Fsx & Vx).
  destruct (interp_mono _ k _ (c_lo bp) x Nlo Nk Ni Nlo Hx ltac:(lia) Hlx Fdx Fpx Fsx)
    as (_ & _ & Fsl & Vl).
  destruct (py_round_mono _ _ Fsl Fsx Vl) as (r1 & rx & E1 & Ex & L1).
  destruct (py_round_mono _ _ Fsx Fsy Vx) as (rx' & ry & Ex' & Ey & L2).
  destruct (py_round_mono _ _ Fsy Fs Vy) as (ry' & r4 & Ey' & E4 & L3).
  rewrite Rlo in E1. rewrite Rhi in E4. rewrite Ex in Ex'. rewrite Ey in Ey'.
  injection E1 as <-. injection E4 as <-. injection Ex' as <-. injection Ey' as <-.
  eexists _, _, rx, ry. repeat split; try reflexivity; assumption.
Qed.

(** Membership in a band, through keys. *)
Lemma in_band_range (bp : float * float * Z * Z) (x : float) :
  good_band bp = true -> valid x = true -> in_band bp x = true ->
  nnf x /\ fkey (c_lo bp) <= fkey x <= fkey (c_hi bp).
Proof.
  intros Hg Vx Hin.
  destruct (good_band_facts bp Hg) as (Nlo & Nhi & _).
  rewrite in_band_eq in Hin. apply andb_true_iff in Hin. destruct Hin as [H1 H2].
  destruct (fle_true_not_nan _ _ H1) as [_ Nx].
  destruct (nnf_valid _ Nlo) as [Vlo Nanlo].
  destruct (nnf_valid _ Nhi) as [Vhi Nanhi].
  rewrite fle_key in H1, H2 by assumption.
  apply Z.leb_le in H1, H2.
  pose proof (fkey_bounds _ Nlo). pose proof (fkey_bounds _ Nhi).
  split; [|lia]. apply nnf_of_key; try assumption. lia.
Qed.

(** *** The lookup over a table of well-formed bands *)

Lemma fle_fkey (x y : float) :
  valid x = true -> valid y = true -> fle x y = true -> fkey x <= fkey y.
Proof.
  intros Vx Vy H. destruct (fle_true_not_nan _ _ H) as [Nx Ny].
  rewrite fle_key in H by assumption. now apply Z.leb_le.
Qed.

Lemma band_step (bp : float * float * Z * Z) (x : float) :
  good_band bp = true -> valid x = true -> in_band bp x = true ->
  exists r,
    (aqi <- interpolate bp x ;; r <- py_round aqi ;; Ok (Some (py_int r)))
      = Ok (Some r) /\
    i_lo bp <= r <= i_hi bp.
Proof.
  intros Hg Vx Hin.
  destruct (in_band_range bp x Hg Vx Hin) as [Nx [K1 K2]].
  destruct (band_eval bp x x Hg Nx Nx K1 ltac:(lia) K2)
    as (ax & ay & rx & ry & I1 & R1 & I2 & R2 & L1 & L2 & L3).
  rewrite I1 in I2. injection I2 as <-. rewrite R1 in R2. injection R2 as <-.
  exists rx. rewrite I1. cbn [bind]. rewrite R1. cbn [bind]. split; [reflexivity|lia].
Qed.

Lemma epa_lookup_returns (l : list (float * float * Z * Z)) (x : float) :
  good_table l -> valid x = true -> returns (epa_lookup l x).
Proof.
  intros G Vx. induction G as [|bp l Hg G IH]; cbn [epa_lookup].
  - now exists None.
  - destruct (in_band bp x) eqn:Hin; [|exact IH].
    destruct (band_step bp x Hg Vx Hin) as (r & E & _).
    rewrite E. now exists (Some r).
Qed.

Lemma epa_lookup_some (l : list (float * float * Z * Z)) (x : float) (r : Z) :
  good_table l -> valid x = true -> epa_lookup l x = Ok (Some r) ->
  exists bp, In bp l /\ in_band bp x = true /\ i_lo bp <= r <= i_hi bp.
Proof.
  intros G Vx. induction G as [|bp l Hg G IH]; cbn [epa_lookup]; intros H.
  - discriminate.
  - destruct (in_band bp x) eqn:Hin.
    + destruct (band_step bp x Hg Vx Hin) as (r' & E & B).
      rewrite E in H. injection H as <-.
      exists bp. split; [now left|]. split; assumption.
    + destruct (IH H) as (bp' & I & B). exists bp'. split; [now right|assumption].
Qed.

Lemma epa_lookup_none (l : list (float * float * Z * Z)) (x : float) :
  (forall bp, In bp l -> in_band bp x = false) -> epa_lookup l x = Ok None.
Proof.
  induction l as [|bp l IH]; cbn [epa_lookup]; intros H; [reflexivity|].
  rewrite (H bp (or_introl eq_refl)). apply IH. intros b I. apply H. now right.
Qed.

(** Over a table of well-formed bands listed in increasing order, the
    conversion is monotone wherever it is defined. *)
Lemma epa_lookup_mono (l : list (float * float * Z * Z)) (x y : float) (a b : Z) :
  good_table l -> StronglySorted band_lt l ->
  valid x = true -> valid y = true -> fle x y = true ->
  epa_lookup l x = Ok (Some a) -> epa_lookup l y = Ok (Some b) -> a <= b.
Proof.
  intros G S Vx Vy Hxy. pose proof (fle_fkey x y Vx Vy Hxy) as Kxy.
  induction G as [|bp l Hg G IH]; cbn [epa_lookup]; intros Ha Hb.
  - discriminate.
  - apply StronglySorted_inv in S. destruct S as [S Hlt].
    rewrite Forall_forall in Hlt.
    destruct (in_band bp x) eqn:Hx, (in_band bp y) eqn:Hy.
    + destruct (in_band_range bp x Hg Vx Hx) as [Nx [K1 K2]].
      destruct (in_band_range bp y Hg Vy Hy) as [Ny [K3 K4]].
      destruct (band_eval bp x y Hg Nx Ny K1 Kxy K4)
        as (ax & ay & rx & ry & I1 & R1 & I2 & R2 & L1 & L2 & L3).
      rewrite I1 in Ha. cbn [bind] in Ha. rewrite R1 in Ha. cbn [bind] in Ha.
      rewrite I2 in Hb. cbn [bind] in Hb. rewrite R2 in Hb. cbn [bind] in Hb.
      injection Ha as <-. injection Hb as <-. exact L2.
    + destruct (band_step bp x Hg Vx Hx) as (r & E & B).
      rewrite E in Ha. injection Ha as <-.
      destruct (epa_lookup_some l y b G Vy Hb) as (bp' & I & _ & B').
      destruct (Hlt bp' I) as [_ Hi]. lia.
    + exfalso.
      destruct (epa_lookup_some l x a G Vx Ha) as (bp' & I & Hx' & _).
      rewrite Forall_forall in G.
      destruct (in_band_range bp' x (G bp' I) Vx Hx') as [_ [K1 _]].
      destruct (in_band_range bp y Hg Vy Hy) as [_ [_ K2]].
      destruct (Hlt bp' I) as [Hk _]. lia.
    + exact (IH S Ha Hb).
Qed.

(** *** The table of the program *)

Lemma bps_good : good_table bps.
Proof.
  unfold good_table. apply Forall_forall. intros bp H.
  assert (F : forallb good_band bps = true) by (vm_compute; reflexivity).
  rewrite forallb_forall in F. now apply F.
Qed.

Lemma bps_sorted : StronglySorted band_lt bps.
Proof.
  unfold bps.
  repeat (apply SSorted_cons; [|repeat (apply Forall_cons; [split; vm_compute; reflexivity|]); apply Forall_nil]).
  apply SSorted_nil.
Qed.

(** *** Clamping *)

Lemma flt_true_not_nan (a b : float) :
  flt a b = true -> isnan a = false /\ isnan b = false.
Proof.
  destruct a, b; try (intros; split; reflexivity); intros H;
    rewrite ?flt_nan_r, ?flt_nan_l in H; discriminate.
Qed.

Lemma clamp_valid (p : float) : valid p = true -> valid (clamp p) = true.
Proof.
  intros V. unfold clamp, py_min, py_max.
  destruct (flt p (dec 0 1));
    match goal with |- context [flt ?a ?b] => destruct (flt a b) end;
    solve [assumption | vm_compute; reflexivity].
Qed.

Lemma clamp_below (x : float) :
  flt x (of_int 0) = true -> clamp x = clamp (of_int 0).
Proof.
  intros H. unfold clamp at 1, py_max.
  change (dec 0 1) with (of_int 0). rewrite H. reflexivity.
Qed.

Lemma clamp_above (x : float) :
  flt (dec 5004 1) x = true -> clamp x = clamp (dec 5004 1).
Proof.
  intros H. unfold clamp at 1, py_max, py_min.
  assert (H0 : flt x (dec 0 1) = false).
  { destruct x as [s|[|]| |[|] m e]; try reflexivity;
      vm_compute in H; discriminate. }
  rewrite H0, H. vm_compute. reflexivity.
Qed.

Lemma clamp_id (x : float) :
  valid x = true -> fle (dec 0 1) x = true -> fle x (dec 5004 1) = true ->
  clamp x = x.
Proof.
  intros V H0 H1.
  destruct (fle_true_not_nan _ _ H0) as [_ Nx].
  assert (V0 : valid (dec 0 1) = true) by (vm_compute; reflexivity).
  assert (V1 : valid (dec 5004 1) = true) by (vm_compute; reflexivity).
  assert (N0 : isnan (dec 0 1) = false) by (vm_compute; reflexivity).
  assert (N1 : isnan (dec 5004 1) = false) by (vm_compute; reflexivity).
  rewrite fle_key in H0, H1 by assumption. apply Z.leb_le in H0, H1.
  unfold clamp, py_min, py_max.
  rewrite (flt_key x (dec 0 1)) by assumption.
  destruct (Z.ltb_spec (fkey x) (fkey (dec 0 1))) as [|_]; [lia|].
  rewrite (flt_key (dec 5004 1) x) by assumption.
  destruct (Z.ltb_spec (fkey (dec 5004 1)) (fkey x)) as [|_]; [lia|].
  reflexivity.
Qed.

(* ===================================================================== *)
(** ** Evaluation checks of the model                                     *)
(* ===================================================================== *)

(** The literal 12.1 is the double [0x4028333333333333]. *)
Example literal_12_1 : dec 121 1 = S754_finite false 6811694436397875 (-49).
Proof. vm_compute. reflexivity. Qed.

(** The conversion maps the bounds of each band to the bounds of its
    index range. *)
Example epa_at_bounds :
  map (fun bp => (epa_aqi_pm25 (Some (c_lo bp)), epa_aqi_pm25 (Some (c_hi bp)))) bps =
  map (fun bp => (Ok (Some (i_lo bp)), Ok (Some (i_hi bp)))) bps.
Proof. vm_compute. reflexivity. Qed.

Example epa_absent :
  epa_aqi_pm25 None = Ok None /\ epa_aqi_pm25 (Some S754_nan) = Ok None.
Proof. split; reflexivity. Qed.

(** Ties round to even: [round(0.5) = 0], [round(1.5) = 2],
    [round(2.5) = 2]; [format(0.25, ".1f") = "0.2"]. *)
Example round_ties :
  py_round (dec 5 1) = Ok 0 /\ py_round (dec 15 1) = Ok 2 /\
  py_round (dec 25 1) = Ok 2 /\ format_f 1 (dec 25 2) = "0.2".
Proof. repeat split; vm_compute; reflexivity. Qed.

Example temp_22_celsius :
  assess_temp (Some (of_int 22)) "Celsius" = Ok ("22.0 °C", comfort_guidance).
Proof. vm_compute. reflexivity. Qed.

Example humidity_50_25 :
  assess_humidity (Some (of_int 50)) = ("50%", "Comfort range (40–60%).") /\
  assess_humidity (Some (of_int 25))
    = ("25%", "Low humidity: dryness and irritation possible.").
Proof. split; vm_compute; reflexivity. Qed.

Example pressure_1013 :
  assess_pressure (Some (of_int 1013)) = ("1013.0 hPa", "Near average (~1013 hPa).").
Proof. vm_compute. reflexivity. Qed.

(* ===================================================================== *)
(** ** Properties of the engine                                           *)
(* ===================================================================== *)

(** *** PM2.5 to AQI: the worked example *)

(** C1, as stated, fails: for the concentration 40.0 the conversion does
    not yield 111; it returns 112, the nearest integer to
    [(150 - 101) / (55.4 - 35.5) * (40.0 - 35.5) + 101 = 112.08...]. *)
Lemma C1_counterexample :
  epa_aqi_pm25 (Some (dec 400 1)) = Ok (Some 112) /\
  epa_aqi_pm25 (Some (dec 400 1)) <> Ok (Some 111).
Proof. split; [vm_compute; reflexivity|]. vm_compute. discriminate. Qed.

(** C1, amended: for the concentration 40.0 the conversion selects the
    band [35.5, 55.4] -> [101, 150], interpolates
    [(i_hi - i_lo) / (c_hi - c_lo) * (x - c_lo) + i_lo] there, rounds the
    outcome to the nearest integer, which is 112 (the exact value of the
    formula, [2205/199 + 101], is within one half of 112), and the
    assessment of that index is Unhealthy for Sensitive Groups. *)
Theorem C1_example_40 :
  let bp := (dec 355 1, dec 554 1, 101, 150) in
  nth_error bps 2 = Some bp /\
  in_band bp (dec 400 1) = true /\
  2 * Z.abs ((150 - 101) * (400 - 355) + 101 * (554 - 355) - 112 * (554 - 355))
    < 554 - 355 /\
  (exists aqi, interpolate bp (dec 400 1) = Ok aqi /\ py_round aqi = Ok 112) /\
  epa_aqi_pm25 (Some (dec 400 1)) = Ok (Some 112) /\
  assess_aqi (Some 112) = aqi_usg.
Proof.
  cbv zeta. repeat split; try (vm_compute; reflexivity).
  eexists. split; vm_compute; reflexivity.
Qed.

(** *** The AQI categorizer *)

(** C4: [assess_aqi] maps the integer bands as specified: 0 and 50 are
    Good, 51 is Moderate, 301 is Hazardous; each of the six bands
    [0,50], [51,100], [101,150], [151,200], [201,300] and above 300 gets
    its own assessment, so no value above 300 (or above 500) is rejected;
    an absent input yields the Unknown sentinel with the guidance
    "No AQI available.". *)
Theorem C4_assess_aqi_bands :
  assess_aqi (Some 0) = aqi_good /\
  assess_aqi (Some 50) = aqi_good /\
  assess_aqi (Some 51) = aqi_moderate /\
  assess_aqi (Some 301) = aqi_hazardous /\
  (forall a : Z,
     (0 <= a <= 50 -> assess_aqi (Some a) = aqi_good) /\
     (51 <= a <= 100 -> assess_aqi (Some a) = aqi_moderate) /\
     (101 <= a <= 150 -> assess_aqi (Some a) = aqi_usg) /\
     (151 <= a <= 200 -> assess_aqi (Some a) = aqi_unhealthy) /\
     (201 <= a <= 300 -> assess_aqi (Some a) = aqi_very_unhealthy) /\
     (300 < a -> assess_aqi (Some a) = aqi_hazardous)) /\
  assess_aqi None = aqi_unknown /\
  fst (fst (fst aqi_unknown)) = "Unknown" /\
  snd (fst aqi_unknown) = "No AQI available.".
Proof.
  repeat split; try reflexivity; intros H; unfold assess_aqi;
    repeat match goal with
      | |- context [Z.leb ?x ?y] => destruct (Z.leb_spec x y); try lia
      end; reflexivity.
Qed.

Lemma C4_witness :
  300 < 501 /\ assess_aqi (Some 501) = aqi_hazardous.
Proof.
  split; [reflexivity|].
  apply (proj2 (proj2 (proj2 (proj2 (proj2
          (proj1 (proj2 (proj2 (proj2 (proj2 C4_assess_aqi_bands)))) 501)))))).
  reflexivity.
Defined.

(** *** Clamping *)

(** C6: the input is clamped to [0.0, 500.4] before the lookup, and an
    out-of-range input is converted, not rejected: every input below 0
    ([-inf] included) is replaced by 0.0 and gets the AQI 0, as 0 does;
    every input above 500.4 ([+inf] included) is replaced by 500.4 and
    gets the AQI 500, as 500.4 does; an input within [0.0, 500.4] is
    looked up unchanged.  In particular [toAqi(-5) = toAqi(0)] and
    [toAqi(600) = toAqi(500.4)]. *)
Theorem C6_clamping (x : float) :
  (flt x (of_int 0) = true ->
   clamp x = dec 0 1 /\
   epa_aqi_pm25 (Some x) = epa_aqi_pm25 (Some (of_int 0)) /\
   epa_aqi_pm25 (Some x) = Ok (Some 0)) /\
  (flt (dec 5004 1) x = true ->
   clamp x = dec 5004 1 /\
   epa_aqi_pm25 (Some x) = epa_aqi_pm25 (Some (dec 5004 1)) /\
   epa_aqi_pm25 (Some x) = Ok (Some 500)) /\
  (valid x = true -> fle (of_int 0) x = true -> fle x (dec 5004 1) = true ->
   clamp x = x /\ epa_aqi_pm25 (Some x) = epa_lookup bps x).
Proof.
  split; [|split].
  - intros H. destruct (flt_true_not_nan _ _ H) as [N1 N2].
    assert (C : clamp x = dec 0 1).
    { rewrite (clamp_below x H). vm_compute. reflexivity. }
    split; [exact C|].
    assert (E : epa_aqi_pm25 (Some x) = Ok (Some 0)).
    { unfold epa_aqi_pm25. rewrite N1, C. vm_compute. reflexivity. }
    split; [|exact E]. rewrite E. vm_compute. reflexivity.
  - intros H. destruct (flt_true_not_nan _ _ H) as [N1 N2].
    assert (C : clamp x = dec 5004 1).
    { rewrite (clamp_above x H). vm_compute. reflexivity. }
    split; [exact C|].
    assert (E : epa_aqi_pm25 (Some x) = Ok (Some 500)).
    { unfold epa_aqi_pm25. rewrite N2, C. vm_compute. reflexivity. }
    split; [|exact E]. rewrite E. vm_compute. reflexivity.
  - intros V H0 H1. destruct (fle_true_not_nan _ _ H0) as [_ N].
    assert (C : clamp x = x) by (apply clamp_id; assumption).
    split; [exact C|]. unfold epa_aqi_pm25. now rewrite N, C.
Qed.

Lemma C6_witness :
  (clamp (of_int (-5)) = dec 0 1 /\
   epa_aqi_pm25 (Some (of_int (-5))) = epa_aqi_pm25 (Some (of_int 0)) /\
   epa_aqi_pm25 (Some (of_int (-5))) = Ok (Some 0)) /\
  (clamp (of_int 600) = dec 5004 1 /\
   epa_aqi_pm25 (Some (of_int 600)) = epa_aqi_pm25 (Some (dec 5004 1)) /\
   epa_aqi_pm25 (Some (of_int 600)) = Ok (Some 500)) /\
  (clamp (dec 5003 1) = dec 5003 1 /\
   epa_aqi_pm25 (Some (dec 5003 1)) = epa_lookup bps (dec 5003 1)).
Proof.
  split; [|split].
  - apply (proj1 (C6_clamping (of_int (-5)))). vm_compute. reflexivity.
  - apply (proj1 (proj2 (C6_clamping (of_int 600)))). vm_compute. reflexivity.
  - apply (proj2 (proj2 (C6_clamping (dec 5003 1)))); vm_compute; reflexivity.
Defined.

(** *** Values between two bands *)

Ltac eval_keys :=
  repeat match goal with
    | |- context [fkey (dec ?n ?d)] =>
        let v := eval vm_compute in (fkey (dec n d)) in
        replace (fkey (dec n d)) with v by (vm_compute; reflexivity)
    | H : context [fkey (dec ?n ?d)] |- _ =>
        let v := eval vm_compute in (fkey (dec n d)) in
        replace (fkey (dec n d)) with v in H by (vm_compute; reflexivity)
    end.

Lemma in_band_key (bp : float * float * Z * Z) (x : float) :
  good_band bp = true -> valid x = true -> isnan x = false ->
  in_band bp x = (fkey (c_lo bp) <=? fkey x) && (fkey x <=? fkey (c_hi bp)).
Proof.
  intros Hg Vx Nx. destruct (good_band_facts bp Hg) as (Nlo & Nhi & _).
  destruct (nnf_valid _ Nlo) as [Vlo Nanlo].
  destruct (nnf_valid _ Nhi) as [Vhi Nanhi].
  rewrite in_band_eq, !fle_key by assumption. reflexivity.
Qed.

Lemma bps_in_band_key (bp : float * float * Z * Z) (x : float) :
  In bp bps -> valid x = true -> isnan x = false ->
  in_band bp x = (fkey (c_lo bp) <=? fkey x) && (fkey x <=? fkey (c_hi bp)).
Proof.
  intros I. apply in_band_key.
  pose proof bps_good as G. unfold good_table in G.
  rewrite Forall_forall in G. now apply G.
Qed.

(** A float whose key lies strictly between the keys of two consecutive
    bounds of the table, or below or above all of them, is in no band. *)
Lemma bps_key_outside (x : float) :
  valid x = true -> isnan x = false ->
  fkey x < fkey (dec 0 1) \/
  fkey (dec 120 1) < fkey x < fkey (dec 121 1) \/
  fkey (dec 354 1) < fkey x < fkey (dec 355 1) \/
  fkey (dec 554 1) < fkey x < fkey (dec 555 1) \/
  fkey (dec 1504 1) < fkey x < fkey (dec 1505 1) \/
  fkey (dec 2504 1) < fkey x < fkey (dec 2505 1) \/
  fkey (dec 3504 1) < fkey x < fkey (dec 3505 1) \/
  fkey (dec 5004 1) < fkey x ->
  forall bp, In bp bps -> in_band bp x = false.
Proof.
  intros Vx Nx H bp I. rewrite (bps_in_band_key bp x I Vx Nx).
  set (kx := fkey x) in *. clearbody kx.
  unfold bps in I. cbn [In] in I.
  eval_keys.
  repeat (destruct I as [<-|I]; [cbn [c_lo c_hi fst snd]; eval_keys;
    apply andb_false_iff; rewrite !Z.leb_gt; lia|]).
  destruct I.
Qed.

Lemma gap_keys (g : float * float) (x : float) :
  valid x = true -> In g gaps -> in_gap g x = true ->
  isnan x = false /\
  (fkey (dec 120 1) < fkey x < fkey (dec 121 1) \/
   fkey (dec 354 1) < fkey x < fkey (dec 355 1) \/
   fkey (dec 554 1) < fkey x < fkey (dec 555 1) \/
   fkey (dec 1504 1) < fkey x < fkey (dec 1505 1) \/
   fkey (dec 2504 1) < fkey x < fkey (dec 2505 1) \/
   fkey (dec 3504 1) < fkey x < fkey (dec 3505 1)).
Proof.
  intros Vx I H. unfold in_gap in H. apply andb_true_iff in H.
  destruct H as [H1 H2]. destruct (flt_true_not_nan _ _ H1) as [_ Nx].
  split; [assumption|].
  unfold gaps, gaps_of, bps in I.
  cbn [map combine tl c_hi c_lo fst snd In] in I.
  repeat (destruct I as [<-|I];
    [cbn [fst snd] in H1, H2;
     rewrite flt_key in H1, H2 by (assumption || (vm_compute; reflexivity));
     apply Z.ltb_lt in H1, H2; tauto|]).
  destruct I.
Qed.

Lemma epa_outside (x : float) :
  valid x = true -> fle (dec 0 1) x = true -> fle x (dec 5004 1) = true ->
  (forall bp, In bp bps -> in_band bp x = false) ->
  epa_aqi_pm25 (Some x) = Ok None.
Proof.
  intros Vx H0 H1 Hout. destruct (fle_true_not_nan _ _ H0) as [_ Nx].
  unfold epa_aqi_pm25. rewrite Nx, (clamp_id x Vx H0 H1).
  now apply epa_lookup_none.
Qed.

(** C2, as stated, fails: 12.05 lies strictly between the bands
    [0.0, 12.0] and [12.1, 35.4], and the conversion returns an absent
    result for it, not an index taken from the lower band. *)
Lemma C2_counterexample :
  In (dec 120 1, dec 121 1) gaps /\
  in_gap (dec 120 1, dec 121 1) (dec 1205 2) = true /\
  epa_aqi_pm25 (Some (dec 1205 2)) = Ok None.
Proof.
  split; [left; reflexivity|]. split; vm_compute; reflexivity.
Qed.

(** C2, amended: for every concentration lying strictly inside a gap
    between two adjacent breakpoint bands, the conversion returns the
    absent result: no band matches, and the loop falls through. *)
Theorem C2_gap_absent (x : float) (g : float * float) :
  valid x = true -> In g gaps -> in_gap g x = true ->
  epa_aqi_pm25 (Some x) = Ok None.
Proof.
  intros Vx I H. destruct (gap_keys g x Vx I H) as [Nx K].
  assert (V0 : valid (dec 0 1) = true) by (vm_compute; reflexivity).
  assert (V1 : valid (dec 5004 1) = true) by (vm_compute; reflexivity).
  apply epa_outside; try assumption.
  - rewrite fle_key by (assumption || reflexivity). apply Z.leb_le.
    eval_keys. lia.
  - rewrite fle_key by (assumption || reflexivity). apply Z.leb_le.
    eval_keys. lia.
  - apply bps_key_outside; try assumption. tauto.
Qed.

Lemma C2_witness : epa_aqi_pm25 (Some (dec 3545 2)) = Ok None.
Proof.
  apply (C2_gap_absent (dec 3545 2) (dec 354 1, dec 355 1)).
  - vm_compute. reflexivity.
  - right. left. reflexivity.
  - vm_compute. reflexivity.
Defined.

(** *** Monotonicity *)

(** C3, as stated, fails: 12.05 and 13.0 are ordered concentrations of
    [0, 500.4], but the conversion of 12.05 is absent, so the two
    results are not ordered integers. *)
Lemma C3_counterexample :
  valid (dec 1205 2) = true /\ valid (dec 130 1) = true /\
  fle (dec 0 1) (dec 1205 2) = true /\
  fle (dec 1205 2) (dec 130 1) = true /\
  fle (dec 130 1) (dec 5004 1) = true /\
  epa_aqi_pm25 (Some (dec 1205 2)) = Ok None /\
  ~ aqi_le (epa_aqi_pm25 (Some (dec 1205 2))) (epa_aqi_pm25 (Some (dec 130 1))).
Proof.
  repeat split; try (vm_compute; reflexivity).
  intros (a & b & Ha & _). vm_compute in Ha. discriminate.
Qed.

(** C3, amended: for every pair of concentrations [0 <= x <= y <= 500.4]
    whose conversions are both defined (neither lies in a gap between two
    bands), the conversion is monotonically non-decreasing:
    [toAqi(x) <= toAqi(y)]. *)
Theorem C3_monotone (x y : float) (a b : Z) :
  valid x = true -> valid y = true ->
  fle (dec 0 1) x = true -> fle x y = true -> fle y (dec 5004 1) = true ->
  epa_aqi_pm25 (Some x) = Ok (Some a) ->
  epa_aqi_pm25 (Some y) = Ok (Some b) ->
  aqi_le (epa_aqi_pm25 (Some x)) (epa_aqi_pm25 (Some y)).
Proof.
  intros Vx Vy H0 Hxy H1 Ha Hb. exists a, b. repeat split; try assumption.
  assert (V0 : valid (dec 0 1) = true) by (vm_compute; reflexivity).
  assert (V1 : valid (dec 5004 1) = true) by (vm_compute; reflexivity).
  destruct (fle_true_not_nan _ _ Hxy) as [Nx Ny].
  pose proof (fle_fkey _ _ V0 Vx H0) as K0.
  pose proof (fle_fkey _ _ Vx Vy Hxy) as Kxy.
  pose proof (fle_fkey _ _ Vy V1 H1) as K1.
  assert (H0y : fle (dec 0 1) y = true).
  { rewrite fle_key by (assumption || reflexivity). apply Z.leb_le. lia. }
  assert (Hx1 : fle x (dec 5004 1) = true).
  { rewrite fle_key by (assumption || reflexivity). apply Z.leb_le. lia. }
  unfold epa_aqi_pm25 in Ha, Hb. rewrite Nx in Ha. rewrite Ny in Hb.
  rewrite (clamp_id x Vx H0 Hx1) in Ha. rewrite (clamp_id y Vy H0y H1) in Hb.
  exact (epa_lookup_mono bps x y a b bps_good bps_sorted Vx Vy Hxy Ha Hb).
Qed.

Lemma C3_witness :
  aqi_le (epa_aqi_pm25 (Some (dec 120 1))) (epa_aqi_pm25 (Some (dec 400 1))).
Proof.
  apply (C3_monotone (dec 120 1) (dec 400 1) 50 112); vm_compute; reflexivity.
Defined.

(** *** Totality *)

Lemma append_nonempty (s t : string) : t <> "" -> (s ++ t)%string <> "".
Proof. destruct s; simpl; [auto|discriminate]. Qed.

Lemma to_fahrenheit_returns (value : float) : returns (to_fahrenheit value).
Proof.
  unfold to_fahrenheit.
  destruct (fle (of_int 40) value && fle value (of_int 120)); [now eexists|].
  unfold py_truediv. change (is_zero (of_int 5)) with false.
  cbn [bind]. now eexists.
Qed.

Lemma to_celsius_returns (value : float) : returns (to_celsius value).
Proof.
  unfold to_celsius.
  destruct (fle (of_int (-20)) value && fle value (of_int 50)); [now eexists|].
  unfold py_truediv. change (is_zero (of_int 9)) with false. now eexists.
Qed.

Lemma epa_aqi_pm25_returns (pm25 : option float) :
  wf pm25 -> returns (epa_aqi_pm25 pm25).
Proof.
  destruct pm25 as [p|]; cbn [wf epa_aqi_pm25]; intros V; [|now exists None].
  destruct (isnan p); [now exists None|].
  apply epa_lookup_returns; [exact bps_good|now apply clamp_valid].
Qed.

Lemma assess_temp_returns (value : option float) (to_unit : string) :
  exists d g, assess_temp value to_unit = Ok (d, g) /\ d <> "" /\ g <> "".
Proof.
  assert (HF : forall s : string, (s ++ " °F")%string <> "")
    by (intros s; apply append_nonempty; discriminate).
  assert (HC : forall s : string, (s ++ " °C")%string <> "")
    by (intros s; apply append_nonempty; discriminate).
  unfold assess_temp. destruct value as [value|].
  2: { eexists _, _. split; [reflexivity|]. split; discriminate. }
  destruct (isnan value).
  { eexists _, _. split; [reflexivity|]. split; discriminate. }
  destruct (String.eqb to_unit "Fahrenheit").
  - destruct (to_fahrenheit_returns value) as [v ->]. cbn [bind].
    repeat match goal with
      | |- context [if ?c then _ else _] => destruct c
      end;
      (eexists _, _; split; [reflexivity|]; split; [apply HF|discriminate]).
  - destruct (to_celsius_returns value) as [v ->]. cbn [bind].
    repeat match goal with
      | |- context [if ?c then _ else _] => destruct c
      end;
      (eexists _, _; split; [reflexivity|]; split; [apply HC|discriminate]).
Qed.

(** C5: every classifier is total on its domain (an absent value or any
    binary64 value: NaN, negative, infinite or arbitrarily large): the
    conversion and the temperature classifier, which divide and round,
    raise no exception, and every classifier returns a result whose
    display strings are defined (non-empty). *)
Theorem C5_classifiers_total :
  (forall pm25, wf pm25 -> returns (epa_aqi_pm25 pm25)) /\
  (forall value to_unit,
     exists d g, assess_temp value to_unit = Ok (d, g) /\ d <> "" /\ g <> "") /\
  (forall aqi,
     fst (fst (fst (assess_aqi aqi))) <> "" /\ snd (fst (assess_aqi aqi)) <> "") /\
  (forall pm,
     fst (fst (assess_pm25 pm)) <> "" /\ snd (fst (assess_pm25 pm)) <> "") /\
  (forall h, fst (assess_humidity h) <> "" /\ snd (assess_humidity h) <> "") /\
  (forall p, fst (assess_pressure p) <> "" /\ snd (assess_pressure p) <> "").
Proof.
  assert (HP : forall s t : string, t <> "" -> (s ++ t)%string <> "")
    by apply append_nonempty.
  split; [exact epa_aqi_pm25_returns|].
  split; [exact assess_temp_returns|].
  repeat split.
  - unfold assess_aqi. destruct aqi as [a|]; [|discriminate].
    repeat match goal with
      | |- context [if ?c then _ else _] => destruct c
      end; discriminate.
  - unfold assess_aqi. destruct aqi as [a|]; [|discriminate].
    repeat match goal with
      | |- context [if ?c then _ else _] => destruct c
      end; discriminate.
  - unfold assess_pm25, pm25_hazardous. destruct pm as [x|]; [|discriminate].
    repeat match goal with
      | |- context [if ?c then _ else _] => destruct c
      end; discriminate.
  - unfold assess_pm25, pm25_hazardous. destruct pm as [x|]; [|discriminate].
    repeat match goal with
      | |- context [if ?c then _ else _] => destruct c
      end; discriminate.
  - unfold assess_humidity. destruct h as [h|]; [|discriminate].
    repeat match goal with
      | |- context [if ?c then _ else _] => destruct c
      end; cbn [fst]; try discriminate; apply HP; discriminate.
  - unfold assess_humidity. destruct h as [h|]; [|discriminate].
    repeat match goal with
      | |- context [if ?c then _ else _] => destruct c
      end; discriminate.
  - unfold assess_pressure. destruct p as [p|]; [|discriminate].
    repeat match goal with
      | |- context [if ?c then _ else _] => destruct c
      end; cbn [fst]; try discriminate; apply HP; discriminate.
  - unfold assess_pressure. destruct p as [p|]; [|discriminate].
    repeat match goal with
      | |- context [if ?c then _ else _] => destruct c
      end; discriminate.
Qed.

Lemma C5_witness :
  returns (epa_aqi_pm25 (Some (S754_infinity false))) /\
  returns (epa_aqi_pm25 (Some (of_int (-7)))) /\
  returns (epa_aqi_pm25 (Some S754_nan)) /\
  returns (epa_aqi_pm25 None).
Proof.
  repeat split; apply (proj1 C5_classifiers_total); exact eq_refl || exact I.
Defined.

(** *** The direct PM2.5 categorizer *)

Ltac eval_int_keys :=
  repeat match goal with
    | |- context [fkey (of_int ?n)] =>
        let v := eval vm_compute in (fkey (of_int n)) in
        replace (fkey (of_int n)) with v by (vm_compute; reflexivity)
    end.

(** Decides, in order, the tests of a cascade of conditionals on integer
    comparisons from the bounds in the context. *)
Ltac decide_test t :=
  first
    [ replace t with true
        by (symmetry; rewrite ?andb_true_iff, ?Z.leb_le, ?Z.ltb_lt; lia)
    | replace t with false
        by (symmetry; rewrite ?andb_false_iff, ?Z.leb_gt, ?Z.ltb_ge; lia) ].

Ltac decide_tests :=
  repeat match goal with
    | |- context [if ?t then _ else _] => decide_test t
    end.

(** The tests of [assess_pm25], on keys. *)
Lemma assess_pm25_keys (x : float) :
  valid x = true -> isnan x = false ->
  assess_pm25 (Some x) =
    let k := fkey x in
    if (fkey (dec 0 1) <=? k) && (k <=? fkey (dec 120 1)) then
      ("Good", "Within EPA 24h guideline (0–12 µg/m³).", "good")
    else if (fkey (dec 121 1) <=? k) && (k <=? fkey (dec 354 1)) then
      ("Moderate", "Consider caution for unusually sensitive people.", "moderate")
    else if (fkey (dec 355 1) <=? k) && (k <=? fkey (dec 554 1)) then
      ("USG", "Sensitive groups should reduce prolonged outdoor exertion.", "usg")
    else if (fkey (dec 555 1) <=? k) && (k <=? fkey (dec 1504 1)) then
      ("Unhealthy", "Everyone may experience health effects—limit outdoor exertion.", "unhealthy")
    else if (fkey (dec 1505 1) <=? k) && (k <=? fkey (dec 2504 1)) then
      ("Very Unhealthy", "Avoid outdoor activities; use masks/air purifiers if possible.", "veryunhealthy")
    else pm25_hazardous.
Proof.
  intros Vx Nx. unfold assess_pm25. rewrite Nx.
  change (of_int 0) with (dec 0 1).
  rewrite !fle_key by (assumption || (vm_compute; reflexivity)).
  reflexivity.
Qed.

(** C7: [assess_pm25] classifies the raw concentration against the
    concentration ranges of the breakpoint table: 12.0 is labelled Good
    and 12.1 Moderate, every concentration inside one of the first five
    bands gets the label of that band, and an absent or NaN input gives
    the sentinel ("—", "No PM2.5 data.", no class). *)
Theorem C7_assess_pm25 :
  fst (fst (assess_pm25 (Some (dec 120 1)))) = "Good" /\
  fst (fst (assess_pm25 (Some (dec 121 1)))) = "Moderate" /\
  assess_pm25 None = ("—", "No PM2.5 data.", "") /\
  (forall x, isnan x = true ->
     assess_pm25 (Some x) = ("—", "No PM2.5 data.", "")) /\
  (forall x bp lbl,
     valid x = true -> In (bp, lbl) pm25_bands -> in_band bp x = true ->
     fst (fst (assess_pm25 (Some x))) = lbl).
Proof.
  split; [vm_compute; reflexivity|]. split; [vm_compute; reflexivity|].
  split; [reflexivity|]. split.
  - intros x Nx. unfold assess_pm25. now rewrite Nx.
  - intros x bp lbl Vx I Hin.
    assert (Nx : isnan x = false).
    { rewrite in_band_eq in Hin. apply andb_true_iff in Hin.
      destruct Hin as [H _]. now destruct (fle_true_not_nan _ _ H). }
    rewrite (assess_pm25_keys x Vx Nx). cbv zeta.
    unfold pm25_bands, bps in I. cbn [firstn combine In] in I.
    repeat (destruct I as [I|I];
      [injection I as <- <-;
       rewrite bps_in_band_key in Hin
         by (assumption || (unfold bps; cbn [In]; tauto));
       apply andb_true_iff in Hin; destruct Hin as [H1 H2];
       apply Z.leb_le in H1, H2;
       set (kx := fkey x) in *; clearbody kx;
       cbn [c_lo c_hi fst snd] in H1, H2; eval_keys;
       decide_tests; reflexivity|]).
    destruct I.
Qed.

Lemma C7_witness :
  fst (fst (assess_pm25 (Some (dec 400 1)))) = "USG".
Proof.
  apply (proj2 (proj2 (proj2 (proj2 C7_assess_pm25)))
           (dec 400 1) (dec 355 1, dec 554 1, 101, 150)).
  - vm_compute. reflexivity.
  - right. right. left. reflexivity.
  - vm_compute. reflexivity.
Defined.

(** *** The fall-through of the categorizers *)

(** C9: every numeric input that matches none of the listed bands falls
    through to the Hazardous result: [assess_aqi] returns it for every
    integer outside [0, 300], negative ones included, and [assess_pm25]
    returns it for every concentration that is negative, lies strictly
    inside a gap between two adjacent bands, or exceeds 250.4. *)
Theorem C9_fallthrough_hazardous :
  (forall a : Z, a < 0 \/ 300 < a -> assess_aqi (Some a) = aqi_hazardous) /\
  (forall x : float,
     valid x = true ->
     flt x (of_int 0) = true \/
     (exists g, In g gaps /\ in_gap g x = true) \/
     flt (dec 2504 1) x = true ->
     assess_pm25 (Some x) = pm25_hazardous).
Proof.
  split.
  - intros a H. unfold assess_aqi. decide_tests. reflexivity.
  - intros x Vx H.
    assert (K : isnan x = false /\
                (fkey x < fkey (dec 0 1) \/
                 fkey (dec 120 1) < fkey x < fkey (dec 121 1) \/
                 fkey (dec 354 1) < fkey x < fkey (dec 355 1) \/
                 fkey (dec 554 1) < fkey x < fkey (dec 555 1) \/
                 fkey (dec 1504 1) < fkey x < fkey (dec 1505 1) \/
                 fkey (dec 2504 1) < fkey x)).
    { destruct H as [H|[(g & I & H)|H]].
      - destruct (flt_true_not_nan _ _ H) as [Nx _]. split; [assumption|].
        change (of_int 0) with (dec 0 1) in H.
        rewrite flt_key in H by (assumption || (vm_compute; reflexivity)).
        apply Z.ltb_lt in H. tauto.
      - destruct (gap_keys g x Vx I H) as [Nx K]. split; [assumption|].
        revert K. eval_keys. lia.
      - destruct (flt_true_not_nan _ _ H) as [_ Nx]. split; [assumption|].
        rewrite flt_key in H by (assumption || (vm_compute; reflexivity)).
        apply Z.ltb_lt in H. tauto. }
    destruct K as [Nx K].
    rewrite (assess_pm25_keys x Vx Nx). cbv zeta.
    set (kx := fkey x) in *. clearbody kx. revert K. eval_keys. intros K.
    decide_tests. reflexivity.
Qed.

Lemma C9_witness :
  assess_aqi (Some (-1)) = aqi_hazardous /\
  assess_pm25 (Some (of_int (-3))) = pm25_hazardous /\
  assess_pm25 (Some (dec 1205 2)) = pm25_hazardous.
Proof.
  split; [|split].
  - apply (proj1 C9_fallthrough_hazardous). left. reflexivity.
  - apply (proj2 C9_fallthrough_hazardous); [vm_compute; reflexivity|].
    left. vm_compute. reflexivity.
  - apply (proj2 C9_fallthrough_hazardous); [vm_compute; reflexivity|].
    right. left. exists (dec 120 1, dec 121 1).
    split; [left; reflexivity|vm_compute; reflexivity].
Defined.

(** *** Humidity *)

(** C10: the five humidity bands [40,60], [30,40), (60,70], below 30 and
    above 70 cover every humidity value that is not NaN, so the guidance
    returned is always one of the five band sentences and the final
    fallback returning "—" is never reached. *)
Theorem C10_humidity_exhaustive (h : float) :
  valid h = true -> isnan h = false ->
  In (snd (assess_humidity (Some h))) humidity_guidance /\
  snd (assess_humidity (Some h)) <> dash.
Proof.
  intros Vh Nh. unfold assess_humidity. rewrite Nh.
  rewrite !fle_key, !flt_key by (assumption || (vm_compute; reflexivity)).
  set (k := fkey h). clearbody k. eval_int_keys.
  repeat match goal with
    | |- context [Z.leb ?a ?b] => destruct (Z.leb_spec a b); try lia
    | |- context [Z.ltb ?a ?b] => destruct (Z.ltb_spec a b); try lia
    end; cbv beta iota delta [andb snd humidity_guidance In dash];
    (split; [tauto|discriminate]).
Qed.

Lemma C10_witness :
  In (snd (assess_humidity (Some (dec 655 1)))) humidity_guidance /\
  snd (assess_humidity (Some (dec 655 1))) <> dash.
Proof.
  apply (C10_humidity_exhaustive (dec 655 1)); vm_compute; reflexivity.
Defined.

(** *** Temperature *)

(** C8: [assess_temp] detects the unit of its input: with the Fahrenheit
    target a value in [40, 120] is used as it is and any other value is
    converted by [value * 9/5 + 32]; with the Celsius target a value in
    [-20, 50] is used as it is and any other value is converted by
    [(value - 32) * 5/9].  The display is the detected value with one
    decimal and the unit, and a detected value in the comfort band
    ([68, 77] resp. [20, 25]) gets the comfort guidance; in particular
    72 with the Fahrenheit target gives ("72.0 °F", comfort guidance). *)
Theorem C8_assess_temp :
  (forall value : float,
     isnan value = false ->
     let v := if fle (of_int 40) value && fle value (of_int 120) then value
              else fadd (fdiv (fmul value (of_int 9)) (of_int 5)) (of_int 32) in
     (exists g, assess_temp (Some value) "Fahrenheit" = Ok (format_f 1 v ++ " °F", g)) /\
     (fle (of_int 68) v && fle v (of_int 77) = true ->
      assess_temp (Some value) "Fahrenheit"
        = Ok (format_f 1 v ++ " °F", comfort_guidance))) /\
  (forall value : float,
     isnan value = false ->
     let v := if fle (of_int (-20)) value && fle value (of_int 50) then value
              else fdiv (fmul (fsub value (of_int 32)) (of_int 5)) (of_int 9) in
     (exists g, assess_temp (Some value) "Celsius" = Ok (format_f 1 v ++ " °C", g)) /\
     (fle (of_int 20) v && fle v (of_int 25) = true ->
      assess_temp (Some value) "Celsius"
        = Ok (format_f 1 v ++ " °C", comfort_guidance))) /\
  assess_temp (Some (of_int 72)) "Fahrenheit" = Ok ("72.0 °F", comfort_guidance).
Proof.
  split; [|split; [|vm_compute; reflexivity]].
  - intros value Nv v. unfold assess_temp. rewrite Nv.
    change (String.eqb "Fahrenheit" "Fahrenheit") with true. cbv iota.
    assert (E : to_fahrenheit value = Ok v).
    { unfold to_fahrenheit, v.
      destruct (fle (of_int 40) value && fle value (of_int 120)); [reflexivity|].
      unfold py_truediv. change (is_zero (of_int 5)) with false. reflexivity. }
    rewrite E. cbn [bind]. split.
    + repeat match goal with
        | |- context [if ?c then _ else _] => destruct c
        end; eexists; reflexivity.
    + intros H. now rewrite H.
  - intros value Nv v. unfold assess_temp. rewrite Nv.
    change (String.eqb "Celsius" "Fahrenheit") with false. cbv iota.
    assert (E : to_celsius value = Ok v).
    { unfold to_celsius, v.
      destruct (fle (of_int (-20)) value && fle value (of_int 50)); [reflexivity|].
      unfold py_truediv. change (is_zero (of_int 9)) with false. reflexivity. }
    rewrite E. cbn [bind]. split.
    + repeat match goal with
        | |- context [if ?c then _ else _] => destruct c
        end; eexists; reflexivity.
    + intros H. now rewrite H.
Qed.

Lemma C8_witness :
  assess_temp (Some (of_int 22)) "Fahrenheit" = Ok ("71.6 °F", comfort_guidance) /\
  assess_temp (Some (of_int 72)) "Celsius" = Ok ("22.2 °C", comfort_guidance).
Proof.
  split.
  - apply (proj2 (proj1 C8_assess_temp (of_int 22) eq_refl)).
    vm_compute. reflexivity.
  - apply (proj2 (proj1 (proj2 C8_assess_temp) (of_int 72) eq_refl)).
    vm_compute. reflexivity.
Defined.

(* ===================================================================== *)
(** ** Further properties of the conversion                               *)
(* ===================================================================== *)

Lemma bps_index_range (bp : float * float * Z * Z) :
  In bp bps -> 0 <= i_lo bp /\ i_hi bp <= 500.
Proof.
  unfold bps. cbn [In]. intros I.
  repeat (destruct I as [<-|I]; [cbn [i_lo i_hi fst snd]; lia|]).
  destruct I.
Qed.

(** The clamp, on keys. *)
Lemma clamp_key (x : float) :
  valid x = true -> isnan x = false ->
  valid (clamp x) = true /\ isnan (clamp x) = false /\
  fkey (clamp x) = Z.min (Z.max (fkey x) 0) (fkey (dec 5004 1)).
Proof.
  intros Vx Nx.
  assert (V0 : valid (dec 0 1) = true) by (vm_compute; reflexivity).
  assert (V1 : valid (dec 5004 1) = true) by (vm_compute; reflexivity).
  assert (N0 : isnan (dec 0 1) = false) by (vm_compute; reflexivity).
  assert (N1 : isnan (dec 5004 1) = false) by (vm_compute; reflexivity).
  assert (K0 : fkey (dec 0 1) = 0) by (vm_compute; reflexivity).
  assert (K1 : 0 < fkey (dec 5004 1)) by (vm_compute; reflexivity).
  unfold clamp, py_min, py_max.
  rewrite (flt_key x (dec 0 1)) by assumption. rewrite K0.
  destruct (Z.ltb_spec (fkey x) 0) as [Hlt|Hge].
  - rewrite (flt_key (dec 5004 1) (dec 0 1)) by assumption. rewrite K0.
    destruct (Z.ltb_spec (fkey (dec 5004 1)) 0); [lia|].
    repeat split; try assumption. rewrite K0. lia.
  - rewrite (flt_key (dec 5004 1) x) by assumption.
    destruct (Z.ltb_spec (fkey (dec 5004 1)) (fkey x));
      repeat split; try assumption; lia.
Qed.

(** X1: whenever the conversion returns an index, for any absent or
    binary64 input, out-of-range and infinite ones included, the index
    lies in [0, 500]. *)
Theorem X1_epa_aqi_range (pm25 : option float) (a : Z) :
  wf pm25 -> epa_aqi_pm25 pm25 = Ok (Some a) -> 0 <= a <= 500.
Proof.
  destruct pm25 as [p|]; cbn [wf epa_aqi_pm25]; [|discriminate].
  intros V. destruct (isnan p); [discriminate|]. intros H.
  destruct (epa_lookup_some bps (clamp p) a bps_good (clamp_valid p V) H)
    as (bp & I & _ & B).
  pose proof (bps_index_range bp I). lia.
Qed.

Lemma X1_witness : 0 <= 500 <= 500.
Proof.
  apply (X1_epa_aqi_range (Some (S754_infinity false)) 500).
  - reflexivity.
  - vm_compute. reflexivity.
Defined.

(** In a table of well-formed bands in increasing order, a value inside a
    band is converted by that band. *)
Lemma epa_lookup_in_band (l : list (float * float * Z * Z))
  (bp : float * float * Z * Z) (x : float) :
  good_table l -> StronglySorted band_lt l -> valid x = true ->
  In bp l -> in_band bp x = true ->
  exists a, epa_lookup l x = Ok (Some a) /\ i_lo bp <= a <= i_hi bp.
Proof.
  intros G S Vx. induction G as [|b l Hg G IH]; cbn [epa_lookup In]; [tauto|].
  apply StronglySorted_inv in S. destruct S as [S Hlt].
  rewrite Forall_forall in Hlt. intros [->|I] Hin.
  - rewrite Hin. exact (band_step bp x Hg Vx Hin).
  - destruct (in_band b x) eqn:Hb; [exfalso|now apply IH].
    pose proof G as G'. unfold good_table in G'. rewrite Forall_forall in G'.
    destruct (in_band_range b x Hg Vx Hb) as [_ [_ K1]].
    destruct (in_band_range bp x (G' bp I) Vx Hin) as [_ [K2 _]].
    destruct (Hlt bp I) as [K _]. lia.
Qed.

(** X2: a concentration inside one of the seven bands of the table is
    always converted, and to an index inside the index range of that
    band. *)
Theorem X2_epa_in_band (x : float) (bp : float * float * Z * Z) :
  valid x = true -> In bp bps -> in_band bp x = true ->
  exists a, epa_aqi_pm25 (Some x) = Ok (Some a) /\ i_lo bp <= a <= i_hi bp.
Proof.
  intros Vx I Hin.
  pose proof bps_good as G. unfold good_table in G. rewrite Forall_forall in G.
  destruct (in_band_range bp x (G bp I) Vx Hin) as [Nx [K1 K2]].
  destruct (nnf_valid x Nx) as [_ Nan].
  destruct (clamp_key x Vx Nan) as (_ & _ & Kc).
  assert (Hc : clamp x = x).
  { apply clamp_id; [assumption| |];
      rewrite fle_key by (assumption || reflexivity); apply Z.leb_le.
    - pose proof (fkey_bounds x Nx).
      replace (fkey (dec 0 1)) with 0 by (vm_compute; reflexivity). lia.
    - revert K2. unfold bps in I. cbn [In] in I.
      repeat (destruct I as [<-|I]; [cbn [c_hi fst snd]; eval_keys; lia|]).
      destruct I. }
  unfold epa_aqi_pm25. rewrite Nan, Hc.
  exact (epa_lookup_in_band bps bp x bps_good bps_sorted Vx I Hin).
Qed.

Lemma X2_witness :
  exists a, epa_aqi_pm25 (Some (of_int 100)) = Ok (Some a) /\ 151 <= a <= 200.
Proof.
  apply (X2_epa_in_band (of_int 100) (dec 555 1, dec 1504 1, 151, 200)).
  - reflexivity.
  - do 3 right. left. reflexivity.
  - vm_compute. reflexivity.
Defined.

(** X4: the conversion is monotone on all inputs, the clamped ones
    included: for any two binary64 values [x <= y] whose conversions are
    both defined, [toAqi(x) <= toAqi(y)]. *)
Theorem X4_epa_monotone_everywhere (x y : float) (a b : Z) :
  valid x = true -> valid y = true -> fle x y = true ->
  epa_aqi_pm25 (Some x) = Ok (Some a) ->
  epa_aqi_pm25 (Some y) = Ok (Some b) -> a <= b.
Proof.
  intros Vx Vy Hxy. destruct (fle_true_not_nan _ _ Hxy) as [Nx Ny].
  pose proof (fle_fkey x y Vx Vy Hxy) as K.
  destruct (clamp_key x Vx Nx) as (Vcx & Ncx & Kx).
  destruct (clamp_key y Vy Ny) as (Vcy & Ncy & Ky).
  unfold epa_aqi_pm25. rewrite Nx, Ny.
  apply (epa_lookup_mono bps (clamp x) (clamp y) a b bps_good bps_sorted Vcx Vcy).
  rewrite fle_key by assumption. apply Z.leb_le. lia.
Qed.

Lemma X4_witness : 0 <= 500.
Proof.
  apply (X4_epa_monotone_everywhere (of_int (-40)) (of_int 9000) 0 500);
    vm_compute; reflexivity.
Defined.







(* ===================================================================== *)
(** ** The two views of a concentration                                   *)
(* ===================================================================== *)

(** X5: the AQI view and the concentration view agree: for every
    non-negative binary64 concentration that has an AQI, the severity
    class [assess_aqi] gives to the AQI is the class [assess_pm25] gives
    to the concentration. *)
Theorem X5_views_agree (x : float) (a : Z) :
  valid x = true -> fle (dec 0 1) x = true ->
  epa_aqi_pm25 (Some x) = Ok (Some a) ->
  snd (assess_aqi (Some a)) = snd (assess_pm25 (Some x)).
Proof.
  intros Vx H0 H. destruct (fle_true_not_nan _ _ H0) as [_ Nx].
  assert (K0 : 0 <= fkey x).
  { apply (fle_fkey (dec 0 1) x) in H0; [|reflexivity|assumption].
    replace (fkey (dec 0 1)) with 0 in H0 by (vm_compute; reflexivity).
    assumption. }
  destruct (clamp_key x Vx Nx) as (Vc & Nc & Kc).
  unfold epa_aqi_pm25 in H. rewrite Nx in H.
  destruct (epa_lookup_some bps (clamp x) a bps_good Vc H) as (bp & I & Hin & B).
  rewrite (bps_in_band_key bp _ I Vc Nc) in Hin.
  apply andb_true_iff in Hin. destruct Hin as [H1 H2].
  apply Z.leb_le in H1, H2.
  rewrite (assess_pm25_keys x Vx Nx). cbv zeta.
  set (kx := fkey x) in *. set (kc := fkey (clamp x)) in *.
  clearbody kx kc. clear H.
  unfold bps in I. cbn [In] in I. unfold assess_aqi.
  repeat (destruct I as [<-|I];
    [cbn [c_lo c_hi i_lo i_hi fst snd] in H1, H2, B; revert Kc H1 H2;
     eval_keys; intros Kc H1 H2; decide_tests; reflexivity|]).
  destruct I.
Qed.

Lemma X5_witness :
  snd (assess_aqi (Some 112)) = snd (assess_pm25 (Some (dec 400 1))).
Proof.
  apply (X5_views_agree (dec 400 1) 112); vm_compute; reflexivity.
Defined.

(** X6: below zero the two views disagree: every negative concentration
    ([-inf] included) is clamped to 0 and gets the AQI 0, which is
    assessed Good, while [assess_pm25] assesses the same concentration
    Hazardous. *)
Theorem X6_views_disagree_below_zero (x : float) :
  flt x (of_int 0) = true ->
  epa_aqi_pm25 (Some x) = Ok (Some 0) /\
  assess_aqi (Some 0) = aqi_good /\
  assess_pm25 (Some x) = pm25_hazardous.
Proof.
  intros H. destruct (flt_true_not_nan _ _ H) as [Nx _].
  split; [|split].
  - unfold epa_aqi_pm25. rewrite Nx, (clamp_below x H). vm_compute. reflexivity.
  - reflexivity.
  - destruct x as [s|[|]| |[|] m e]; try discriminate H; vm_compute; reflexivity.
Qed.

Lemma X6_witness :
  epa_aqi_pm25 (Some (dec (-1) 1)) = Ok (Some 0) /\
  assess_aqi (Some 0) = aqi_good /\
  assess_pm25 (Some (dec (-1) 1)) = pm25_hazardous.
Proof. apply (X6_views_disagree_below_zero (dec (-1) 1)). reflexivity. Defined.

(** X7: a badge is shown exactly when badges are switched on and there
    is data: the AQI badge unless the AQI is absent, the PM2.5 badge
    unless the concentration is absent or NaN. *)
Theorem X7_badges (show_badges : bool) :
  (forall aqi, aqi_badge show_badges aqi = None <->
               show_badges = false \/ aqi = None) /\
  (forall pm25, pm25_badge show_badges pm25 = None <->
                show_badges = false \/ pm25 = None \/
                exists x, pm25 = Some x /\ isnan x = true).
Proof.
  split.
  - intros [a|]; unfold aqi_badge, assess_aqi.
    + repeat match goal with
        | |- context [if ?c then _ else _] =>
            lazymatch c with
            | context [show_badges] => fail
            | _ => destruct c
            end
        end; destruct show_badges; cbn; intuition discriminate.
    + destruct show_badges; cbn; intuition.
  - intros [x|]; unfold pm25_badge, assess_pm25, pm25_hazardous.
    + destruct (isnan x) eqn:Nx.
      * destruct show_badges; cbn; intuition eauto.
      * repeat match goal with
          | |- context [if ?c then _ else _] =>
              lazymatch c with
              | context [show_badges] => fail
              | _ => destruct c
              end
          end; destruct show_badges; cbn; split; intros H;
          try reflexivity; try discriminate; try (left; reflexivity);
          destruct H as [E|[E|(y & E & Ny)]]; try discriminate;
          injection E as <-; congruence.
    + destruct show_badges; cbn; intuition.
Qed.

Lemma X7_witness :
  aqi_badge true (Some 42) <> None /\ pm25_badge true (Some S754_nan) = None.
Proof.
  split.
  - intros H. apply (proj1 (X7_badges true)) in H.
    destruct H as [H|H]; discriminate.
  - apply (proj2 (X7_badges true)). right. right. now exists S754_nan.
Defined.

(* ===================================================================== *)
(** ** The reading layer                                                  *)
(* ===================================================================== *)

Lemma get_field_none (keys : list string) : get_field VNone keys = VNone.
Proof. destruct keys; reflexivity. Qed.

(** X8: [get_field] returns the value found at the end of a path of
    keys, and never raises: the empty path returns the object itself; one
    key of a dict returns the value bound to it; a longer path goes on
    from that value, so the
    lookup of a concatenated path is the lookup of the second path in the
    result of the first.  Once the walk meets [None], a missing key, or a
    value that is not a dict, the result is [None] whatever keys
    follow. *)
Theorem X8_get_field_path (cur : value) (ks1 ks2 : list string) :
  get_field cur [] = cur /\
  (forall k v d, get_field (VDict ((k, v) :: d)) [k] = v) /\
  (forall k k' v d, k <> k' ->
     get_field (VDict ((k', v) :: d)) (k :: ks2) = get_field (VDict d) (k :: ks2)) /\
  (forall k v d, get_field (VDict ((k, v) :: d)) (k :: ks2) = get_field v ks2) /\
  get_field cur (ks1 ++ ks2) = get_field (get_field cur ks1) ks2 /\
  (get_field cur ks1 = VNone -> get_field cur (ks1 ++ ks2) = VNone) /\
  (forall k d, cur = VDict d -> dict_get d k = VNone ->
     get_field cur (k :: ks2) = VNone) /\
  (forall k, (forall d, cur <> VDict d) -> get_field cur (k :: ks2) = VNone).
Proof.
  assert (C : forall ks c, get_field c (ks ++ ks2) = get_field (get_field c ks) ks2).
  { induction ks as [|k ks IH]; intros c; [reflexivity|].
    cbn [app get_field]. destruct c; try (now rewrite get_field_none).
    apply IH. }
  split; [reflexivity|]. split; [|split; [|split]].
  - intros k v d. cbn [get_field dict_get]. now rewrite String.eqb_refl.
  - intros k k' v d Hk. cbn [get_field dict_get].
    apply String.eqb_neq in Hk. now rewrite Hk.
  - intros k v d. cbn [get_field dict_get]. now rewrite String.eqb_refl.
  - split; [apply C|]. split; [|split].
    + intros H. now rewrite C, H, get_field_none.
    + intros k d -> H. cbn [get_field]. now rewrite H, get_field_none.
    + intros k H. destruct cur; try reflexivity. now destruct (H d).
Qed.

Lemma X8_witness :
  get_field (VDict [("sensor", VDict [("name", VStr "porch")])]) ["sensor"; "model"; "x"]
  = VNone /\
  get_field (VDict [("api_version", VStr "V1");
                    ("sensor", VDict [("name", VStr "porch")])])
    ["sensor"; "name"] = VStr "porch".
Proof.
  split.
  - apply (proj1 (proj2 (proj2 (proj2 (proj2 (proj2 (X8_get_field_path
             (VDict [("sensor", VDict [("name", VStr "porch")])])
             ["sensor"; "model"] ["x"]))))))).
    reflexivity.
  - rewrite (proj1 (proj2 (proj2 (X8_get_field_path VNone [] ["name"])))
               "sensor" "api_version") by discriminate.
    rewrite (proj1 (proj2 (proj2 (proj2 (X8_get_field_path VNone [] ["name"]))))).
    apply (proj1 (proj2 (X8_get_field_path VNone [] []))).
Defined.

(** *** Integers too large for a float *)

Lemma binary_round_aux_opp (pr em : Z) (m e : Z) (l : location) :
  binary_round_aux pr em true m e l = SFopp (binary_round_aux pr em false m e l).
Proof.
  unfold binary_round_aux.
  destruct (shr_fexp pr em m e l) as [mrs e'].
  destruct (shr_fexp pr em _ e' loc_Exact) as [mrs' e''].
  destruct (shr_m mrs'); try reflexivity.
  destruct (e'' <=? em - pr); reflexivity.
Qed.

Lemma is_inf_opp (x : float) : is_inf (SFopp x) = is_inf x.
Proof. destruct x; reflexivity. Qed.

Lemma of_int_opp (n : Z) : n <> 0 -> of_int (- n) = SFopp (of_int n).
Proof.
  intros Hn.
  destruct n as [|p|p]; [congruence| |];
    unfold of_int, binary_normalize, binary_round; cbn [Z.opp].
  - destruct (shl_align p 0 _) as [mz ez]. apply binary_round_aux_opp.
  - destruct (shl_align p 0 _) as [mz ez]. rewrite binary_round_aux_opp.
    destruct (binary_round_aux prec emax false (Zpos mz) ez loc_Exact)
      as [[|]|[|]| |[|] m e]; reflexivity.
Qed.

Lemma nonneg_inf_key (x : float) :
  nonneg prec emax true x ->
  (is_inf x = true <-> fkey x = key_inf prec emax).
Proof.
  pose proof (key_inf_pos prec emax prec_gt_1 prec_lt_emax) as HK.
  destruct x as [s|[|]| |[|] m e]; unfold nonneg, is_inf, fkey, key;
    try easy; intros H.
  all: try pose proof (ord_bounds prec emax prec_gt_1 m e H).
  all: split; intros E; try reflexivity; try discriminate; exfalso; lia.
Qed.

Lemma of_int_inf_pos (n : Z) :
  0 <= n -> (is_inf (of_int n) = true <-> int_overflow <= n).
Proof.
  intros Hn.
  assert (HE : base_exp prec emax <= 0) by (vm_compute; discriminate).
  destruct (binary_normalize_key prec emax prec_gt_1 prec_lt_emax n 0 Hn HE)
    as [N K].
  fold (of_int n) in N, K. rewrite (nonneg_inf_key _ N). fold (fkey (of_int n)) in K.
  rewrite K. clear N K.
  set (S := 2 ^ (0 - base_exp prec emax)) in *.
  assert (HS : 0 < S) by (vm_compute; reflexivity).
  assert (Hhi : key_inf prec emax <= round_key prec emax (int_overflow * S))
    by (vm_compute; discriminate).
  assert (Hlo : round_key prec emax ((int_overflow - 1) * S) < key_inf prec emax)
    by (vm_compute; reflexivity).
  assert (HT : 0 < int_overflow) by (vm_compute; reflexivity).
  clearbody S. split.
  - intros H. destruct (Z_le_gt_dec int_overflow n) as [|Hgt]; [assumption|exfalso].
    pose proof (round_key_mono prec emax prec_gt_1 prec_lt_emax
                  (n * S) ((int_overflow - 1) * S) ltac:(nia)). lia.
  - intros H.
    pose proof (round_key_mono prec emax prec_gt_1 prec_lt_emax
                  (int_overflow * S) (n * S) ltac:(nia)). lia.
Qed.

Lemma of_int_inf (n : Z) :
  is_inf (of_int n) = true <-> int_overflow <= Z.abs n.
Proof.
  destruct (Z_le_gt_dec 0 n) as [H|H].
  - rewrite Z.abs_eq by assumption. now apply of_int_inf_pos.
  - rewrite Z.abs_neq by lia.
    rewrite <- (of_int_inf_pos (- n)) by lia.
    rewrite (of_int_opp n) by lia. now rewrite is_inf_opp.
Qed.

(** X9: [safe_float] is not safe for every value: it raises exactly for
    an integer whose magnitude is at least [2^1024 - 2^970] (the
    conversion to a float overflows, and [OverflowError] is not among the
    exceptions caught); for every other value it returns. *)
Theorem X9_safe_float_raises (float_of_str : string -> option float) (val : value) :
  (forall e, safe_float float_of_str val = Raise e -> e = OverflowError) /\
  (safe_float float_of_str val = Raise OverflowError <->
   exists n, val = VInt n /\ int_overflow <= Z.abs n).
Proof.
  split.
  - destruct val; cbn [safe_float]; try discriminate.
    destruct (is_inf (of_int n)); intros e H; [congruence|discriminate].
  - split.
    + destruct val; cbn [safe_float]; try discriminate.
      destruct (is_inf (of_int n)) eqn:E; [|discriminate].
      intros _. exists n. split; [reflexivity|]. now apply of_int_inf.
    + intros (n & -> & H). cbn [safe_float].
      apply of_int_inf in H. now rewrite H.
Qed.

Lemma X9_witness :
  safe_float (fun _ => None) (VInt (2 ^ 1024)) = Raise OverflowError.
Proof.
  apply (proj2 (X9_safe_float_raises (fun _ => None) (VInt (2 ^ 1024)))).
  exists (2 ^ 1024). split; [reflexivity|]. vm_compute. discriminate.
Defined.

Lemma select_pm25_cases (sensor : list (string * value)) :
  select_pm25 sensor = dict_get sensor "pm2.5_atm" \/
  select_pm25 sensor = dict_get sensor "pm2.5" \/
  select_pm25 sensor = dict_get sensor "pm2.5_a".
Proof.
  unfold select_pm25, py_or.
  destruct (truthy (dict_get sensor "pm2.5_atm")); [now left|].
  destruct (truthy (dict_get sensor "pm2.5")); auto.
Qed.

(** The PM2.5 reading prefers [pm2.5_atm], then [pm2.5], then
    [pm2.5_a]: a non-zero number (NaN included) under [pm2.5_atm] is the
    reading; when that field is missing or zero, a non-zero number under
    [pm2.5] is; when both are missing or zero, the reading is whatever
    [pm2.5_a] casts to. *)
Lemma pm25_priority (float_of_str : string -> option float)
  (sensor : list (string * value)) :
  (forall x, dict_get sensor "pm2.5_atm" = VFloat x -> is_zero x = false ->
     sensor_pm25 float_of_str sensor = Ok (Some x)) /\
  (forall y, truthy (dict_get sensor "pm2.5_atm") = false ->
     dict_get sensor "pm2.5" = VFloat y -> is_zero y = false ->
     sensor_pm25 float_of_str sensor = Ok (Some y)) /\
  (truthy (dict_get sensor "pm2.5_atm") = false ->
   truthy (dict_get sensor "pm2.5") = false ->
   sensor_pm25 float_of_str sensor
     = safe_float float_of_str (dict_get sensor "pm2.5_a")).
Proof.
  unfold sensor_pm25, select_pm25, py_or. repeat split.
  - intros x E Z. rewrite E. cbn [truthy]. now rewrite Z.
  - intros y T E Z. rewrite T, E. cbn [truthy]. now rewrite Z.
  - intros T1 T2. now rewrite T1, T2.
Qed.

(** X10: a reading of exactly zero is lost: when [pm2.5_atm] is the
    number 0 (0, 0.0 or -0.0) and the sensor has neither [pm2.5] nor
    [pm2.5_a], the [or] chain skips it, the reading is absent, the AQI is
    absent and the metric shows "—", although the conversion of that
    very concentration is the index 0. *)
Theorem X10_zero_reading_lost (float_of_str : string -> option float)
  (sensor : list (string * value)) (x : float) :
  dict_get sensor "pm2.5_atm" = VFloat x \/
    (dict_get sensor "pm2.5_atm" = VInt 0 /\ x = of_int 0) ->
  is_zero x = true ->
  dict_get sensor "pm2.5" = VNone -> dict_get sensor "pm2.5_a" = VNone ->
  sensor_pm25 float_of_str sensor = Ok None /\
  sensor_aqi float_of_str sensor = Ok None /\
  aqi_metric None = dash /\
  epa_aqi_pm25 (Some x) = Ok (Some 0).
Proof.
  intros E Z E1 E2.
  assert (P : sensor_pm25 float_of_str sensor = Ok None).
  { unfold sensor_pm25, select_pm25, py_or. rewrite E1, E2.
    destruct E as [E|[E _]]; rewrite E; cbn [truthy]; rewrite ?Z; reflexivity. }
  split; [exact P|]. split; [unfold sensor_aqi; now rewrite P|].
  split; [reflexivity|].
  destruct x as [[|]| | |]; try discriminate Z; vm_compute; reflexivity.
Qed.

Lemma X10_witness :
  sensor_aqi (fun _ => None) [("pm2.5_atm", VFloat (dec 0 1)); ("humidity", VInt 40)]
  = Ok None.
Proof.
  apply (proj1 (proj2 (X10_zero_reading_lost (fun _ => None)
           [("pm2.5_atm", VFloat (dec 0 1)); ("humidity", VInt 40)] (dec 0 1)
           (or_introl eq_refl) eq_refl eq_refl eq_refl))).
Defined.

(** X11: on a sensor whose three PM2.5 fields are binary64 numbers or
    missing, the pipeline from the payload to the AQI never raises, and
    the AQI it yields is absent or lies in [0, 500]. *)
Theorem X11_sensor_aqi_total (float_of_str : string -> option float)
  (sensor : list (string * value)) :
  float_or_none (dict_get sensor "pm2.5_atm") ->
  float_or_none (dict_get sensor "pm2.5") ->
  float_or_none (dict_get sensor "pm2.5_a") ->
  exists aqi, sensor_aqi float_of_str sensor = Ok aqi /\
    match aqi with Some a => 0 <= a <= 500 | None => True end.
Proof.
  intros F1 F2 F3.
  assert (F : float_or_none (select_pm25 sensor)).
  { destruct (select_pm25_cases sensor) as [->|[->| ->]]; assumption. }
  unfold sensor_aqi, sensor_pm25.
  destruct (select_pm25 sensor) as [| | |x| | |]; try easy; cbn [safe_float bind].
  - now exists None.
  - cbn [float_or_none] in F.
    destruct (epa_aqi_pm25_returns (Some x) F) as [r E]. exists r.
    split; [assumption|]. destruct r as [a|]; [|exact I].
    cbn [epa_aqi_pm25] in E. destruct (isnan x); [discriminate|].
    destruct (epa_lookup_some bps (clamp x) a bps_good (clamp_valid x F) E)
      as (bp & I & _ & B).
    pose proof (bps_index_range bp I). lia.
Qed.

Lemma X11_witness :
  exists aqi,
    sensor_aqi (fun _ => None) [("pm2.5_atm", VFloat (S754_infinity false))] = Ok aqi /\
    match aqi with Some a => 0 <= a <= 500 | None => True end.
Proof.
  apply (X11_sensor_aqi_total (fun _ => None)
           [("pm2.5_atm", VFloat (S754_infinity false))]); exact eq_refl || exact I.
Defined.

(* ===================================================================== *)
(** ** The fetch layer                                                    *)
(* ===================================================================== *)

(** One turn of the loop: it ends with the payload of a decodable 200
    answer, and goes on after anything else. *)
Lemma fetch_loop_step (http : nat -> outcome) (pause : float)
  (rest : list float) (st : fetch_state) :
  fetch_loop http (pause :: rest) st =
    match succeeds (http (calls st)) with
    | Some p => (Payload p, after_attempt pause None st)
    | None => fetch_loop http rest (after_attempt pause (Some (http (calls st))) st)
    end.
Proof.
  cbn [fetch_loop]. unfold after_attempt.
  destruct (http (calls st)) as [e|sc [p|]]; cbn [succeeds]; try reflexivity;
    destruct (sc =? 200); try reflexivity;
    destruct (retry_status sc), (raises_for_status sc); reflexivity.
Qed.

Lemma after_attempt_calls (pause : float) (o : option outcome) (st : fetch_state) :
  calls (after_attempt pause o st) = S (calls st).
Proof. reflexivity. Qed.

(** On a list of pauses, the loop returns the payload of the first
    attempt that succeeds, whatever the earlier attempts did. *)
Lemma fetch_loop_payload (http : nat -> outcome) (pauses : list float)
  (st : fetch_state) (p : value) :
  fst (fetch_loop http pauses st) = Payload p <->
  exists i, (i < List.length pauses)%nat /\
    succeeds (http (calls st + i)%nat) = Some p /\
    forall k, (k < i)%nat -> succeeds (http (calls st + k)%nat) = None.
Proof.
  revert st. induction pauses as [|pause rest IH]; intros st.
  - cbn [fetch_loop List.length]. split.
    + destruct (last_exc st); discriminate.
    + intros (i & Hi & _). lia.
  - rewrite fetch_loop_step.
    destruct (succeeds (http (calls st))) as [q|] eqn:E.
    + cbn [fst]. split.
      * intros H. injection H as <-. exists 0%nat. cbn [List.length].
        rewrite Nat.add_0_r. repeat split; [lia|assumption|]. intros k Hk. lia.
      * intros (i & Hi & Hs & Hb). destruct i as [|i].
        -- rewrite Nat.add_0_r in Hs. congruence.
        -- specialize (Hb 0%nat ltac:(lia)). rewrite Nat.add_0_r in Hb. congruence.
    + rewrite IH, after_attempt_calls. split.
      * intros (i & Hi & Hs & Hb). exists (S i). cbn [List.length].
        split; [lia|]. split.
        -- now replace (calls st + S i)%nat with (S (calls st) + i)%nat by lia.
        -- intros [|k] Hk; [now rewrite Nat.add_0_r|].
           replace (calls st + S k)%nat with (S (calls st) + k)%nat by lia.
           apply Hb. lia.
      * intros (i & Hi & Hs & Hb). destruct i as [|i].
        -- rewrite Nat.add_0_r in Hs. congruence.
        -- exists i. cbn [List.length] in Hi. split; [lia|]. split.
           ++ now replace (S (calls st) + i)%nat with (calls st + S i)%nat by lia.
           ++ intros k Hk.
              replace (S (calls st) + k)%nat with (calls st + S k)%nat by lia.
              apply Hb. lia.
Qed.

(** On a cache miss with an API key, the call is the loop. *)
Lemma fetch_sensor_miss (secret env : option string) (http : nat -> outcome) :
  get_api_key secret env <> None ->
  fetch_sensor None secret env http
    = fetch_loop http backoffs {| calls := 0; slept := []; last_exc := None |}.
Proof.
  intros H. unfold fetch_sensor. destruct (get_api_key secret env); congruence.
Qed.

(** X12: [fetch_sensor] returns a payload in two cases only: on a cache
    hit, and then it is the cached payload; or on a cache miss with an
    API key configured, when one of its three requests is answered 200
    with a decodable body, and then it is the payload of the first such
    answer, whatever the earlier requests did (an exception, a 429 or
    5xx, or any other status).  Without a key and without a cache entry
    no payload is returned. *)
Theorem X12_fetch_payload (cached : option value) (secret env : option string)
  (http : nat -> outcome) (p : value) :
  fst (fetch_sensor cached secret env http) = Payload p <->
  cached = Some p \/
  (cached = None /\ get_api_key secret env <> None /\
   exists i, (i < 3)%nat /\ succeeds (http i) = Some p /\
     forall k, (k < i)%nat -> succeeds (http k) = None).
Proof.
  destruct cached as [c|].
  - cbn [fetch_sensor fst]. split.
    + intros H. left. congruence.
    + intros [H|[H _]]; congruence.
  - destruct (get_api_key secret env) as [key|] eqn:K.
    + assert (K' : get_api_key secret env <> None) by congruence.
      rewrite (fetch_sensor_miss secret env http K'), fetch_loop_payload.
      cbn [calls List.length backoffs Nat.add]. split.
      * intros H. right. split; [reflexivity|]. split; [congruence|exact H].
      * intros [H|(_ & _ & H)]; [discriminate|exact H].
    + unfold fetch_sensor. rewrite K. cbn [fst]. split.
      * discriminate.
      * intros [H|(_ & H & _)]; [discriminate|congruence].
Qed.

Lemma X12_witness :
  fst (fetch_sensor (Some (VDict [])) None None (fun _ => Failed (RequestException 0)))
    = Payload (VDict []) /\
  fst (fetch_sensor None (Some "key") None
         (fun n => match n with
                   | 2%nat => Responded 200 (Some (VDict []))
                   | _ => Responded 503 None
                   end)) = Payload (VDict []).
Proof.
  split.
  - apply (proj2 (X12_fetch_payload (Some (VDict [])) None None _ (VDict []))).
    left. reflexivity.
  - apply (proj2 (X12_fetch_payload None (Some "key") None _ (VDict []))).
    right. split; [reflexivity|]. split; [discriminate|].
    exists 2%nat. split; [lia|]. split; [reflexivity|].
    intros [|[|k]] Hk; [reflexivity|reflexivity|lia].
Defined.

(** X13: a status that the comment calls non-retryable is retried all the
    same: on a cache miss with an API key, when the first answer has any
    status other than 200 (a 404, a 401, ...), the exception of
    [raise_for_status] is caught by the loop, a second request is sent,
    and its payload is returned if it is answered 200 with a decodable
    body. *)
Theorem X13_fetch_retries_any_status (secret env : option string)
  (http : nat -> outcome)
  (status_code : Z) (json : option value) (p : value) :
  get_api_key secret env <> None ->
  http 0%nat = Responded status_code json -> status_code <> 200 ->
  http 1%nat = Responded 200 (Some p) ->
  fetch_sensor None secret env http
    = (Payload p,
       {| calls := 2; slept := [dec 6 1];
          last_exc := if negb (retry_status status_code) && raises_for_status status_code
                      then Some (HTTPError status_code) else None |}).
Proof.
  intros K H0 Hs H1. rewrite fetch_sensor_miss by assumption. unfold backoffs.
  rewrite fetch_loop_step. cbn [calls]. rewrite H0.
  apply Z.eqb_neq in Hs.
  assert (S0 : succeeds (Responded status_code json) = None).
  { cbn [succeeds]. destruct json; [now rewrite Hs|reflexivity]. }
  rewrite S0, fetch_loop_step. cbn [calls after_attempt]. rewrite H1.
  cbn [succeeds Z.eqb Pos.eqb]. unfold after_attempt. cbn [calls slept last_exc].
  rewrite Hs. reflexivity.
Qed.

Lemma X13_witness :
  fst (fetch_sensor None (Some "key") None
         (fun n => match n with
                   | O => Responded 404 None
                   | _ => Responded 200 (Some (VDict []))
                   end)) = Payload (VDict []).
Proof.
  rewrite (X13_fetch_retries_any_status (Some "key") None _ 404 None (VDict []));
    [reflexivity|discriminate|reflexivity|discriminate|reflexivity].
Defined.

(** X14: the requests [fetch_sensor] sends.  On a cache hit, or without
    an API key, it sends none.  On a cache miss with a key it stops at
    the first success: when request number [i] (counted from 0, below 3)
    is the first answered 200 with a decodable body, that payload is
    returned after exactly [i + 1] requests; when none of the three
    succeeds, an exception is raised after exactly three requests.  Each
    way it has slept nothing before the first request, 0.6 s before the
    second and 1.2 s before the third. *)
Theorem X14_fetch_attempts (cached : option value) (secret env : option string)
  (http : nat -> outcome) :
  let r := fst (fetch_sensor cached secret env http) in
  let st := snd (fetch_sensor cached secret env http) in
  slept st = tl (firstn (calls st) backoffs) /\
  (cached <> None \/ get_api_key secret env = None -> calls st = 0%nat) /\
  (cached = None -> get_api_key secret env <> None ->
   (1 <= calls st <= 3)%nat /\
   (forall i p, (i < 3)%nat -> succeeds (http i) = Some p ->
      (forall k, (k < i)%nat -> succeeds (http k) = None) ->
      r = Payload p /\ calls st = S i) /\
   ((forall i, (i < 3)%nat -> succeeds (http i) = None) ->
      calls st = 3%nat /\ exists e, r = Raised e)).
Proof.
  cbv zeta. destruct cached as [c|].
  { cbn. split; [reflexivity|]. split; [reflexivity|]. intros H. discriminate. }
  destruct (get_api_key secret env) as [key|] eqn:K.
  2:{ unfold fetch_sensor. rewrite K. cbn. split; [reflexivity|].
      split; [reflexivity|]. intros _ H. congruence. }
  assert (E : fetch_sensor None secret env http
              = fetch_loop http backoffs {| calls := 0; slept := []; last_exc := None |}).
  { apply fetch_sensor_miss. congruence. }
  rewrite E. clear E. unfold backoffs.
  assert (First : forall i p, (i < 3)%nat -> succeeds (http i) = Some p ->
            (forall k, (k < i)%nat -> succeeds (http k) = None) ->
            (i = 0%nat /\ succeeds (http 0%nat) = Some p) \/
            (i = 1%nat /\ succeeds (http 0%nat) = None /\
             succeeds (http 1%nat) = Some p) \/
            (i = 2%nat /\ succeeds (http 0%nat) = None /\
             succeeds (http 1%nat) = None /\ succeeds (http 2%nat) = Some p)).
  { intros i p Hi Hs Hb. destruct i as [|[|[|i]]]; try lia.
    - left. split; [reflexivity|assumption].
    - right. left. split; [reflexivity|]. split; [apply Hb; lia|assumption].
    - right. right. split; [reflexivity|].
      split; [apply Hb; lia|]. split; [apply Hb; lia|assumption]. }
  rewrite fetch_loop_step. cbn [calls].
  destruct (succeeds (http 0%nat)) as [p0|] eqn:E0.
  { cbn. split; [reflexivity|]. split; [intros [H|H]; congruence|].
    intros _ _. split; [lia|]. split.
    - intros i p Hi Hs Hb.
      destruct (First i p Hi Hs Hb) as [[-> H]|[(_ & H & _)|(_ & H & _)]];
        [split; congruence|discriminate|discriminate].
    - intros H. specialize (H 0%nat ltac:(lia)). congruence. }
  rewrite fetch_loop_step. cbn [calls after_attempt].
  destruct (succeeds (http 1%nat)) as [p1|] eqn:E1.
  { cbn. split; [reflexivity|]. split; [intros [H|H]; congruence|].
    intros _ _. split; [lia|]. split.
    - intros i p Hi Hs Hb.
      destruct (First i p Hi Hs Hb) as [[_ H]|[(-> & _ & H)|(_ & _ & H & _)]];
        [discriminate|split; congruence|discriminate].
    - intros H. specialize (H 1%nat ltac:(lia)). congruence. }
  rewrite fetch_loop_step. cbn [calls after_attempt].
  destruct (succeeds (http 2%nat)) as [p2|] eqn:E2.
  { cbn. split; [reflexivity|]. split; [intros [H|H]; congruence|].
    intros _ _. split; [lia|]. split.
    - intros i p Hi Hs Hb.
      destruct (First i p Hi Hs Hb) as [[_ H]|[(_ & _ & H)|(-> & _ & _ & H)]];
        [discriminate|discriminate|split; congruence].
    - intros H. specialize (H 2%nat ltac:(lia)). congruence. }
  cbn [fetch_loop].
  match goal with |- context [match ?l with Some _ => _ | None => _ end] =>
    destruct l end;
    (cbn; split; [reflexivity|]; split; [intros [H|H]; congruence|];
     intros _ _; split; [lia|]; split;
     [intros i p Hi Hs Hb;
      destruct (First i p Hi Hs Hb) as [[_ H]|[(_ & _ & H)|(_ & _ & _ & H)]];
      discriminate
     |intros _; split; [reflexivity|eexists; reflexivity]]).
Qed.

Lemma X14_witness :
  fst (fetch_sensor None (Some "key") None
         (fun n => match n with
                   | 1%nat => Responded 200 (Some (VDict []))
                   | _ => Failed (RequestException n)
                   end)) = Payload (VDict []) /\
  calls (snd (fetch_sensor None (Some "key") None
         (fun n => match n with
                   | 1%nat => Responded 200 (Some (VDict []))
                   | _ => Failed (RequestException n)
                   end))) = 2%nat.
Proof.
  apply (proj1 (proj2 (proj2 (proj2 (X14_fetch_attempts None (Some "key") None
           (fun n => match n with
                     | 1%nat => Responded 200 (Some (VDict []))
                     | _ => Failed (RequestException n)
                     end))) eq_refl ltac:(discriminate))) 1%nat (VDict []));
    [lia|reflexivity|].
  intros [|k] Hk; [reflexivity|lia].
Defined.

(** X15: on a cache miss with an API key, when none of the three requests
    succeeds, the exception raised is the one recorded by the last
    attempt that raised (the request failing, a 200 body that does not
    decode, or a status outside 429/500/502/503/504 that
    [raise_for_status] rejects), even when later attempts ended without
    exception; it is [RuntimeError] only when no attempt raised. *)
Theorem X15_fetch_error (secret env : option string) (http : nat -> outcome) :
  get_api_key secret env <> None ->
  succeeds (http 0%nat) = None -> succeeds (http 1%nat) = None ->
  succeeds (http 2%nat) = None ->
  fst (fetch_sensor None secret env http) =
    Raised match attempt_exn (http 2%nat), attempt_exn (http 1%nat),
                 attempt_exn (http 0%nat) with
           | Some e, _, _ => e
           | None, Some e, _ => e
           | None, None, Some e => e
           | None, None, None => RuntimeError
           end.
Proof.
  intros K E0 E1 E2. rewrite fetch_sensor_miss by assumption. unfold backoffs.
  rewrite fetch_loop_step. cbn [calls]. rewrite E0.
  rewrite fetch_loop_step. cbn [calls after_attempt]. rewrite E1.
  rewrite fetch_loop_step. cbn [calls after_attempt]. rewrite E2.
  cbn [fetch_loop after_attempt last_exc].
  destruct (http 0%nat) as [e0|s0 [j0|]], (http 1%nat) as [e1|s1 [j1|]],
    (http 2%nat) as [e2|s2 [j2|]];
    cbn [succeeds attempt_exn] in *;
    repeat match goal with
      | |- context [?s =? 200] => destruct (s =? 200); try discriminate
      end;
    repeat match goal with
      | |- context [negb (retry_status ?s) && raises_for_status ?s] =>
          destruct (negb (retry_status s) && raises_for_status s)
      end; reflexivity.
Qed.

Lemma X15_witness :
  fst (fetch_sensor None (Some "key") None
         (fun n => match n with
                   | O => Responded 404 None
                   | _ => Responded 503 None
                   end)) = Raised (HTTPError 404).
Proof.
  rewrite (X15_fetch_error (Some "key") None
             (fun n => match n with
                       | O => Responded 404 None
                       | _ => Responded 503 None
                       end)); [reflexivity|discriminate|reflexivity..].
Defined.

(* ===================================================================== *)
(** ** The display layer                                                  *)
(* ===================================================================== *)

(** X16: what [fmt_ts] shows for a non-zero timestamp.  Outside the
    years 1 to 9999 (below -62135596800 or above 253402300799, as
    10^12 is) [datetime.fromtimestamp] raises and nothing is shown.
    Within them the age is given in terms of the whole minutes [m]
    elapsed: "just now" below one minute (a timestamp in the future
    included), the minutes from 1 to 59, the whole hours [m / 60] from 1
    to 23 below 1440 minutes, and the whole days [m / 1440], at least 1,
    from there on; the number shown is never 0. *)
Theorem X16_fmt_ts_units (minutes_since : Z -> Z) (t : Z) :
  t <> 0 ->
  let m := minutes_since t in
  (t < min_timestamp \/ max_timestamp < t ->
   fmt_ts minutes_since (Some t) = TimestampOutOfRange) /\
  (min_timestamp <= t <= max_timestamp ->
   (m < 1 -> fmt_ts minutes_since (Some t) = Text "just now") /\
   (1 <= m < 60 ->
    fmt_ts minutes_since (Some t) = Text (str_int m ++ " min ago")) /\
   (60 <= m < 1440 ->
    fmt_ts minutes_since (Some t) = Text (str_int (m / 60) ++ " hr ago") /\
    1 <= m / 60 <= 23) /\
   (1440 <= m ->
    fmt_ts minutes_since (Some t) = Text (str_int (m / 1440) ++ " d ago") /\
    1 <= m / 1440)).
Proof.
  intros Ht m. apply Z.eqb_neq in Ht. unfold fmt_ts. rewrite Ht. fold m.
  cbv zeta. split.
  - intros H.
    replace ((min_timestamp <=? t) && (t <=? max_timestamp)) with false;
      [reflexivity|].
    symmetry. apply andb_false_iff. rewrite Z.leb_gt, Z.leb_gt. exact H.
  - intros R.
    replace ((min_timestamp <=? t) && (t <=? max_timestamp)) with true
      by (symmetry; apply andb_true_iff; rewrite !Z.leb_le; exact R).
    cbn [negb].
    assert (D : m / 60 / 24 = m / 1440) by (rewrite Z.div_div by lia; reflexivity).
    split; [|split; [|split]]; intros H.
    + destruct (Z.ltb_spec m 1); [reflexivity|lia].
    + destruct (Z.ltb_spec m 1); [lia|].
      destruct (Z.ltb_spec m 60); [reflexivity|lia].
    + pose proof (Z.div_lt_upper_bound m 60 24 ltac:(lia) ltac:(lia)) as U.
      pose proof (Z.div_le_lower_bound m 60 1 ltac:(lia) ltac:(lia)) as L.
      split; [|lia].
      destruct (Z.ltb_spec m 1); [lia|].
      destruct (Z.ltb_spec m 60); [lia|].
      destruct (Z.ltb_spec (m / 60) 24); [reflexivity|lia].
    + pose proof (Z.div_le_lower_bound m 60 24 ltac:(lia) ltac:(lia)) as L.
      pose proof (Z.div_le_lower_bound m 1440 1 ltac:(lia) ltac:(lia)) as L'.
      split; [|lia].
      destruct (Z.ltb_spec m 1); [lia|].
      destruct (Z.ltb_spec m 60); [lia|].
      destruct (Z.ltb_spec (m / 60) 24); [lia|now rewrite D].
Qed.

Lemma X16_witness :
  fmt_ts (fun t => 1700003000 / 60 - t / 60) (Some 1700000000)
    = Text "50 min ago" /\
  fmt_ts (fun t => 1700003000 / 60 - t / 60) (Some (10 ^ 12))
    = TimestampOutOfRange.
Proof.
  split.
  - apply (proj1 (proj2 (proj2 (X16_fmt_ts_units
             (fun t => 1700003000 / 60 - t / 60) 1700000000
             ltac:(discriminate)) ltac:(vm_compute; split; discriminate)))).
    vm_compute. split; [discriminate|reflexivity].
  - apply (proj1 (X16_fmt_ts_units (fun t => 1700003000 / 60 - t / 60)
                    (10 ^ 12) ltac:(discriminate))).
    right. reflexivity.
Defined.

(** *** The trend against the 10-minute average *)

Lemma binary_round_opp (pr em : Z) (m : positive) (e : Z) :
  binary_round pr em true m e = SFopp (binary_round pr em false m e).
Proof.
  unfold binary_round. destruct (shl_align m e _) as [mz ez].
  apply binary_round_aux_opp.
Qed.

Lemma valid_opp (x : float) : valid (SFopp x) = valid x.
Proof. destruct x; reflexivity. Qed.

Lemma binary_normalize_valid (z e : Z) :
  base_exp prec emax <= e -> valid (binary_normalize prec emax z e false) = true.
Proof.
  intros He. destruct z as [|p|p].
  - reflexivity.
  - destruct (binary_normalize_key prec emax prec_gt_1 prec_lt_emax (Zpos p) e
                ltac:(lia) He) as [N _].
    exact (proj1 (nonneg_valid prec emax true _ N)).
  - unfold binary_normalize. rewrite binary_round_opp, valid_opp.
    destruct (binary_normalize_key prec emax prec_gt_1 prec_lt_emax (Zpos p) e
                ltac:(lia) He) as [N _].
    exact (proj1 (nonneg_valid prec emax true _ N)).
Qed.

(** Subtraction yields a binary64 value. *)
Lemma fsub_valid (a b : float) :
  valid a = true -> valid b = true -> valid (fsub a b) = true.
Proof.
  intros Va Vb.
  destruct a as [sa|sa| |sa ma ea], b as [sb|sb| |sb mb eb];
    try (destruct sa, sb; reflexivity); try reflexivity; try assumption.
  unfold fsub, SFsub. apply binary_normalize_valid.
  unfold valid, valid_binary in Va, Vb.
  destruct (bounded_facts prec emax prec_gt_1 _ _ Va) as (Ha & _).
  destruct (bounded_facts prec emax prec_gt_1 _ _ Vb) as (Hb & _).
  pose proof (emin_neg prec emax prec_gt_1 prec_lt_emax).
  unfold base_exp. lia.
Qed.

(** The nearest integer to a multiple of a float, from its value. *)
Lemma nearest_int_val (m : positive) (e c : Z) :
  bounded prec emax m e = true ->
  nearest_int (Zpos m * c) e
    = rne_shift (fval (S754_finite false m e) * c) (- emin prec emax).
Proof.
  intros Hb. pose proof (emin_neg prec emax prec_gt_1 prec_lt_emax) as Hneg.
  destruct (bounded_facts prec emax prec_gt_1 _ _ Hb) as (He & _).
  unfold nearest_int, fval, val.
  destruct (Z.leb_spec 0 e) as [H0|H0].
  - rewrite Z.shiftl_mul_pow2 by assumption.
    replace (e - emin prec emax) with (e + - emin prec emax) by lia.
    rewrite Z.pow_add_r by lia.
    replace (Zpos m * (2 ^ e * 2 ^ (- emin prec emax)) * c)
      with (Zpos m * c * 2 ^ e * 2 ^ (- emin prec emax)) by ring.
    now rewrite rne_shift_exact by lia.
  - rewrite <- (rne_shift_scale (Zpos m * c) (- e) (e - emin prec emax)) by lia.
    f_equal; [ring|lia].
Qed.

Lemma digits_of_zero (q : Z) : 0 <= q -> digits_of q = "0" -> q = 0.
Proof.
  intros Hq H. unfold digits_of in H.
  assert (Hn : N.to_uint (Z.to_N q) <> Decimal.Nil).
  { intros E. pose proof (DecimalN.Unsigned.of_to (Z.to_N q)) as O.
    rewrite E in O. cbn in O. rewrite <- O in E. discriminate. }
  pose proof (NilZero.usu _ Hn) as U. rewrite H in U. cbn in U.
  injection U as U.
  change (Decimal.D0 Decimal.Nil) with (N.to_uint 0) in U.
  apply DecimalN.Unsigned.to_uint_inj in U. lia.
Qed.

Lemma digits_of_digit (r : Z) :
  0 <= r < 10 -> exists c, digits_of r = String c "" /\ (c = "0"%char -> r = 0).
Proof.
  intros H.
  assert (C : r = 0 \/ r = 1 \/ r = 2 \/ r = 3 \/ r = 4 \/ r = 5 \/ r = 6 \/
              r = 7 \/ r = 8 \/ r = 9) by lia.
  repeat (destruct C as [->|C]; [eexists; split; [reflexivity|]; try reflexivity;
                                  discriminate|]).
  subst r. eexists; split; [reflexivity|]. discriminate.
Qed.

(** With one decimal, only zero is rendered "0.0". *)
Lemma fixed_digits_zero (n : Z) : 0 <= n -> fixed_digits 1 n = "0.0" -> n = 0.
Proof.
  intros Hn. unfold fixed_digits. change (10 ^ Z.of_nat 1) with 10.
  pose proof (Z.mod_pos_bound n 10 ltac:(lia)) as Hr.
  pose proof (Z.div_pos n 10 Hn ltac:(lia)) as Hq.
  destruct (digits_of_digit (n mod 10) Hr) as (c & -> & Hc).
  cbn [String.length Nat.sub zeros append].
  intros H.
  assert (Q : digits_of (n / 10) = "0" /\ c = "0"%char).
  { destruct (digits_of (n / 10)) as [|c1 [|c2 rest]]; cbn [append] in H.
    - discriminate.
    - injection H as -> ->. now split.
    - injection H as _ _ H. destruct rest as [|r rest']; cbn [append] in H;
        [discriminate|]. injection H as _ H. destruct rest'; discriminate. }
  destruct Q as [Q ->]. apply digits_of_zero in Q; [|assumption].
  specialize (Hc eq_refl). pose proof (Z.div_mod n 10 ltac:(lia)). lia.
Qed.

(** X17: the trend is shown only for a change of at least 0.1, and then
    it never reads as no change: for any two binary64 readings, the text
    is the signed one-decimal rendering of the difference followed by
    " vs 10m", and that rendering is neither "+0.0" nor "-0.0". *)
Theorem X17_delta_never_zero (a b : float) (s : string) :
  valid a = true -> valid b = true ->
  delta_text (Some a) (Some b) = Some s ->
  fle (dec 1 1) (fabs (fsub a b)) = true /\
  s = format_plus_f 1 (fsub a b) ++ " vs 10m" /\
  format_plus_f 1 (fsub a b) <> "+0.0" /\
  format_plus_f 1 (fsub a b) <> "-0.0".
Proof.
  intros Va Vb. unfold delta_text. cbv zeta.
  pose proof (fsub_valid a b Va Vb) as Vd.
  destruct (fle (dec 1 1) (fabs (fsub a b))) eqn:T; [|discriminate].
  intros H. injection H as <-. split; [reflexivity|]. split; [reflexivity|].
  destruct (fsub a b) as [sd|sd| |sd m e].
  - vm_compute in T. discriminate.
  - destruct sd; split; discriminate.
  - vm_compute in T. discriminate.
  - assert (Hn : 1 <= nearest_int (Zpos m * 10 ^ Z.of_nat 1) e).
    { unfold valid, valid_binary in Vd.
      change (fabs (S754_finite sd m e)) with (S754_finite false m e) in T.
      assert (N1 : nnf (dec 1 1)) by (apply nnfb_nnf; vm_compute; reflexivity).
      assert (N2 : nnf (S754_finite false m e)) by exact Vd.
      apply fle_fkey in T; [|reflexivity|exact Vd].
      apply (fkey_fval_le _ _ N1 N2) in T.
      change (10 ^ Z.of_nat 1) with 10.
      rewrite (nearest_int_val m e 10 Vd).
      assert (E1 : rne_shift (fval (dec 1 1) * 10) (- emin prec emax) = 1)
        by (vm_compute; reflexivity).
      rewrite <- E1. apply rne_shift_mono; [vm_compute; discriminate|lia]. }
    unfold format_plus_f.
    set (n := nearest_int (Zpos m * 10 ^ Z.of_nat 1) e) in *. clearbody n.
    split; intros H; destruct sd; cbn [append] in H; try discriminate;
      injection H as H; apply fixed_digits_zero in H; lia.
Qed.

Lemma X17_witness :
  fle (dec 1 1) (fabs (fsub (dec 64 1) (dec 71 1))) = true /\
  "-0.7 vs 10m" = format_plus_f 1 (fsub (dec 64 1) (dec 71 1)) ++ " vs 10m" /\
  format_plus_f 1 (fsub (dec 64 1) (dec 71 1)) <> "+0.0" /\
  format_plus_f 1 (fsub (dec 64 1) (dec 71 1)) <> "-0.0".
Proof.
  apply (X17_delta_never_zero (dec 64 1) (dec 71 1) "-0.7 vs 10m");
    vm_compute; reflexivity.
Defined.

(* ===================================================================== *)
(** ** Division                                                           *)
(* ===================================================================== *)

Lemma rne_shift_div (m k : Z) : 0 <= k -> rne_shift m k = rne_div m (2 ^ k).
Proof. intros Hk. now rewrite rne_shift_eq. Qed.

Lemma rne_div_mono (n1 n2 d : Z) :
  0 < d -> n1 <= n2 -> rne_div n1 d <= rne_div n2 d.
Proof.
  intros Hd Hn. unfold rne_div.
  pose proof (Z.div_mod n1 d ltac:(lia)) as E1.
  pose proof (Z.div_mod n2 d ltac:(lia)) as E2.
  pose proof (Z.mod_pos_bound n1 d Hd) as B1.
  pose proof (Z.mod_pos_bound n2 d Hd) as B2.
  pose proof (Z.div_le_mono n1 n2 d Hd Hn) as Hq.
  set (q1 := n1 / d) in *. set (q2 := n2 / d) in *.
  set (r1 := n1 mod d) in *. set (r2 := n2 mod d) in *.
  destruct (Z.eq_dec q1 q2) as [Heq|Hne].
  - rewrite <- Heq in *. clearbody q1 r1 r2.
    assert (r1 <= r2) by nia.
    destruct (Z.compare_spec (2 * r1) d), (Z.compare_spec (2 * r2) d);
      destruct (Z.even q1); lia.
  - assert (q1 + 1 <= q2) by lia.
    destruct (Z.compare_spec (2 * r1) d), (Z.compare_spec (2 * r2) d);
      destruct (Z.even q1), (Z.even q2); lia.
Qed.

Lemma rne_div_exact (a d : Z) : 0 < d -> rne_div (a * d) d = a.
Proof.
  intros Hd. unfold rne_div. rewrite Z.mod_mul, Z.div_mul by lia.
  destruct (Z.compare_spec (2 * 0) d); lia.
Qed.

Lemma rne_div_lower (a n d : Z) : 0 < d -> a * d <= n -> a <= rne_div n d.
Proof.
  intros Hd H. pose proof (rne_div_mono _ _ d Hd H) as M.
  now rewrite rne_div_exact in M.
Qed.

Lemma rne_div_upper (a n d : Z) : 0 < d -> n <= a * d -> rne_div n d <= a.
Proof.
  intros Hd H. pose proof (rne_div_mono _ _ d Hd H) as M.
  now rewrite rne_div_exact in M.
Qed.

Lemma rne_div_scale (n d t : Z) :
  0 < d -> 0 < t -> rne_div (n * t) (d * t) = rne_div n d.
Proof.
  intros Hd Ht. unfold rne_div.
  rewrite Z.div_mul_cancel_r by lia.
  rewrite Z.mul_mod_distr_r by lia.
  rewrite Z.mul_assoc.
  rewrite <- (Zmult_compare_compat_r (2 * (n mod d)) d t) by lia.
  reflexivity.
Qed.

(** A location read as two more bits rounds as the fraction it stands
    for. *)
Lemma new_location_code (d r : Z) :
  0 < d -> 0 <= r < d ->
  loc_code (new_location d r) =
    if r =? 0 then 0
    else match Z.compare (2 * r) d with Lt => 1 | Eq => 2 | Gt => 3 end.
Proof.
  intros Hd Hr. unfold new_location, new_location_even, new_location_odd.
  destruct (Z.even d) eqn:Ev; destruct (Z.eqb_spec r 0) as [->|Hr0];
    try reflexivity.
  assert (Hodd : 2 * r <> d).
  { intros E. rewrite <- E, Z.even_mul in Ev. discriminate. }
  cbn [loc_code].
  destruct (Z.compare_spec (2 * r + 1) d), (Z.compare_spec (2 * r) d);
    try reflexivity; lia.
Qed.

Lemma rne_loc (q r d n : Z) :
  0 < d -> 0 <= r < d -> 0 <= q -> 0 <= n ->
  rne_shift (4 * q + loc_code (new_location d r)) (n + 2)
    = rne_div (q * d + r) (d * 2 ^ n).
Proof.
  intros Hd Hr Hq Hn. rewrite rne_shift_div by lia.
  rewrite (new_location_code d r Hd Hr).
  assert (HP : 0 < 2 ^ n) by (apply Z.pow_pos_nonneg; lia).
  rewrite Z.pow_add_r by lia. change (2 ^ 2) with 4.
  set (P := 2 ^ n) in *.
  pose proof (Z.div_mod q P ltac:(lia)) as Eq.
  pose proof (Z.mod_pos_bound q P HP) as Bq.
  set (q0 := q / P) in *. set (a := q mod P) in *.
  set (c := if r =? 0 then 0
            else match 2 * r ?= d with Lt => 1 | Eq => 2 | Gt => 3 end).
  assert (Hc : 0 <= c <= 3 /\ (c = 0 <-> r = 0) /\
               (c = 1 -> 2 * r < d) /\ (c = 2 -> 2 * r = d) /\ (c = 3 -> d < 2 * r)).
  { subst c. destruct (Z.eqb_spec r 0); [lia|].
    destruct (Z.compare_spec (2 * r) d); lia. }
  clearbody c.
  assert (D1 : (4 * q + c) / (P * 4) = q0).
  { symmetry. apply (Z.div_unique _ _ _ (4 * a + c)); nia. }
  assert (M1 : (4 * q + c) mod (P * 4) = 4 * a + c).
  { symmetry. apply (Z.mod_unique _ _ q0); nia. }
  assert (D2 : (q * d + r) / (d * P) = q0).
  { symmetry. apply (Z.div_unique _ _ _ (a * d + r)); nia. }
  assert (M2 : (q * d + r) mod (d * P) = a * d + r).
  { symmetry. apply (Z.mod_unique _ _ q0); nia. }
  unfold rne_div. rewrite D1, M1, D2, M2.
  replace (2 * (4 * a + c) ?= P * 4) with (2 * (a * d + r) ?= d * P);
    [reflexivity|].
  destruct (Z.compare_spec (2 * (4 * a + c)) (P * 4)) as [E|E|E].
  - apply Z.compare_eq_iff.
    assert (c = 0 \/ c = 2) by lia. nia.
  - apply Z.compare_lt_iff.
    destruct (Z_le_gt_dec P (2 * a)) as [G|G]; [exfalso; lia|].
    assert (2 * a + 1 <= P) by lia.
    destruct (Z.eq_dec (2 * a + 1) P) as [Ep|Np].
    + assert (c <= 1) by lia. assert (2 * r < d) by (destruct (Z.eq_dec c 0); lia).
      nia.
    + assert (2 * a + 2 <= P) by lia. nia.
  - apply Z.compare_gt_iff.
    destruct (Z_le_gt_dec (2 * a) (P - 2)) as [G|G]; [exfalso; lia|].
    destruct (Z.lt_trichotomy (2 * a) P) as [Lp|[Ep|Gp]].
    + assert (2 * a + 1 = P) by lia.
      assert (c = 3) by lia. assert (d < 2 * r) by lia. nia.
    + assert (1 <= c) by lia. assert (0 < r) by lia. nia.
    + nia.
Qed.

Section DivisionFacts.
Variables pr em : Z.
Hypothesis Hpr : 1 < pr.
Hypothesis Hem : pr < em.

Local Abbreviation emn := (emin pr em).
Local Abbreviation E0 := (base_exp pr em).
Local Abbreviation P := (2 ^ (pr - 1)).

(** *** The rounded key of a quotient *)

(** The rounded mantissa of a quotient fits the precision, and fills it
    above the subnormal range. *)
Lemma round_q_mant_bounds (n d : Z) :
  0 <= n -> 0 < d ->
  let E := fexp pr em (Zdigits2 (n / d) + E0) in
  0 <= rne_div n (d * 2 ^ (E - E0)) <= 2 * P /\
  (emn < E -> P <= rne_div n (d * 2 ^ (E - E0))).
Proof.
  intros Hn Hd E.
  pose proof (emin_neg pr em Hpr Hem) as Hneg.
  pose proof (half_pos pr Hpr) as HP.
  pose proof (fexp_ge_emin pr em (Zdigits2 (n / d) + E0)) as HE. fold E in HE.
  assert (Hk : 0 <= E - E0) by (unfold base_exp; lia).
  assert (H2k : 0 < 2 ^ (E - E0)) by (apply Z.pow_pos_nonneg; lia).
  assert (HD : 0 < d * 2 ^ (E - E0)) by nia.
  pose proof (Z.div_pos n d Hn Hd) as HQ.
  pose proof (Z.div_mod n d ltac:(lia)) as En.
  pose proof (Z.mod_pos_bound n d Hd) as Bn.
  set (Q := n / d) in *.
  assert (HEd : Zdigits2 Q + E0 - pr <= E) by (subst E; unfold fexp; lia).
  assert (Hup : Q + 1 <= 2 ^ Zdigits2 Q).
  { destruct (Z.eq_dec Q 0) as [->|HQ0]; [simpl; lia|].
    pose proof (Zdigits2_bounds Q ltac:(lia)). lia. }
  split; [split|].
  - apply rne_div_lower; [assumption|nia].
  - apply rne_div_upper; [assumption|].
    rewrite <- (pow_pr pr Hpr).
    pose proof (Zdigits2_nonneg Q HQ) as Dn.
    pose proof (Z.pow_le_mono_r 2 (Zdigits2 Q) (pr + (E - E0)) ltac:(lia) ltac:(lia)) as Pw.
    rewrite Z.pow_add_r in Pw by lia.
    assert (n < (Q + 1) * d) by nia.
    assert ((Q + 1) * d <= 2 ^ Zdigits2 Q * d) by nia.
    nia.
  - intros Hlt.
    assert (HEq : E = Zdigits2 Q + E0 - pr) by (subst E; unfold fexp in *; lia).
    assert (HQ0 : 0 < Q).
    { destruct (Z.eq_dec Q 0) as [Z0|]; [|lia]. rewrite Z0 in HEq. simpl in HEq.
      unfold base_exp in *. lia. }
    pose proof (Zdigits2_bounds Q HQ0) as [Dlo _].
    apply rne_div_lower; [assumption|].
    replace (Zdigits2 Q - 1) with (pr - 1 + (E - E0)) in Dlo by lia.
    rewrite Z.pow_add_r in Dlo by lia. nia.
Qed.

Lemma round_key_q_0 (d : Z) : 0 < d -> round_key_q pr em 0 d = 0.
Proof.
  intros Hd. pose proof (emin_neg pr em Hpr Hem).
  unfold round_key_q. rewrite Z.div_0_l by lia. simpl Zdigits2.
  replace (fexp pr em (0 + E0)) with emn by (unfold fexp, base_exp; lia).
  assert (0 < 2 ^ (emn - E0)) by (apply Z.pow_pos_nonneg; unfold base_exp; lia).
  pose proof (rne_div_exact 0 (d * 2 ^ (emn - E0)) ltac:(nia)) as X.
  rewrite Z.mul_0_l in X. rewrite X. lia.
Qed.

(** Rounding a quotient is monotone in the numerator. *)
Lemma round_key_q_mono (n1 n2 d : Z) :
  0 < d -> 0 <= n1 <= n2 -> round_key_q pr em n1 d <= round_key_q pr em n2 d.
Proof.
  intros Hd [H0 Hle].
  pose proof (round_q_mant_bounds n1 d H0 Hd) as [[_ U1] _].
  pose proof (round_q_mant_bounds n2 d ltac:(lia) Hd) as [_ L2].
  pose proof (Z.div_le_mono n1 n2 d Hd Hle) as HQ.
  pose proof (Z.div_pos n1 d H0 Hd) as HQ0.
  pose proof (Zdigits2_mono (n1 / d) (n2 / d) (conj HQ0 HQ)) as Hdg.
  pose proof (fexp_ge_emin pr em (Zdigits2 (n1 / d) + E0)) as G1.
  pose proof (half_pos pr Hpr) as HP.
  pose proof (emin_neg pr em Hpr Hem) as Hneg.
  unfold round_key_q. cbv zeta in *.
  set (E1 := fexp pr em (Zdigits2 (n1 / d) + E0)) in *.
  set (E2 := fexp pr em (Zdigits2 (n2 / d) + E0)) in *.
  assert (HE : E1 <= E2) by (subst E1 E2; unfold fexp; lia).
  destruct (Z.eq_dec E1 E2) as [Heq|Hne].
  - rewrite <- Heq.
    assert (0 < 2 ^ (E1 - E0)) by (apply Z.pow_pos_nonneg; unfold base_exp; lia).
    pose proof (rne_div_mono n1 n2 (d * 2 ^ (E1 - E0)) ltac:(nia) Hle). lia.
  - specialize (L2 ltac:(lia)). nia.
Qed.

(** *** Rounding a mantissa that carries a location *)

Lemma shr_record_of_loc_inv (q : Z) (l : location) :
  0 <= q -> shr_inv (4 * q + loc_code l) 2 (shr_record_of_loc q l).
Proof.
  intros Hq. change (2 ^ 2) with 4.
  assert (D : (4 * q + loc_code l) / 4 = q /\ (4 * q + loc_code l) mod 4 = loc_code l).
  { assert (0 <= loc_code l < 4) by (destruct l as [|[| |]]; cbn; lia).
    split; symmetry.
    - apply (Z.div_unique _ _ _ (loc_code l)); lia.
    - apply (Z.mod_unique _ _ q); lia. }
  destruct D as [D M]. unfold shr_inv. change (2 ^ 2) with 4. rewrite D, M.
  destruct l as [|[| |]]; cbn; split; (reflexivity || lia).
Qed.

Lemma shr_inv_iter_from (m k0 : Z) (rec : shr_record) (j : nat) :
  0 <= m -> 0 <= k0 -> shr_inv m k0 rec ->
  shr_inv m (k0 + Z.of_nat j) (Nat.iter j shr_1 rec).
Proof.
  intros Hm Hk H. induction j as [|j IH].
  - cbn [Nat.iter Z.of_nat]. now rewrite Z.add_0_r.
  - cbn [Nat.iter]. rewrite Nat2Z.inj_succ.
    replace (k0 + Z.succ (Z.of_nat j)) with (k0 + Z.of_nat j + 1) by lia.
    apply shr_inv_step; [assumption|lia|assumption].
Qed.

Lemma shr_round_loc (q e n : Z) (l : location) :
  0 <= q -> 0 <= n ->
  let '(rec, e') := shr (shr_record_of_loc q l) e n in
  e' = e + n /\
  round_nearest_even (shr_m rec) (loc_of_shr_record rec)
    = rne_shift (4 * q + loc_code l) (n + 2).
Proof.
  intros Hq Hn.
  assert (Hm : 0 <= 4 * q + loc_code l) by (destruct l as [|[| |]]; cbn [loc_code]; lia).
  pose proof (shr_record_of_loc_inv q l Hq) as I0.
  destruct n as [|p|p]; try lia; unfold shr.
  - split; [lia|]. now apply shr_inv_round.
  - split; [reflexivity|]. rewrite iter_pos_nat.
    apply shr_inv_round; [lia|].
    replace (Z.pos p + 2) with (2 + Z.of_nat (Pos.to_nat p))
      by (rewrite positive_nat_Z; lia).
    now apply shr_inv_iter_from.
Qed.

(** The second rounding pass of [binary_round_aux], on a mantissa that
    already fits the precision. *)
Lemma round_finish (q E : Z) :
  emn <= E -> 0 <= q <= 2 * P -> (emn < E -> P <= q) ->
  let '(mrs, e2) := shr_fexp pr em q E loc_Exact in
  let r := match shr_m mrs with
           | Z0 => S754_zero false
           | Zpos m => if Z.leb e2 (em - pr) then S754_finite false m e2
                       else S754_infinity false
           | Zneg _ => S754_nan
           end in
  nonneg pr em true r /\
  key pr em r = Z.min ((E - emn) * P + q) (key_inf pr em).
Proof.
  intros HE [Hq0 Hq2] HqP.
  pose proof (emin_neg pr em Hpr Hem) as Hneg.
  pose proof (half_pos pr Hpr) as HP.
  pose proof (key_inf_pos pr em Hpr Hem) as HK.
  unfold shr_fexp.
  change (shr_record_of_loc q loc_Exact) with (Build_shr_record q false false).
  assert (HPp : exists p, 2 ^ (pr - 1) = Zpos p).
  { destruct (2 ^ (pr - 1)) as [|p|p]; try lia. now exists p. }
  destruct HPp as [p Hp].
  unfold key_inf in *.
  destruct (Z.eq_dec q (2 * P)) as [Hcarry|Hnc].
  - assert (Hd : Zdigits2 q = pr + 1).
    { apply Zdigits2_unique; [lia|]. rewrite Hcarry.
      replace (pr + 1 - 1) with pr by lia.
      replace (pr + 1) with (Z.succ pr) by lia.
      rewrite Z.pow_succ_r, (pow_pr pr Hpr) by lia. lia. }
    rewrite Hd.
    replace (fexp pr em (pr + 1 + E) - E) with 1 by (unfold fexp; lia).
    unfold shr. cbn [iter_pos]. rewrite shr_1_nonneg by assumption.
    cbn [shr_m]. rewrite Hcarry.
    replace (2 * P / 2) with P by (rewrite Z.mul_comm, Z.div_mul; lia).
    rewrite Hp in *.
    destruct (Z.leb_spec (E + 1) (em - pr)) as [Hfin|Hovf].
    + assert (Hbd : bounded pr em p (E + 1) = true).
      { apply (bounded_intro pr em Hpr); rewrite ?Hp; lia. }
      split; [exact Hbd|].
      pose proof (ord_bounds pr em Hpr _ _ Hbd) as Ho.
      unfold key, ord, key_inf in *. rewrite Hp in *.
      replace ((E - emn) * Z.pos p + 2 * Z.pos p)
        with ((E + 1 - emn) * Z.pos p + Z.pos p) by ring.
      lia.
    + split; [reflexivity|]. unfold key, key_inf. rewrite ?Hp.
      rewrite Z.min_r; [reflexivity|]. nia.
  - pose proof (Zdigits2_le_pr pr Hpr q ltac:(lia)) as Hd.
    assert (Hn : fexp pr em (Zdigits2 q + E) - E <= 0) by (unfold fexp; lia).
    assert (Hshr : shr (Build_shr_record q false false) E
                     (fexp pr em (Zdigits2 q + E) - E)
                   = (Build_shr_record q false false, E)).
    { destruct (fexp pr em (Zdigits2 q + E) - E); try lia; reflexivity. }
    rewrite Hshr. cbn [shr_m].
    destruct q as [|m'|m']; try lia.
    + split; [exact I|]. unfold key.
      assert (HEe : E = emn) by lia. rewrite HEe, Hp.
      rewrite Z.min_l; lia.
    + destruct (Z.leb_spec E (em - pr)) as [Hfin|Hovf].
      * assert (Hbd : bounded pr em m' E = true).
        { apply (bounded_intro pr em Hpr); rewrite ?Hp; try lia. }
        split; [exact Hbd|].
        pose proof (ord_bounds pr em Hpr _ _ Hbd) as Ho.
        unfold key, ord, key_inf in *. rewrite Hp in *. lia.
      * split; [reflexivity|]. unfold key.
        assert (emn < E) by (unfold emin in *; lia).
        specialize (HqP ltac:(lia)). unfold key_inf. rewrite ?Hp in *.
        rewrite Z.min_r; [reflexivity|]. nia.
Qed.

(** Rounding a non-negative mantissa that carries a location: the result
    is the half-even rounding of the mantissa extended by two bits. *)
Lemma round_aux_key_loc (q e : Z) (l : location) :
  0 <= q ->
  let E := fexp pr em (Zdigits2 q + e) in
  let r := rne_shift (4 * q + loc_code l) (E - e + 2) in
  e <= E -> 0 <= r <= 2 * P -> (emn < E -> P <= r) ->
  nonneg pr em true (binary_round_aux pr em false q e l) /\
  key pr em (binary_round_aux pr em false q e l) =
    Z.min ((E - emn) * P + r) (key_inf pr em).
Proof.
  intros Hq E r He Hr HrP.
  pose proof (fexp_ge_emin pr em (Zdigits2 q + e)) as HE. fold E in HE.
  unfold binary_round_aux, shr_fexp. fold E.
  pose proof (shr_round_loc q e (E - e) l Hq ltac:(lia)) as HS.
  destruct (shr (shr_record_of_loc q l) e (E - e)) as [rec e'].
  destruct HS as [-> Hrn]. rewrite Hrn. fold r.
  replace (e + (E - e)) with E by lia.
  pose proof (round_finish r E HE Hr HrP) as HF. unfold shr_fexp in HF.
  destruct (shr (shr_record_of_loc r loc_Exact) E
              (fexp pr em (Zdigits2 r + E) - E)) as [mrs e2].
  exact HF.
Qed.

(** *** Division of positive finite numbers *)

Lemma Zdigits2_half : Zdigits2 P = pr.
Proof.
  replace P with (1 * 2 ^ (pr - 1)) by lia.
  rewrite (Zdigits2_shift pr Hpr) by lia. simpl Zdigits2. lia.
Qed.

(** The division core: an integer quotient with its remainder, at an
    exponent that leaves the quotient at least [pr] digits unless the
    result is subnormal. *)
Lemma div_core_spec (mx my : positive) (ex ey : Z) :
  bounded pr em mx ex = true -> bounded pr em my ey = true ->
  exists q e' r,
    SFdiv_core_binary pr em (Zpos mx) ex (Zpos my) ey
      = (q, e', new_location (Zpos my) r) /\
    E0 <= e' <= ex - ey /\
    Zpos mx * 2 ^ (ex - ey - e') = q * Zpos my + r /\
    0 <= r < Zpos my /\ 0 <= q /\
    (e' <= emn \/ pr <= Zdigits2 q).
Proof.
  intros Bx By.
  pose proof (emin_neg pr em Hpr Hem) as Hneg.
  pose proof (half_pos pr Hpr) as HP.
  destruct (bounded_facts pr em Hpr _ _ Bx) as (Hex & Hmx & _).
  destruct (bounded_facts pr em Hpr _ _ By) as (Hey & Hmy & _).
  pose proof (Zdigits2_le_pr pr Hpr (Zpos mx) ltac:(lia)) as Hd1.
  pose proof (Zdigits2_pos (Zpos my) ltac:(lia)) as Hd2.
  pose proof (Zdigits2_pos (Zpos mx) ltac:(lia)) as Hd1'.
  pose proof (Zdigits2_bounds (Zpos mx) ltac:(lia)) as [Lx _].
  pose proof (Zdigits2_bounds (Zpos my) ltac:(lia)) as [_ Uy].
  unfold SFdiv_core_binary.
  set (d1 := Zdigits2 (Zpos mx)) in *. set (d2 := Zdigits2 (Zpos my)) in *.
  set (e' := Z.min (fexp pr em (d1 + ex - (d2 + ey))) (ex - ey)).
  set (s := ex - ey - e').
  pose proof (fexp_ge_emin pr em (d1 + ex - (d2 + ey))) as HF.
  assert (Hs : 0 <= s) by (subst s e'; lia).
  assert (He0 : E0 <= e').
  { subst e'. unfold base_exp, emin in *. lia. }
  set (m' := match s with
             | 0 => Zpos mx | Zpos _ => Z.shiftl (Zpos mx) s | Zneg _ => 0
             end).
  assert (Hm' : m' = Zpos mx * 2 ^ s).
  { subst m'. generalize s Hs. intros [|p|p] Hp; try lia.
    rewrite Z.shiftl_mul_pow2 by lia. reflexivity. }
  pose proof (Z_div_mod m' (Zpos my) ltac:(lia)) as HD.
  destruct (Z.div_eucl m' (Zpos my)) as [q r]. destruct HD as [HD Hr].
  assert (H2s : 0 < 2 ^ s) by (apply Z.pow_pos_nonneg; lia).
  assert (Hq : 0 <= q) by nia.
  exists q, e', r. split; [reflexivity|].
  split; [subst e'; lia|]. split; [fold s; lia|].
  split; [assumption|]. split; [assumption|].
  destruct (Z_le_gt_dec e' emn) as [Hle|Hgt]; [left; assumption|right].
  assert (Ee : e' = d1 + ex - (d2 + ey) - pr).
  { subst e'. unfold fexp in *. lia. }
  assert (Es : s = pr - 1 + d2 - (d1 - 1)) by (subst s; lia).
  assert (Hq' : P <= q).
  { destruct (Z_le_gt_dec P q) as [|Hlt]; [assumption|exfalso].
    assert (Hpow : 2 ^ (d1 - 1) * 2 ^ s = P * 2 ^ d2).
    { rewrite <- !Z.pow_add_r by lia. f_equal. lia. }
    assert (0 < 2 ^ (d1 - 1)) by (apply Z.pow_pos_nonneg; lia).
    assert (P * 2 ^ d2 <= m') by nia.
    assert ((q + 1) * Zpos my <= P * Zpos my) by nia.
    nia. }
  rewrite <- Zdigits2_half. apply Zdigits2_mono. lia.
Qed.

Lemma fdiv_key_finite (mx my : positive) (ex ey : Z) :
  bounded pr em mx ex = true -> bounded pr em my ey = true ->
  nonneg pr em true
    (SFdiv pr em (S754_finite false mx ex) (S754_finite false my ey)) /\
  key pr em (SFdiv pr em (S754_finite false mx ex) (S754_finite false my ey)) =
    Z.min (round_key_q pr em (Zpos mx * 2 ^ (ex - emn) * 2 ^ (- E0))
             (Zpos my * 2 ^ (ey - emn)))
          (key_inf pr em).
Proof.
  intros Bx By.
  pose proof (emin_neg pr em Hpr Hem) as Hneg.
  pose proof (half_pos pr Hpr) as HP.
  destruct (bounded_facts pr em Hpr _ _ Bx) as (Hex & _ & _).
  destruct (bounded_facts pr em Hpr _ _ By) as (Hey & _ & _).
  destruct (div_core_spec mx my ex ey Bx By)
    as (q & e' & r & Hcore & He' & Hdiv & Hr & Hq & Hdig).
  unfold SFdiv. rewrite Hcore. cbn [xorb].
  set (k := e' - E0). set (t := 2 ^ (ey - emn)).
  assert (Hk : 0 <= k) by (subst k; lia).
  assert (H2k : 0 < 2 ^ k) by (apply Z.pow_pos_nonneg; lia).
  assert (Ht : 0 < t) by (apply Z.pow_pos_nonneg; lia).
  set (M := q * Zpos my + r) in *.
  assert (HM : 0 <= M) by nia.
  assert (HN : Zpos mx * 2 ^ (ex - emn) * 2 ^ (- E0) = M * 2 ^ k * t).
  { rewrite <- Hdiv. subst k t.
    rewrite <- !Z.mul_assoc, <- !Z.pow_add_r by (unfold base_exp in *; lia).
    f_equal. f_equal. unfold base_exp. lia. }
  rewrite HN. clear HN.
  set (Qf := M * 2 ^ k / Zpos my).
  assert (HQf : M * 2 ^ k * t / (Zpos my * t) = Qf).
  { apply Z.div_mul_cancel_r; lia. }
  set (E := fexp pr em (Zdigits2 q + e')).
  pose proof (fexp_ge_emin pr em (Zdigits2 q + e')) as HE. fold E in HE.
  assert (HeE : e' <= E) by (subst E; unfold fexp; lia).
  assert (HEq : fexp pr em (Zdigits2 Qf + E0) = E).
  { destruct (Z.eq_dec q 0) as [Hq0|Hq0].
    - assert (Hsub : e' <= emn).
      { destruct Hdig as [|Hd]; [assumption|]. rewrite Hq0 in Hd. simpl in Hd. lia. }
      assert (HQlt : Qf < 2 ^ k).
      { subst Qf. apply Z.div_lt_upper_bound; [lia|]. subst M. rewrite Hq0. nia. }
      assert (HQ0 : 0 <= Qf) by (subst Qf; apply Z.div_pos; nia).
      assert (Hdq : Zdigits2 Qf <= k).
      { destruct (Z.eq_dec Qf 0) as [->|]; [simpl; lia|].
        pose proof (Zdigits2_bounds Qf ltac:(lia)) as [Lo _].
        assert (Hlt : 2 ^ (Zdigits2 Qf - 1) < 2 ^ k) by lia.
        apply Z.pow_lt_mono_r_iff in Hlt; lia. }
      subst E. rewrite Hq0. simpl Zdigits2. unfold fexp. subst k. lia.
    - pose proof (Zdigits2_bounds q ltac:(lia)) as [Lo Hi].
      pose proof (Zdigits2_pos q ltac:(lia)) as Dq.
      assert (Hd : Zdigits2 Qf = Zdigits2 q + k).
      { apply Zdigits2_unique; [lia|].
        replace (Zdigits2 q + k - 1) with (Zdigits2 q - 1 + k) by lia.
        rewrite !Z.pow_add_r by lia. split.
        - assert (q * 2 ^ k <= Qf).
          { subst Qf. apply Z.div_le_lower_bound; [lia|]. subst M. nia. }
          nia.
        - assert (Qf < (q + 1) * 2 ^ k).
          { subst Qf. apply Z.div_lt_upper_bound; [lia|]. subst M. nia. }
          nia. }
      subst E. rewrite Hd. f_equal. subst k. lia. }
  pose proof (round_q_mant_bounds (M * 2 ^ k * t) (Zpos my * t)
                ltac:(nia) ltac:(nia)) as HB.
  cbv zeta in HB. unfold round_key_q. rewrite HQf, HEq in *.
  assert (Hrne : rne_div (M * 2 ^ k * t) (Zpos my * t * 2 ^ (E - E0))
                 = rne_shift (4 * q + loc_code (new_location (Zpos my) r))
                     (E - e' + 2)).
  { rewrite rne_loc by lia. fold M.
    replace (E - E0) with (E - e' + k) by (subst k; lia).
    rewrite Z.pow_add_r by lia.
    replace (M * 2 ^ k * t) with (M * (2 ^ k * t)) by ring.
    replace (Zpos my * t * (2 ^ (E - e') * 2 ^ k))
      with (Zpos my * 2 ^ (E - e') * (2 ^ k * t)) by ring.
    apply rne_div_scale; [|nia].
    assert (0 < 2 ^ (E - e')) by (apply Z.pow_pos_nonneg; lia). nia. }
  rewrite Hrne in *. destruct HB as [HB1 HB2].
  exact (round_aux_key_loc q e' (new_location (Zpos my) r) Hq HeE HB1 HB2).
Qed.

(** Dividing a finite non-negative float by a positive finite one rounds
    the exact quotient. *)
Lemma fdiv_key (a b : spec_float) :
  nonneg pr em false a -> nonneg pr em false b -> 0 < val pr em b ->
  nonneg pr em true (SFdiv pr em a b) /\
  key pr em (SFdiv pr em a b) =
    Z.min (round_key_q pr em (val pr em a * 2 ^ (- E0)) (val pr em b))
          (key_inf pr em).
Proof.
  intros Ha Hb Hpos. pose proof (key_inf_pos pr em Hpr Hem) as HK.
  destruct b as [sb|[|]| |[|] my ey]; try contradiction; try discriminate;
    try (cbn [val] in Hpos; lia).
  destruct a as [sa|[|]| |[|] mx ex]; try contradiction; try discriminate.
  - cbn [SFdiv val key]. split; [exact I|].
    rewrite Z.mul_0_l, round_key_q_0 by exact Hpos. lia.
  - cbn [val]. now apply fdiv_key_finite.
Qed.

(** *** Operations on results that may have overflowed *)

Lemma nonneg_cases (x : spec_float) :
  nonneg pr em true x -> nonneg pr em false x \/ x = S754_infinity false.
Proof.
  destruct x as [s|[|]| |[|] m e]; cbn [nonneg]; intros H;
    try contradiction; try discriminate; auto.
Qed.

Lemma key_le_inf (x : spec_float) :
  nonneg pr em true x -> 0 <= key pr em x <= key_inf pr em.
Proof.
  intros H. pose proof (key_inf_pos pr em Hpr Hem).
  destruct (nonneg_cases x H) as [F| ->].
  - pose proof (key_nonneg_bounds pr em Hpr Hem x F). lia.
  - cbn [key]. lia.
Qed.

Lemma pos_finite (k : spec_float) :
  nonneg pr em false k -> 0 < val pr em k ->
  exists m e, k = S754_finite false m e.
Proof.
  destruct k as [s|[|]| |[|] m e]; cbn [nonneg val]; intros H V;
    try contradiction; try discriminate; try lia.
  now exists m, e.
Qed.

Lemma finite_below (a a' : spec_float) :
  nonneg pr em true a -> nonneg pr em false a' ->
  key pr em a <= key pr em a' ->
  nonneg pr em false a /\ val pr em a <= val pr em a'.
Proof.
  intros Ha Ha' Hk.
  pose proof (key_nonneg_bounds pr em Hpr Hem a' Ha').
  assert (F : nonneg pr em false a) by (apply (nonneg_finite pr em); [assumption|lia]).
  split; [assumption|]. now apply (key_le_val_le pr em Hpr).
Qed.

Lemma fmul_ext (k a a' : spec_float) :
  nonneg pr em false k -> 0 < val pr em k ->
  nonneg pr em true a -> nonneg pr em true a' ->
  key pr em a <= key pr em a' ->
  nonneg pr em true (SFmul pr em a k) /\
  nonneg pr em true (SFmul pr em a' k) /\
  key pr em (SFmul pr em a k) <= key pr em (SFmul pr em a' k).
Proof.
  intros Hk Vk Ha Ha' Hle.
  destruct (pos_finite k Hk Vk) as (mk & ek & Ek).
  assert (Inf : SFmul pr em (S754_infinity false) k = S754_infinity false)
    by (rewrite Ek; reflexivity).
  assert (Top : forall x, nonneg pr em true x ->
            nonneg pr em true (SFmul pr em x k) /\
            key pr em (SFmul pr em x k) <= key_inf pr em).
  { intros x Hx. destruct (nonneg_cases x Hx) as [F| ->].
    - destruct (fmul_key pr em Hpr Hem x k F Hk) as [N K].
      split; [assumption|]. apply key_le_inf. assumption.
    - rewrite Inf. split; [reflexivity|]. cbn [key]. lia. }
  destruct (Top a Ha) as [Na Ka]. split; [assumption|].
  destruct (nonneg_cases a' Ha') as [F'| ->].
  - destruct (finite_below a a' Ha F' Hle) as [F V].
    destruct (fmul_key pr em Hpr Hem a k F Hk) as [_ K].
    destruct (fmul_key pr em Hpr Hem a' k F' Hk) as [N' K'].
    split; [assumption|]. rewrite K, K'.
    pose proof (val_nonneg pr em a).
    pose proof (round_key_mono pr em Hpr Hem (val pr em a * val pr em k)
                  (val pr em a' * val pr em k) ltac:(nia)). lia.
  - rewrite Inf. split; [reflexivity|]. exact Ka.
Qed.

Lemma fdiv_ext (b a a' : spec_float) :
  nonneg pr em false b -> 0 < val pr em b ->
  nonneg pr em true a -> nonneg pr em true a' ->
  key pr em a <= key pr em a' ->
  nonneg pr em true (SFdiv pr em a b) /\
  nonneg pr em true (SFdiv pr em a' b) /\
  key pr em (SFdiv pr em a b) <= key pr em (SFdiv pr em a' b).
Proof.
  intros Hb Vb Ha Ha' Hle.
  pose proof (emin_neg pr em Hpr Hem) as Hneg.
  destruct (pos_finite b Hb Vb) as (mb & eb & Eb).
  assert (Inf : SFdiv pr em (S754_infinity false) b = S754_infinity false)
    by (rewrite Eb; reflexivity).
  assert (Top : forall x, nonneg pr em true x ->
            nonneg pr em true (SFdiv pr em x b) /\
            key pr em (SFdiv pr em x b) <= key_inf pr em).
  { intros x Hx. destruct (nonneg_cases x Hx) as [F| ->].
    - destruct (fdiv_key x b F Hb Vb) as [N K].
      split; [assumption|]. apply key_le_inf. assumption.
    - rewrite Inf. split; [reflexivity|]. cbn [key]. lia. }
  destruct (Top a Ha) as [Na Ka]. split; [assumption|].
  destruct (nonneg_cases a' Ha') as [F'| ->].
  - destruct (finite_below a a' Ha F' Hle) as [F V].
    destruct (fdiv_key a b F Hb Vb) as [_ K].
    destruct (fdiv_key a' b F' Hb Vb) as [N' K'].
    split; [assumption|]. rewrite K, K'.
    pose proof (val_nonneg pr em a).
    assert (H2 : 0 < 2 ^ (- E0)) by (apply Z.pow_pos_nonneg; unfold base_exp; lia).
    pose proof (round_key_q_mono (val pr em a * 2 ^ (- E0))
                  (val pr em a' * 2 ^ (- E0)) (val pr em b) Vb ltac:(nia)). lia.
  - rewrite Inf. split; [reflexivity|]. exact Ka.
Qed.

Lemma fadd_ext (c a a' : spec_float) :
  nonneg pr em false c ->
  nonneg pr em true a -> nonneg pr em true a' ->
  key pr em a <= key pr em a' ->
  nonneg pr em true (SFadd pr em a c) /\
  nonneg pr em true (SFadd pr em a' c) /\
  key pr em (SFadd pr em a c) <= key pr em (SFadd pr em a' c).
Proof.
  intros Hc Ha Ha' Hle.
  pose proof (emin_neg pr em Hpr Hem) as Hneg.
  assert (Inf : SFadd pr em (S754_infinity false) c = S754_infinity false).
  { destruct c as [s|[|]| |[|] m e]; try contradiction; try discriminate;
      reflexivity. }
  assert (Top : forall x, nonneg pr em true x ->
            nonneg pr em true (SFadd pr em x c) /\
            key pr em (SFadd pr em x c) <= key_inf pr em).
  { intros x Hx. destruct (nonneg_cases x Hx) as [F| ->].
    - destruct (fadd_key pr em Hpr Hem x c F Hc) as [N K].
      split; [assumption|]. apply key_le_inf. assumption.
    - rewrite Inf. split; [reflexivity|]. cbn [key]. lia. }
  destruct (Top a Ha) as [Na Ka]. split; [assumption|].
  destruct (nonneg_cases a' Ha') as [F'| ->].
  - destruct (finite_below a a' Ha F' Hle) as [F V].
    destruct (fadd_key pr em Hpr Hem a c F Hc) as [_ K].
    destruct (fadd_key pr em Hpr Hem a' c F' Hc) as [N' K'].
    split; [assumption|]. rewrite K, K'.
    pose proof (val_nonneg pr em a). pose proof (val_nonneg pr em c).
    assert (H2 : 0 < 2 ^ (- emn)) by (apply Z.pow_pos_nonneg; lia).
    pose proof (round_key_mono pr em Hpr Hem
                  ((val pr em a + val pr em c) * 2 ^ (- emn))
                  ((val pr em a' + val pr em c) * 2 ^ (- emn)) ltac:(nia)). lia.
  - rewrite Inf. split; [reflexivity|]. exact Ka.
Qed.

Lemma fsub_ext (b a a' : spec_float) :
  nonneg pr em false b ->
  nonneg pr em true a -> nonneg pr em true a' ->
  key pr em b <= key pr em a -> key pr em a <= key pr em a' ->
  nonneg pr em true (SFsub pr em a b) /\
  nonneg pr em true (SFsub pr em a' b) /\
  key pr em (SFsub pr em a b) <= key pr em (SFsub pr em a' b).
Proof.
  intros Hb Ha Ha' Hba Hle.
  pose proof (emin_neg pr em Hpr Hem) as Hneg.
  assert (Inf : SFsub pr em (S754_infinity false) b = S754_infinity false).
  { destruct b as [s|[|]| |[|] m e]; try contradiction; try discriminate;
      reflexivity. }
  assert (Top : forall x, nonneg pr em true x -> key pr em b <= key pr em x ->
            nonneg pr em true (SFsub pr em x b) /\
            key pr em (SFsub pr em x b) <= key_inf pr em).
  { intros x Hx Hbx. destruct (nonneg_cases x Hx) as [F| ->].
    - pose proof (proj1 (key_le_val_le pr em Hpr b x Hb F) Hbx) as V.
      destruct (fsub_key pr em Hpr Hem x b F Hb V) as [N K].
      split; [assumption|]. apply key_le_inf. assumption.
    - rewrite Inf. split; [reflexivity|]. cbn [key]. lia. }
  destruct (Top a Ha Hba) as [Na Ka]. split; [assumption|].
  destruct (nonneg_cases a' Ha') as [F'| ->].
  - destruct (finite_below a a' Ha F' Hle) as [F V].
    pose proof (proj1 (key_le_val_le pr em Hpr b a Hb F) Hba) as Vb.
    destruct (fsub_key pr em Hpr Hem a b F Hb Vb) as [_ K].
    destruct (fsub_key pr em Hpr Hem a' b F' Hb ltac:(lia)) as [N' K'].
    split; [assumption|]. rewrite K, K'.
    assert (H2 : 0 < 2 ^ (- emn)) by (apply Z.pow_pos_nonneg; lia).
    pose proof (round_key_mono pr em Hpr Hem
                  ((val pr em a - val pr em b) * 2 ^ (- emn))
                  ((val pr em a' - val pr em b) * 2 ^ (- emn)) ltac:(nia)). lia.
  - rewrite Inf. split; [reflexivity|]. exact Ka.
Qed.
End DivisionFacts.

(* ===================================================================== *)
(** ** Temperature conversions                                            *)
(* ===================================================================== *)

Lemma nonneg_of_key_inf (x : float) :
  valid x = true -> isnan x = false -> 0 <= fkey x ->
  nonneg prec emax true x.
Proof.
  intros V N K. pose proof (key_inf_pos prec emax prec_gt_1 prec_lt_emax) as KI.
  destruct x as [s|[|]| |[|] m e]; cbn [nonneg]; try reflexivity;
    try exact I; try discriminate.
  - unfold fkey in K. cbn [key] in K. lia.
  - pose proof (ord_bounds prec emax prec_gt_1 m e V). unfold fkey in K.
    cbn [key] in K. lia.
  - exact V.
Qed.

Lemma flt_nonneg (a b : float) :
  nonneg prec emax true a -> nonneg prec emax true b ->
  flt a b = (fkey a <? fkey b).
Proof.
  intros Ha Hb. destruct (nonneg_valid prec emax _ _ Ha).
  destruct (nonneg_valid prec emax _ _ Hb). now apply flt_key.
Qed.

Lemma fle_nonneg (a b : float) :
  nonneg prec emax true a -> nonneg prec emax true b ->
  fle a b = (fkey a <=? fkey b).
Proof.
  intros Ha Hb. destruct (nonneg_valid prec emax _ _ Ha).
  destruct (nonneg_valid prec emax _ _ Hb). now apply fle_key.
Qed.

(** [value * 9/5 + 32] is monotone on non-negative readings, overflow
    included. *)
Lemma to_fahrenheit_mono (x y : float) :
  nonneg prec emax true x -> nonneg prec emax true y -> fkey x <= fkey y ->
  nonneg prec emax true (fadd (fdiv (fmul x (of_int 9)) (of_int 5)) (of_int 32)) /\
  nonneg prec emax true (fadd (fdiv (fmul y (of_int 9)) (of_int 5)) (of_int 32)) /\
  fkey (fadd (fdiv (fmul x (of_int 9)) (of_int 5)) (of_int 32))
    <= fkey (fadd (fdiv (fmul y (of_int 9)) (of_int 5)) (of_int 32)).
Proof.
  intros Hx Hy Hk.
  destruct (fmul_ext prec emax prec_gt_1 prec_lt_emax (of_int 9) x y
              ltac:(vm_compute; reflexivity) ltac:(vm_compute; reflexivity)
              Hx Hy Hk) as (M1 & M2 & M3).
  destruct (fdiv_ext prec emax prec_gt_1 prec_lt_emax (of_int 5) _ _
              ltac:(vm_compute; reflexivity) ltac:(vm_compute; reflexivity)
              M1 M2 M3) as (D1 & D2 & D3).
  exact (fadd_ext prec emax prec_gt_1 prec_lt_emax (of_int 32) _ _
           ltac:(vm_compute; reflexivity) D1 D2 D3).
Qed.

(** [(value - 32) * 5/9] is monotone on readings of at least 32, overflow
    included. *)
Lemma to_celsius_mono (x y : float) :
  nonneg prec emax true x -> nonneg prec emax true y ->
  fkey (of_int 32) <= fkey x -> fkey x <= fkey y ->
  nonneg prec emax true (fdiv (fmul (fsub x (of_int 32)) (of_int 5)) (of_int 9)) /\
  nonneg prec emax true (fdiv (fmul (fsub y (of_int 32)) (of_int 5)) (of_int 9)) /\
  fkey (fdiv (fmul (fsub x (of_int 32)) (of_int 5)) (of_int 9))
    <= fkey (fdiv (fmul (fsub y (of_int 32)) (of_int 5)) (of_int 9)).
Proof.
  intros Hx Hy H32 Hk.
  destruct (fsub_ext prec emax prec_gt_1 prec_lt_emax (of_int 32) x y
              ltac:(vm_compute; reflexivity) Hx Hy H32 Hk) as (S1 & S2 & S3).
  destruct (fmul_ext prec emax prec_gt_1 prec_lt_emax (of_int 5) _ _
              ltac:(vm_compute; reflexivity) ltac:(vm_compute; reflexivity)
              S1 S2 S3) as (M1 & M2 & M3).
  exact (fdiv_ext prec emax prec_gt_1 prec_lt_emax (of_int 9) _ _
           ltac:(vm_compute; reflexivity) ltac:(vm_compute; reflexivity)
           M1 M2 M3).
Qed.

Lemma to_fahrenheit_converted (v : float) :
  fle (of_int 40) v && fle v (of_int 120) = false ->
  to_fahrenheit v
    = Ok (fadd (fdiv (fmul v (of_int 9)) (of_int 5)) (of_int 32)).
Proof. intros H. unfold to_fahrenheit. now rewrite H. Qed.

Lemma to_celsius_converted (v : float) :
  fle (of_int (-20)) v && fle v (of_int 50) = false ->
  to_celsius v = Ok (fdiv (fmul (fsub v (of_int 32)) (of_int 5)) (of_int 9)).
Proof. intros H. unfold to_celsius. now rewrite H. Qed.

(** The guidance of [assess_temp] for a detected non-negative value, on
    keys. *)
Lemma assess_fahrenheit_keys (value v : float) :
  isnan value = false -> to_fahrenheit value = Ok v ->
  nonneg prec emax true v ->
  assess_temp (Some value) "Fahrenheit" =
    Ok (format_f 1 v ++ " °F",
        if (fkey (of_int 68) <=? fkey v) && (fkey v <=? fkey (of_int 77))
        then comfort_guidance
        else if fkey (of_int 86) <? fkey v then heat_guidance
        else if fkey v <? fkey (of_int 50) then cool_guidance
        else dash).
Proof.
  intros N E Hv. unfold assess_temp. rewrite N, E.
  change (String.eqb "Fahrenheit" "Fahrenheit") with true. cbn [bind].
  rewrite !(fle_nonneg _ _), !(flt_nonneg _ _)
    by (assumption || (vm_compute; reflexivity)).
  repeat match goal with
    | |- context [if ?c then _ else _] => destruct c
    end; reflexivity.
Qed.

Lemma assess_celsius_keys (value v : float) :
  isnan value = false -> to_celsius value = Ok v ->
  nonneg prec emax true v ->
  assess_temp (Some value) "Celsius" =
    Ok (format_f 1 v ++ " °C",
        if (fkey (of_int 20) <=? fkey v) && (fkey v <=? fkey (of_int 25))
        then comfort_guidance
        else if fkey (of_int 30) <? fkey v then heat_guidance
        else if fkey v <? fkey (of_int 10) then cool_guidance
        else dash).
Proof.
  intros N E Hv. unfold assess_temp. rewrite N, E.
  change (String.eqb "Celsius" "Fahrenheit") with false. cbn [bind].
  rewrite !(fle_nonneg _ _), !(flt_nonneg _ _)
    by (assumption || (vm_compute; reflexivity)).
  repeat match goal with
    | |- context [if ?c then _ else _] => destruct c
    end; reflexivity.
Qed.

(** The keys of the thresholds of [assess_temp], of the floats next
    above 30 and 86, and of the conversions at the band ends. *)
Lemma temperature_keys :
  0 < fkey (of_int 10) /\ fkey (of_int 10) < fkey (of_int 20) /\
  fkey (of_int 20) < fkey (of_int 25) /\ fkey (of_int 25) < fkey (of_int 30) /\
  fkey (of_int 30) < fkey (of_int 32) /\ fkey (of_int 32) < fkey (of_int 40) /\
  fkey (of_int 40) < fkey (of_int 50) /\ fkey (of_int 50) < fkey (of_int 68) /\
  fkey (of_int 68) < fkey (of_int 77) /\ fkey (of_int 77) < fkey (of_int 86) /\
  fkey (of_int 86) < fkey (of_int 120) /\
  fkey (S754_finite false 8444249301319681 (-48)) = fkey (of_int 30) + 1 /\
  fkey (S754_finite false 6051711999279105 (-46)) = fkey (of_int 86) + 1 /\
  fkey (of_int 86)
    < fkey (fadd (fdiv (fmul (S754_finite false 8444249301319681 (-48))
                          (of_int 9)) (of_int 5)) (of_int 32)) /\
  fkey (of_int 30)
    < fkey (fdiv (fmul (fsub (S754_finite false 6051711999279105 (-46))
                          (of_int 32)) (of_int 5)) (of_int 9)) /\
  fkey (fadd (fdiv (fmul (of_int 20) (of_int 9)) (of_int 5)) (of_int 32))
    = fkey (of_int 68) /\
  fkey (fadd (fdiv (fmul (of_int 25) (of_int 9)) (of_int 5)) (of_int 32))
    = fkey (of_int 77) /\
  fkey (fdiv (fmul (fsub (of_int 68) (of_int 32)) (of_int 5)) (of_int 9))
    = fkey (of_int 20) /\
  fkey (fdiv (fmul (fsub (of_int 77) (of_int 32)) (of_int 5)) (of_int 9))
    = fkey (of_int 25).
Proof. vm_compute. repeat split; reflexivity. Qed.

Lemma kept_nonneg (a v : float) :
  valid v = true -> nonneg prec emax true a -> fle a v = true ->
  nonneg prec emax true v /\ fkey a <= fkey v.
Proof.
  intros V Ha H. destruct (fle_true_not_nan _ _ H) as [_ N].
  destruct (nonneg_valid prec emax _ _ Ha) as [Va _].
  pose proof (fle_fkey a v Va V H) as K.
  pose proof (key_le_inf prec emax prec_gt_1 prec_lt_emax a Ha) as Ka.
  fold (fkey a) in Ka.
  split; [apply nonneg_of_key_inf; (assumption || lia)|assumption].
Qed.

Lemma above_nonneg (a v : float) :
  valid v = true -> nonneg prec emax true a -> flt a v = true ->
  nonneg prec emax true v /\ fkey a < fkey v.
Proof.
  intros V Ha H. destruct (flt_true_not_nan _ _ H) as [Na N].
  destruct (nonneg_valid prec emax _ _ Ha) as [Va _].
  rewrite flt_key in H by assumption. apply Z.ltb_lt in H.
  pose proof (key_le_inf prec emax prec_gt_1 prec_lt_emax a Ha) as Ka.
  fold (fkey a) in Ka.
  split; [apply nonneg_of_key_inf; (assumption || lia)|assumption].
Qed.

(** X18: with the Fahrenheit target every reading above 30 that is not
    kept as a Fahrenheit value (it lies below 40 or above 120, [+inf]
    included) is converted by [value * 9/5 + 32] and gets the high-heat
    guidance, whereas the readings from 40 up to 50 are kept and get the
    cool guidance: the guidance jumps from heat to cool at 40. *)
Theorem X18_fahrenheit_heat_then_cool (v : float) :
  valid v = true ->
  (flt (of_int 30) v = true ->
   fle (of_int 40) v && fle v (of_int 120) = false ->
   assess_temp (Some v) "Fahrenheit"
     = Ok (format_f 1 (fadd (fdiv (fmul v (of_int 9)) (of_int 5)) (of_int 32))
             ++ " °F", heat_guidance)) /\
  (fle (of_int 40) v = true -> flt v (of_int 50) = true ->
   assess_temp (Some v) "Fahrenheit" = Ok (format_f 1 v ++ " °F", cool_guidance)).
Proof.
  intros V. pose proof temperature_keys as K.
  decompose [and] K. clear K. split.
  - intros H30 Hc.
    destruct (above_nonneg (of_int 30) v V ltac:(vm_compute; reflexivity) H30)
      as [Nv Kv].
    destruct (nonneg_valid prec emax _ _ Nv) as [_ Nan].
    destruct (to_fahrenheit_mono (S754_finite false 8444249301319681 (-48)) v
                ltac:(vm_compute; reflexivity) Nv ltac:(lia)) as (_ & Nc & Kc).
    rewrite (assess_fahrenheit_keys v _ Nan (to_fahrenheit_converted v Hc) Nc).
    decide_tests. reflexivity.
  - intros H40 H50.
    destruct (kept_nonneg (of_int 40) v V ltac:(vm_compute; reflexivity) H40)
      as [Nv Kv].
    destruct (nonneg_valid prec emax _ _ Nv) as [_ Nan].
    rewrite (flt_nonneg v (of_int 50) Nv ltac:(vm_compute; reflexivity)) in H50.
    apply Z.ltb_lt in H50.
    assert (E : to_fahrenheit v = Ok v).
    { unfold to_fahrenheit. rewrite H40.
      rewrite (fle_nonneg v (of_int 120) Nv ltac:(vm_compute; reflexivity)).
      replace (fkey v <=? fkey (of_int 120)) with true
        by (symmetry; apply Z.leb_le; lia).
      reflexivity. }
    rewrite (assess_fahrenheit_keys v v Nan E Nv).
    decide_tests. reflexivity.
Qed.

Lemma X18_witness :
  assess_temp (Some (of_int 39)) "Fahrenheit" = Ok ("102.2 °F", heat_guidance) /\
  assess_temp (Some (of_int 40)) "Fahrenheit" = Ok ("40.0 °F", cool_guidance).
Proof.
  split.
  - apply (proj1 (X18_fahrenheit_heat_then_cool (of_int 39) eq_refl));
      vm_compute; reflexivity.
  - apply (proj2 (X18_fahrenheit_heat_then_cool (of_int 40) eq_refl));
      vm_compute; reflexivity.
Defined.

(** X19: a reading above 86 gets the high-heat guidance with either
    target, [+inf] included: with the Celsius target it is converted by
    [(value - 32) * 5/9] and the result exceeds 30; with the Fahrenheit
    target it is kept up to 120 and converted above, and exceeds 86
    either way. *)
Theorem X19_heat_above_86 (v : float) :
  valid v = true -> flt (of_int 86) v = true ->
  assess_temp (Some v) "Celsius"
    = Ok (format_f 1 (fdiv (fmul (fsub v (of_int 32)) (of_int 5)) (of_int 9))
            ++ " °C", heat_guidance) /\
  assess_temp (Some v) "Fahrenheit"
    = Ok (format_f 1
            (if fle v (of_int 120) then v
             else fadd (fdiv (fmul v (of_int 9)) (of_int 5)) (of_int 32))
            ++ " °F", heat_guidance).
Proof.
  intros V H86. pose proof temperature_keys as K.
  decompose [and] K. clear K.
  destruct (above_nonneg (of_int 86) v V ltac:(vm_compute; reflexivity) H86)
    as [Nv Kv].
  destruct (nonneg_valid prec emax _ _ Nv) as [_ Nan].
  split.
  - assert (Hc : fle (of_int (-20)) v && fle v (of_int 50) = false).
    { rewrite (fle_nonneg v (of_int 50) Nv ltac:(vm_compute; reflexivity)).
      replace (fkey v <=? fkey (of_int 50)) with false
        by (symmetry; apply Z.leb_gt; lia).
      apply andb_false_r. }
    destruct (to_celsius_mono (S754_finite false 6051711999279105 (-46)) v
                ltac:(vm_compute; reflexivity) Nv ltac:(lia) ltac:(lia))
      as (_ & Nc & Kc).
    rewrite (assess_celsius_keys v _ Nan (to_celsius_converted v Hc) Nc).
    decide_tests. reflexivity.
  - assert (H40 : fle (of_int 40) v = true).
    { rewrite (fle_nonneg (of_int 40) v ltac:(vm_compute; reflexivity) Nv).
      apply Z.leb_le. lia. }
    destruct (fle v (of_int 120)) eqn:H120.
    + assert (E : to_fahrenheit v = Ok v).
      { unfold to_fahrenheit. now rewrite H40, H120. }
      rewrite (assess_fahrenheit_keys v v Nan E Nv).
      decide_tests. reflexivity.
    + assert (Hc : fle (of_int 40) v && fle v (of_int 120) = false)
        by (rewrite H120; apply andb_false_r).
      destruct (to_fahrenheit_mono (S754_finite false 8444249301319681 (-48)) v
                  ltac:(vm_compute; reflexivity) Nv ltac:(lia)) as (_ & Nc & Kc).
      rewrite (assess_fahrenheit_keys v _ Nan (to_fahrenheit_converted v Hc) Nc).
      decide_tests. reflexivity.
Qed.

Lemma X19_witness :
  assess_temp (Some (of_int 95)) "Celsius" = Ok ("35.0 °C", heat_guidance) /\
  assess_temp (Some (of_int 95)) "Fahrenheit" = Ok ("95.0 °F", heat_guidance).
Proof.
  apply (X19_heat_above_86 (of_int 95)); vm_compute; reflexivity.
Defined.

(** X20: the comfort bands of the two units agree under conversion: a
    Celsius reading in [20, 25] shown with the Fahrenheit target is
    converted into [68, 77], and a Fahrenheit reading in [68, 77] shown
    with the Celsius target is converted into [20, 25]; both get the
    comfort guidance. *)
Theorem X20_comfort_across_units (v : float) :
  valid v = true ->
  (fle (of_int 20) v = true -> fle v (of_int 25) = true ->
   assess_temp (Some v) "Fahrenheit"
     = Ok (format_f 1 (fadd (fdiv (fmul v (of_int 9)) (of_int 5)) (of_int 32))
             ++ " °F", comfort_guidance)) /\
  (fle (of_int 68) v = true -> fle v (of_int 77) = true ->
   assess_temp (Some v) "Celsius"
     = Ok (format_f 1 (fdiv (fmul (fsub v (of_int 32)) (of_int 5)) (of_int 9))
             ++ " °C", comfort_guidance)).
Proof.
  intros V. pose proof temperature_keys as K.
  decompose [and] K. clear K. split.
  - intros Hlo Hhi.
    destruct (kept_nonneg (of_int 20) v V ltac:(vm_compute; reflexivity) Hlo)
      as [Nv Kv].
    destruct (nonneg_valid prec emax _ _ Nv) as [_ Nan].
    rewrite (fle_nonneg v (of_int 25) Nv ltac:(vm_compute; reflexivity)) in Hhi.
    apply Z.leb_le in Hhi.
    assert (Hc : fle (of_int 40) v && fle v (of_int 120) = false).
    { rewrite (fle_nonneg (of_int 40) v ltac:(vm_compute; reflexivity) Nv).
      replace (fkey (of_int 40) <=? fkey v) with false
        by (symmetry; apply Z.leb_gt; lia).
      reflexivity. }
    destruct (to_fahrenheit_mono (of_int 20) v
                ltac:(vm_compute; reflexivity) Nv Kv) as (_ & Nc & Klo).
    destruct (to_fahrenheit_mono v (of_int 25) Nv
                ltac:(vm_compute; reflexivity) Hhi) as (_ & _ & Khi).
    rewrite (assess_fahrenheit_keys v _ Nan (to_fahrenheit_converted v Hc) Nc).
    decide_tests. reflexivity.
  - intros Hlo Hhi.
    destruct (kept_nonneg (of_int 68) v V ltac:(vm_compute; reflexivity) Hlo)
      as [Nv Kv].
    destruct (nonneg_valid prec emax _ _ Nv) as [_ Nan].
    rewrite (fle_nonneg v (of_int 77) Nv ltac:(vm_compute; reflexivity)) in Hhi.
    apply Z.leb_le in Hhi.
    assert (Hc : fle (of_int (-20)) v && fle v (of_int 50) = false).
    { rewrite (fle_nonneg v (of_int 50) Nv ltac:(vm_compute; reflexivity)).
      replace (fkey v <=? fkey (of_int 50)) with false
        by (symmetry; apply Z.leb_gt; lia).
      apply andb_false_r. }
    destruct (to_celsius_mono (of_int 68) v
                ltac:(vm_compute; reflexivity) Nv ltac:(lia) Kv)
      as (_ & Nc & Klo).
    destruct (to_celsius_mono v (of_int 77) Nv
                ltac:(vm_compute; reflexivity) ltac:(lia) Hhi)
      as (_ & _ & Khi).
    rewrite (assess_celsius_keys v _ Nan (to_celsius_converted v Hc) Nc).
    decide_tests. reflexivity.
Qed.

Lemma X20_witness :
  assess_temp (Some (dec 215 1)) "Fahrenheit" = Ok ("70.7 °F", comfort_guidance) /\
  assess_temp (Some (dec 705 1)) "Celsius" = Ok ("21.4 °C", comfort_guidance).
Proof.
  split.
  - apply (proj1 (X20_comfort_across_units (dec 215 1) eq_refl));
      vm_compute; reflexivity.
  - apply (proj2 (X20_comfort_across_units (dec 705 1) eq_refl));
      vm_compute; reflexivity.
Defined.

(* ===================================================================== *)
(** ** Displayed values at the band edges                                 *)
(* ===================================================================== *)

(** A positive reading between two floats that are displayed alike is
    displayed like them. *)
Lemma format_f_between (nd : nat) (lo hi x : float) (n : Z) :
  nnf lo -> nnf hi -> valid x = true ->
  0 < fkey lo -> fkey lo <= fkey x -> fkey x <= fkey hi ->
  rne_shift (fval lo * 10 ^ Z.of_nat nd) (- emin prec emax) = n ->
  rne_shift (fval hi * 10 ^ Z.of_nat nd) (- emin prec emax) = n ->
  format_f nd x = fixed_digits nd n.
Proof.
  intros Nlo Nhi V K0 Klo Khi Rlo Rhi.
  pose proof (fkey_bounds hi Nhi) as Bhi.
  assert (Nx : nnf x).
  { destruct x as [s|[|]| |[|] m e]; try exact I; try exact V;
      unfold fkey in *; cbn [key] in *; try lia.
    pose proof (ord_bounds prec emax prec_gt_1 m e V). lia. }
  pose proof (proj1 (fkey_fval_le lo x Nlo Nx) Klo) as Vlo.
  pose proof (proj1 (fkey_fval_le x hi Nx Nhi) Khi) as Vhi.
  assert (Hc : 0 < 10 ^ Z.of_nat nd) by (apply Z.pow_pos_nonneg; lia).
  destruct x as [s|[|]| |[|] m e]; try contradiction; try discriminate.
  - unfold fkey in *. cbn [key] in *. lia.
  - unfold format_f. rewrite (nearest_int_val m e _ Nx).
    assert (He : 0 <= - emin prec emax) by (vm_compute; discriminate).
    pose proof (rne_shift_mono (fval lo * 10 ^ Z.of_nat nd)
                  (fval (S754_finite false m e) * 10 ^ Z.of_nat nd)
                  _ He ltac:(nia)) as M1.
    pose proof (rne_shift_mono (fval (S754_finite false m e) * 10 ^ Z.of_nat nd)
                  (fval hi * 10 ^ Z.of_nat nd) _ He ltac:(nia)) as M2.
    replace (rne_shift (fval (S754_finite false m e) * 10 ^ Z.of_nat nd)
               (- emin prec emax)) with n by lia.
    reflexivity.
Qed.

Lemma test_keys (a b : float) :
  valid a = true -> valid b = true ->
  (fle a b = true -> fkey a <= fkey b) /\ (flt a b = true -> fkey a < fkey b).
Proof.
  intros Va Vb. split; intros H.
  - now apply fle_fkey.
  - destruct (flt_true_not_nan _ _ H). rewrite flt_key in H by assumption.
    now apply Z.ltb_lt.
Qed.

(** X21: the percentage [assess_humidity] displays is rounded to an
    integer while the band is chosen from the unrounded value, so the
    display can contradict the advice: every reading from 39.5 up to (not
    including) 40 is shown as "40%" with the advice to target at least
    40%, and every reading above 60 up to 60.5 is shown as "60%" with the
    advice to target at most 60%. *)
Theorem X21_humidity_display_at_edges (h : float) :
  valid h = true ->
  (fle (dec 395 1) h = true -> flt h (of_int 40) = true ->
   assess_humidity (Some h)
     = ("40%", "Slightly dry: consider humidifier (target ≥40%).")) /\
  (flt (of_int 60) h = true -> fle h (dec 605 1) = true ->
   assess_humidity (Some h)
     = ("60%", "Slightly humid: increase ventilation; target ≤60%.")).
Proof.
  intros V.
  assert (K : 0 < fkey (of_int 30) /\ fkey (of_int 30) < fkey (dec 395 1) /\
              fkey (dec 395 1) < fkey (of_int 40) /\
              fkey (of_int 40) < fkey (of_int 60) /\
              fkey (of_int 60) < fkey (dec 605 1) /\
              fkey (dec 605 1) < fkey (of_int 70))
    by (vm_compute; repeat split; reflexivity).
  decompose [and] K. clear K. split; intros T1 T2.
  - destruct (fle_true_not_nan _ _ T1) as [_ N].
    apply (proj1 (test_keys (dec 395 1) h eq_refl V)) in T1.
    apply (proj2 (test_keys h (of_int 40) V eq_refl)) in T2.
    unfold assess_humidity. rewrite N.
    rewrite !fle_key, !flt_key by (assumption || (vm_compute; reflexivity)).
    decide_tests.
    rewrite (format_f_between 0 (dec 395 1) (of_int 40) h 40);
      [reflexivity|apply nnfb_nnf; reflexivity|apply nnfb_nnf; reflexivity
      |assumption|lia|lia|lia|reflexivity|reflexivity].
  - destruct (flt_true_not_nan _ _ T1) as [_ N].
    apply (proj2 (test_keys (of_int 60) h eq_refl V)) in T1.
    apply (proj1 (test_keys h (dec 605 1) V eq_refl)) in T2.
    unfold assess_humidity. rewrite N.
    rewrite !fle_key, !flt_key by (assumption || (vm_compute; reflexivity)).
    decide_tests.
    rewrite (format_f_between 0 (of_int 60) (dec 605 1) h 60);
      [reflexivity|apply nnfb_nnf; reflexivity|apply nnfb_nnf; reflexivity
      |assumption|lia|lia|lia|reflexivity|reflexivity].
Qed.

Lemma X21_witness :
  assess_humidity (Some (dec 397 1))
    = ("40%", "Slightly dry: consider humidifier (target ≥40%).") /\
  assess_humidity (Some (dec 603 1))
    = ("60%", "Slightly humid: increase ventilation; target ≤60%.").
Proof.
  split.
  - apply (proj1 (X21_humidity_display_at_edges (dec 397 1) eq_refl));
      vm_compute; reflexivity.
  - apply (proj2 (X21_humidity_display_at_edges (dec 603 1) eq_refl));
      vm_compute; reflexivity.
Defined.

(** X22: [assess_pressure] displays one decimal while the guidance is
    chosen from the unrounded value: every reading from 999.95 up to (not
    including) 1000 is shown as "1000.0 hPa" with the low-pressure
    guidance, and every reading above 1025 up to 1025.05 is shown as
    "1025.0 hPa" with the high-pressure guidance. *)
Theorem X22_pressure_display_at_edges (p : float) :
  valid p = true ->
  (fle (dec 99995 2) p = true -> flt p (of_int 1000) = true ->
   assess_pressure (Some p)
     = ("1000.0 hPa", "Low pressure: unsettled weather likely.")) /\
  (flt (of_int 1025) p = true -> fle p (dec 102505 2) = true ->
   assess_pressure (Some p)
     = ("1025.0 hPa", "High pressure: settled/fair weather.")).
Proof.
  intros V.
  assert (K : 0 < fkey (dec 99995 2) /\
              fkey (dec 99995 2) < fkey (of_int 1000) /\
              fkey (of_int 1000) < fkey (of_int 1025) /\
              fkey (of_int 1025) < fkey (dec 102505 2))
    by (vm_compute; repeat split; reflexivity).
  decompose [and] K. clear K. split; intros T1 T2.
  - destruct (fle_true_not_nan _ _ T1) as [_ N].
    apply (proj1 (test_keys (dec 99995 2) p eq_refl V)) in T1.
    apply (proj2 (test_keys p (of_int 1000) V eq_refl)) in T2.
    unfold assess_pressure. rewrite N.
    rewrite !flt_key by (assumption || (vm_compute; reflexivity)).
    decide_tests.
    rewrite (format_f_between 1 (dec 99995 2) (of_int 1000) p 10000);
      [reflexivity|apply nnfb_nnf; reflexivity|apply nnfb_nnf; reflexivity
      |assumption|lia|lia|lia|reflexivity|reflexivity].
  - destruct (flt_true_not_nan _ _ T1) as [_ N].
    apply (proj2 (test_keys (of_int 1025) p eq_refl V)) in T1.
    apply (proj1 (test_keys p (dec 102505 2) V eq_refl)) in T2.
    unfold assess_pressure. rewrite N.
    rewrite !flt_key by (assumption || (vm_compute; reflexivity)).
    decide_tests.
    rewrite (format_f_between 1 (of_int 1025) (dec 102505 2) p 10250);
      [reflexivity|apply nnfb_nnf; reflexivity|apply nnfb_nnf; reflexivity
      |assumption|lia|lia|lia|reflexivity|reflexivity].
Qed.

Lemma X22_witness :
  assess_pressure (Some (dec 99997 2))
    = ("1000.0 hPa", "Low pressure: unsettled weather likely.") /\
  assess_pressure (Some (dec 102503 2))
    = ("1025.0 hPa", "High pressure: settled/fair weather.").
Proof.
  split.
  - apply (proj1 (X22_pressure_display_at_edges (dec 99997 2) eq_refl));
      vm_compute; reflexivity.
  - apply (proj2 (X22_pressure_display_at_edges (dec 102503 2) eq_refl));
      vm_compute; reflexivity.
Defined.
